(** * playstore: validation of a publish request and the edit workflow

    A shallow embedding of [playstore/publish.go] and [playstore/util.go]
    ([Publish], [UploadFiles], [upload], [uploadMapping], [fileSha256]),
    of the service interfaces of the package ([IEditsService],
    [IUploadService]) and of the parts of the Go standard library they rest
    on ([crypto/sha256], [encoding/hex], [strings.TrimSpace],
    [strings.ToLower]).

    Conventions.
    - A Go [string] is a [string] of the Standard Library (a sequence of
      bytes).  [strings.TrimSpace] trims the white space of Unicode.
      [strings.ToLower] is the one of Go on ASCII text and leaves bytes
      from 128 on alone (as Go does for runes without case, on valid
      UTF-8); statements that lower an arbitrary string ask for ASCII.
    - A Go [error] is a value of [error]: a message, possibly wrapping
      another error ([%w]).
    - The file system ([afero.Fs]) is a record of its two operations used
      here, [Stat] and [Open]; it does not change during a call.
    - The remote service is a record of operations over a state [St] that is
      passed explicitly; [traced] turns any service into one that records
      each call with its arguments and result.
    - [log.Fatal] ends the process: [Exit].  [Debugf] and [log.Println]
      only print and are left out. *)

From Stdlib Require Import ZArith List Bool Lia Permutation.
From Stdlib.Strings Require Import String Ascii Byte.
Import ListNotations.
Local Open Scope Z_scope.

(* ================================================================= *)
(** ** crypto/sha256 (FIPS 180-4) and encoding/hex *)

Module Sha256.

Definition w32 (x : Z) : Z := x mod 2 ^ 32.

Definition add32 (x y : Z) : Z := w32 (x + y).

Definition rotr (n x : Z) : Z :=
  Z.lor (Z.shiftr x n) (w32 (Z.shiftl x (32 - n))).

Definition not32 (x : Z) : Z := Z.lxor x (2 ^ 32 - 1).

Definition Ch (x y z : Z) : Z := Z.lxor (Z.land x y) (Z.land (not32 x) z).
Definition Maj (x y z : Z) : Z :=
  Z.lxor (Z.lxor (Z.land x y) (Z.land x z)) (Z.land y z).
Definition Sigma0 (x : Z) : Z :=
  Z.lxor (Z.lxor (rotr 2 x) (rotr 13 x)) (rotr 22 x).
Definition Sigma1 (x : Z) : Z :=
  Z.lxor (Z.lxor (rotr 6 x) (rotr 11 x)) (rotr 25 x).
Definition sigma0 (x : Z) : Z :=
  Z.lxor (Z.lxor (rotr 7 x) (rotr 18 x)) (Z.shiftr x 3).
Definition sigma1 (x : Z) : Z :=
  Z.lxor (Z.lxor (rotr 17 x) (rotr 19 x)) (Z.shiftr x 10).

(** The constants of the standard are taken from the primes: the first
    32 bits of the fractional part of the cube root of each of the first
    64 primes for [K], and of the square root of each of the first 8
    primes for the initial hash value. *)
Definition isPrime (n : nat) : bool :=
  forallb (fun d => negb (Nat.eqb (Nat.modulo n d) 0)) (seq 2 (n - 2)).

Definition primes : list Z :=
  map Z.of_nat (filter isPrime (seq 2 310)).

(** The largest [r] below [2 ^ bits] with [r ^ e <= n], one bit at a
    time from the top. *)
Fixpoint iroot (e n : Z) (bits : nat) (acc : Z) : Z :=
  match bits with
  | O => acc
  | S b =>
      let cand := acc + 2 ^ Z.of_nat b in
      iroot e n b (if Z.leb (cand ^ e) n then cand else acc)
  end.

Definition fracRoot (e p : Z) : Z :=
  w32 (iroot e (p * 2 ^ (32 * e)) 40 0).

Definition K : list Z := map (fracRoot 3) primes.

Definition init : list Z := map (fracRoot 2) (firstn 8 primes).

(** Padding: the byte 0x80, zero bytes up to 56 modulo 64, then the
    length of the message in bits as 8 bytes, most significant first. *)
Definition be_bytes (n : nat) (x : Z) : list Z :=
  map (fun i => (Z.shiftr x (8 * Z.of_nat i)) mod 256) (rev (seq 0 n)).

Definition pad (msg : list Z) : list Z :=
  let len := Z.of_nat (List.length msg) in
  let zeros := Z.to_nat ((55 - len) mod 64) in
  msg ++ 0x80 :: repeat 0 zeros ++ be_bytes 8 (8 * len).

Definition be_word (bs : list Z) : Z :=
  fold_left (fun acc b => acc * 256 + b) bs 0.

(** [n] words of 4 bytes each from the front of [bs]. *)
Fixpoint words (n : nat) (bs : list Z) : list Z :=
  match n with
  | O => []
  | S n' => be_word (firstn 4 bs) :: words n' (skipn 4 bs)
  end.

(** The message schedule, most recent word first: [sched] holds
    W(t-1), W(t-2), ... and is extended by [n] words. *)
Fixpoint extend (n : nat) (sched : list Z) : list Z :=
  match n with
  | O => sched
  | S n' =>
      let w := add32 (add32 (sigma1 (nth 1 sched 0)) (nth 6 sched 0))
                     (add32 (sigma0 (nth 14 sched 0)) (nth 15 sched 0)) in
      extend n' (w :: sched)
  end.

Definition schedule (block : list Z) : list Z :=
  rev (extend 48 (rev (words 16 block))).

Record regs : Type := Regs
  { ra : Z; rb : Z; rc : Z; rd : Z; re : Z; rf : Z; rg : Z; rh : Z }.

Definition round (s : regs) (kw : Z * Z) : regs :=
  let (k, w) := kw in
  let t1 := add32 (add32 (add32 (add32 (rh s) (Sigma1 (re s)))
                                (Ch (re s) (rf s) (rg s))) k) w in
  let t2 := add32 (Sigma0 (ra s)) (Maj (ra s) (rb s) (rc s)) in
  Regs (add32 t1 t2) (ra s) (rb s) (rc s) (add32 (rd s) t1)
       (re s) (rf s) (rg s).

Definition regs_of (h : list Z) : regs :=
  Regs (nth 0 h 0) (nth 1 h 0) (nth 2 h 0) (nth 3 h 0)
       (nth 4 h 0) (nth 5 h 0) (nth 6 h 0) (nth 7 h 0).

Definition compress (h : list Z) (block : list Z) : list Z :=
  let s := fold_left round (combine K (schedule block)) (regs_of h) in
  [ add32 (nth 0 h 0) (ra s); add32 (nth 1 h 0) (rb s);
    add32 (nth 2 h 0) (rc s); add32 (nth 3 h 0) (rd s);
    add32 (nth 4 h 0) (re s); add32 (nth 5 h 0) (rf s);
    add32 (nth 6 h 0) (rg s); add32 (nth 7 h 0) (rh s) ].

(** [n] blocks of 64 bytes each from the front of [bs]. *)
Fixpoint blocks (n : nat) (h : list Z) (bs : list Z) : list Z :=
  match n with
  | O => h
  | S n' => blocks n' (compress h (firstn 64 bs)) (skipn 64 bs)
  end.

Definition digest_words (msg : list Z) : list Z :=
  let p := pad msg in
  blocks (Nat.div (List.length p) 64) init p.

Definition byte_of_Z (x : Z) : byte :=
  match Byte.of_N (Z.to_N (x mod 256)) with
  | Some b => b
  | None => x00
  end.

Definition Z_of_byte (b : byte) : Z := Z.of_N (Byte.to_N b).

(** [sha256.New()], [Write] of the whole input, [Sum(nil)]. *)
Definition Sum (msg : list byte) : list byte :=
  map byte_of_Z (flat_map (be_bytes 4) (digest_words (map Z_of_byte msg))).

End Sha256.

Module Hex.

(** The table of [encoding/hex]: "0123456789abcdef". *)
Definition hextable : string := "0123456789abcdef".

Definition digit (n : N) : ascii :=
  match String.get (N.to_nat n) hextable with
  | Some c => c
  | None => "0"%char
  end.

Fixpoint EncodeToString (src : list byte) : string :=
  match src with
  | [] => EmptyString
  | b :: rest =>
      let v := Byte.to_N b in
      String (digit (N.shiftr v 4))
        (String (digit (N.land v 15)) (EncodeToString rest))
  end.

End Hex.

(* ================================================================= *)
(** ** strings.TrimSpace and strings.ToLower *)

Module strings.

(** The ASCII white space of Go: tab, line feed, vertical tab, form feed,
    carriage return and space. *)
Definition isSpace (c : ascii) : bool :=
  let n := nat_of_ascii c in
  (Nat.leb 9 n && Nat.leb n 13) || Nat.eqb n 32.

(** [strings.ToLower] on ASCII text: the letters A-Z become a-z.  Bytes
    from 128 on are kept, which is what Go does with the runes that have
    no lower case (the space runes among them); the runes beyond ASCII
    that have one (U+0130 becomes i) are outside this model, and the
    statements that lower a string that is not known to be a supported
    track between white space ask for ASCII ([isAscii]). *)
Definition lowerByte (c : ascii) : ascii :=
  let n := nat_of_ascii c in
  if Nat.leb 65 n && Nat.leb n 90 then ascii_of_nat (n + 32) else c.

Fixpoint ToLower (s : string) : string :=
  match s with
  | EmptyString => EmptyString
  | String c s' => String (lowerByte c) (ToLower s')
  end.

(** [strings.TrimSpace] drops the leading and the trailing runes for which
    [unicode.IsSpace] holds: the six of ASCII and the runes of
    [whiteSpace], which UTF-8 writes in two or three bytes. *)

(** The UTF-8 encoding of a code point from U+0080 to U+FFFF. *)
Definition utf8 (cp : N) : string :=
  if (cp <? 0x800)%N then
    String (ascii_of_N (0xC0 + cp / 0x40))
      (String (ascii_of_N (0x80 + cp mod 0x40)) EmptyString)
  else
    String (ascii_of_N (0xE0 + cp / 0x1000))
      (String (ascii_of_N (0x80 + (cp / 0x40) mod 0x40))
         (String (ascii_of_N (0x80 + cp mod 0x40)) EmptyString)).

(** The runes above ASCII for which [unicode.IsSpace] holds: U+0085,
    U+00A0 and the White_Space runes beyond Latin-1. *)
Definition whiteSpace : list N :=
  [ 0x85; 0xA0; 0x1680; 0x2000; 0x2001; 0x2002; 0x2003; 0x2004; 0x2005;
    0x2006; 0x2007; 0x2008; 0x2009; 0x200A; 0x2028; 0x2029; 0x202F; 0x205F;
    0x3000 ]%N.

Definition unicodeSpaces : list string := map utf8 whiteSpace.

Definition isSpace2 (c1 c2 : ascii) : bool :=
  existsb (String.eqb (String c1 (String c2 EmptyString))) unicodeSpaces.

Definition isSpace3 (c1 c2 c3 : ascii) : bool :=
  existsb (String.eqb (String c1 (String c2 (String c3 EmptyString))))
    unicodeSpaces.

(** Drop from the front every rune that is a space: a byte for which [p1]
    holds, or two or three bytes for which [p2] or [p3] holds.  Any other
    byte, also one that starts no valid rune, ends the scan. *)
Fixpoint strip (p1 : ascii -> bool) (p2 : ascii -> ascii -> bool)
    (p3 : ascii -> ascii -> ascii -> bool) (s : list ascii) : list ascii :=
  match s with
  | [] => []
  | c1 :: s1 =>
      if p1 c1 then strip p1 p2 p3 s1
      else
        match s1 with
        | [] => s
        | c2 :: s2 =>
            if p2 c1 c2 then strip p1 p2 p3 s2
            else
              match s2 with
              | [] => s
              | c3 :: s3 => if p3 c1 c2 c3 then strip p1 p2 p3 s3 else s
              end
        end
  end.

Definition TrimLeft (s : string) : string :=
  string_of_list_ascii
    (strip isSpace isSpace2 isSpace3 (list_ascii_of_string s)).

(** From the end, the bytes of a rune come last byte first. *)
Definition TrimRight (s : string) : string :=
  string_of_list_ascii
    (rev (strip isSpace (fun c2 c1 => isSpace2 c1 c2)
            (fun c3 c2 c1 => isSpace3 c1 c2 c3)
            (rev (list_ascii_of_string s)))).

Definition TrimSpace (s : string) : string := TrimRight (TrimLeft s).

(** [strings.Contains]. *)
Fixpoint Contains (s substr : string) : bool :=
  if String.prefix substr s then true
  else match s with
       | EmptyString => false
       | String _ s' => Contains s' substr
       end.

End strings.

(* ================================================================= *)
(** ** Errors, results and the file system *)

(** [errors.New] and [fmt.Errorf] without [%w] give an [errorString];
    [fmt.Errorf] with [%w] gives a [wrapError] around the inner error. *)
Inductive error : Type :=
| errorString (s : string)
| wrapError (msg : string) (err : error).

Definition Error (e : error) : string :=
  match e with
  | errorString s => s
  | wrapError msg _ => msg
  end.

Inductive result (A : Type) : Type :=
| Ok (a : A)
| Err (e : error).
Arguments Ok {A} a.
Arguments Err {A} e.

(** What a call leaves behind: it returns, or [log.Fatal] ended the
    process. *)
Inductive outcome (A : Type) : Type :=
| Return (a : A)
| Exit (e : error).
Arguments Return {A} a.
Arguments Exit {A} e.

(** An opened file: its bytes, and the error (if any) that reading or
    seeking on it gives. *)
Record File : Type := mkFile
  { content : list byte;
    readErr : option error;
    seekErr : option error }.

(** An [io.ReadSeeker] over a file: the file and the read offset. *)
Record ReadSeeker : Type := mkReadSeeker
  { file : File;
    offset : nat }.

Record FileInfo : Type := mkFileInfo { Size : Z }.

(** [afero.Fs], the two operations the package calls.  [Open] gives the
    file; the handle starts at offset 0 ([openAt0]). *)
Record Fs : Type := mkFs
  { Stat : string -> result FileInfo;
    Open : string -> result File }.

Definition openAt0 (f : File) : ReadSeeker := mkReadSeeker f 0.

(** The bytes a reader delivers when read to the end. *)
Definition remaining (r : ReadSeeker) : list byte :=
  skipn (offset r) (content (file r)).

(* ================================================================= *)
(** ** publish.go: the data model and [Publish] *)

Definition TrackInternal : string := "internal".
Definition TrackAlpha : string := "alpha".
Definition TrackBeta : string := "beta".

Record binary : Type := mkBinary
  { filePath : string;
    mappingPath : string }.

Definition BinaryWithMapping (path mappingPath : string) : binary :=
  mkBinary path mappingPath.

Definition Binary (path : string) : binary := mkBinary path "".

Record publish : Type := mkPublish
  { packageName : string;
    track : string;
    authFile : string;
    files : list binary;
    apk : bool;
    verbose : bool;
    fs : Fs }.

Definition fileExits (p : publish) (file : string) : bool :=
  match Stat (fs p) file with
  | Ok _ => true
  | Err _ => false
  end.

(** [log.Fatal] when [Stat] fails. *)
Definition fileSize (p : publish) (file : string) : outcome Z :=
  match Stat (fs p) file with
  | Ok s => Return (Size s)
  | Err e => Exit e
  end.

(** The loop of [Publish] over the files: the first missing path ends it. *)
Fixpoint checkFiles (p : publish) (fl : list binary) : option error :=
  match fl with
  | [] => None
  | f :: rest =>
      if negb (fileExits p (filePath f)) then
        Some (errorString ("binary file '" ++ filePath f ++ "' does not exist"))
      else if negb (String.eqb (mappingPath f) "")
                && negb (fileExits p (mappingPath f)) then
        Some (errorString
                ("mappings file '" ++ mappingPath f ++ "' does not exist"))
      else checkFiles p rest
  end.

Definition Publish (fs : Fs) (packageName track authFile : string)
    (files : list binary) (apk verbose : bool) : result publish :=
  let p := mkPublish "" "" "" [] false verbose fs in
  if negb (fileExits p authFile) then
    Err (errorString
           ("authentication file '" ++ authFile ++ "' does not exist"))
  else
    let name := strings.TrimSpace packageName in
    if String.eqb name "" then
      Err (errorString "package name must not be empty")
    else
      let t := strings.TrimSpace (strings.ToLower track) in
      if String.eqb t "" then
        Err (errorString "track name to publish binary to is required")
      else if negb (String.eqb t TrackBeta) && negb (String.eqb t TrackAlpha)
                && negb (String.eqb t TrackInternal) then
        Err (errorString
               ("provided track type '" ++ t
                ++ "' not supported. Only supported types are '"
                ++ TrackBeta ++ "' '" ++ TrackAlpha ++ "' '"
                ++ TrackInternal ++ "'"))
      else
        match files with
        | [] => Err (errorString "no files to upload provided")
        | _ =>
            match checkFiles p files with
            | Some e => Err e
            | None =>
                Ok (mkPublish name t authFile files apk verbose fs)
            end
        end.

(* ================================================================= *)
(** ** util.go: [fileSha256] *)

(** [io.Copy] into the hash reads the reader to its end; [Seek(0,
    io.SeekStart)] then puts the offset back to the start. *)
Definition fileSha256 (r : ReadSeeker) : result string * ReadSeeker :=
  match readErr (file r) with
  | Some e => (Err e, r)
  | None =>
      let h := Sha256.Sum (remaining r) in
      let atEnd :=
        mkReadSeeker (file r)
          (Nat.max (offset r) (List.length (content (file r)))) in
      match seekErr (file r) with
      | Some e => (Err e, atEnd)
      | None => (Ok (Hex.EncodeToString h), mkReadSeeker (file r) 0)
      end
  end.

(** [strings.NewReader]: a reader over the bytes of a string, which never
    fails. *)
Definition NewReader (s : string) : ReadSeeker :=
  openAt0 (mkFile (list_byte_of_string s) None None).

(* ================================================================= *)
(** ** The service interfaces *)

(** An [io.Reader] handed to the service: a file, or the
    [ioprogress.Reader] around one, which forwards the bytes of the file
    unchanged and knows its size. *)
Inductive Reader : Type :=
| FileReader (r : ReadSeeker)
| ProgressReader (r : ReadSeeker) (size : Z).

Definition readAll (r : Reader) : list byte :=
  match r with
  | FileReader f => remaining f
  | ProgressReader f _ => remaining f
  end.

Section Service.

(** The state of the remote service (and of the client object). *)
Context {St : Type}.

Record IEditsService : Type := mkEdits
  { createEdit : string -> St -> result string * St;
    validateEdit : string -> string -> St -> option error * St;
    deleteEdit : string -> string -> St -> option error * St;
    commitEdit : string -> string -> St -> option error * St }.

Record IUploadService : Type := mkUploads
  { uploadBundle : Reader -> string -> string -> St -> result (Z * string) * St;
    uploadApk : Reader -> string -> string -> St -> result (Z * string) * St;
    uploadProguardMapping :
      Reader -> string -> string -> Z -> St -> option error * St }.

Record IDraftService : Type := mkDrafts
  { createDraft :
      string -> string -> string -> list Z -> St -> option error * St }.

Record IGService : Type := mkGService
  { edits :> IEditsService;
    uploads :> IUploadService;
    drafts :> IDraftService }.

End Service.
Arguments IEditsService St : clear implicits.
Arguments IUploadService St : clear implicits.
Arguments IDraftService St : clear implicits.
Arguments IGService St : clear implicits.

(* ================================================================= *)
(** ** publish.go: [upload], [uploadMapping] and [UploadFiles] *)

Section Upload.

Context {St : Type}.

Definition upload (p : publish) (us : IUploadService St)
    (filePath editId : string) (isApk : bool) (st : St)
  : outcome (result Z) * St :=
  match Open (fs p) filePath with
  | Err err => (Return (Err err), st)
  | Ok fl =>
      let f := openAt0 fl in
      match fileSha256 f with
      | (Err err, _) =>
          (Return (Err (wrapError
                          ("failed calculating '" ++ filePath
                           ++ "' sha256 hash: " ++ Error err) err)), st)
      | (Ok hash, f) =>
          match fileSize p filePath with
          | Exit e => (Exit e, st)
          | Return size =>
              let pReader := ProgressReader f size in
              let uplF := if isApk then uploadApk us else uploadBundle us in
              match uplF pReader (packageName p) editId st with
              | (Err err, st) => (Return (Err err), st)
              | (Ok (v, sha256), st) =>
                  if negb (String.eqb sha256 hash) then
                    (Return (Err (errorString
                       ("failed integrity verification with local file hash '"
                        ++ hash ++ "' and remote '" ++ sha256 ++ "'"))), st)
                  else (Return (Ok v), st)
              end
          end
      end
  end.

Definition uploadMapping (p : publish) (us : IUploadService St)
    (filePath editId : string) (appVersionCode : Z) (st : St)
  : option error * St :=
  match Open (fs p) filePath with
  | Err err => (Some err, st)
  | Ok fl =>
      uploadProguardMapping us (FileReader (openAt0 fl)) (packageName p)
        editId appVersionCode st
  end.

(** [gs.deleteEdit(p.packageName, edit); return err]: the result of
    [deleteEdit] is dropped. *)
Definition deleteAndReturn {A : Type} (p : publish) (gs : IGService St)
    (edit : string) (err : A) (st : St) : outcome A * St :=
  let (_, st) := deleteEdit gs (packageName p) edit st in
  (Return err, st).

(** The [for] loop of [UploadFiles] over [p.files]; [Err] is an early
    [return err] out of [UploadFiles]. *)
Fixpoint uploadEach (p : publish) (gs : IGService St) (edit : string)
    (fl : list binary) (versions : list Z) (st : St)
  : outcome (result (list Z)) * St :=
  match fl with
  | [] => (Return (Ok versions), st)
  | f :: rest =>
      match upload p gs (filePath f) edit (apk p) st with
      | (Exit e, st) => (Exit e, st)
      | (Return (Err err), st) => deleteAndReturn p gs edit (Err err) st
      | (Return (Ok v), st) =>
          let versions := versions ++ [v] in
          if String.eqb (mappingPath f) "" then
            uploadEach p gs edit rest versions st
          else
            match uploadMapping p gs (mappingPath f) edit v st with
            | (Some err, st) => deleteAndReturn p gs edit (Err err) st
            | (None, st) => uploadEach p gs edit rest versions st
            end
      end
  end.

(** [gs == nil] is [None]. *)
Definition UploadFiles (p : publish) (gs : option (IGService St)) (st : St)
  : outcome (option error) * St :=
  match gs with
  | None =>
      (Return (Some (errorString
                       "no Google Playstore service instance provided")), st)
  | Some gs =>
      match createEdit gs (packageName p) st with
      | (Err err, st) => (Return (Some err), st)
      | (Ok edit, st) =>
          match uploadEach p gs edit (files p) [] st with
          | (Exit e, st) => (Exit e, st)
          | (Return (Err err), st) => (Return (Some err), st)
          | (Return (Ok _), st) =>
              match validateEdit gs (packageName p) edit st with
              | (Some err, st) => deleteAndReturn p gs edit (Some err) st
              | (None, st) =>
                  match commitEdit gs (packageName p) edit st with
                  | (Some err, st) => deleteAndReturn p gs edit (Some err) st
                  | (None, st) => (Return None, st)
                  end
              end
          end
      end
  end.

End Upload.

(* ================================================================= *)
(** ** Recording the calls made to a service *)

(** One call of the service interface, with its arguments and what it
    returned. *)
Inductive call : Type :=
| CreateEdit (packageName : string) (res : result string)
| ValidateEdit (packageName editId : string) (res : option error)
| DeleteEdit (packageName editId : string) (res : option error)
| CommitEdit (packageName editId : string) (res : option error)
| UploadBundle (r : Reader) (packageName editId : string)
    (res : result (Z * string))
| UploadApk (r : Reader) (packageName editId : string)
    (res : result (Z * string))
| UploadProguardMapping (r : Reader) (packageName editId : string)
    (appVersionCode : Z) (res : option error)
| CreateDraft (packageName editId trackName : string)
    (appVersionCodes : list Z) (res : option error).

Inductive method : Type :=
| MCreateEdit | MValidateEdit | MDeleteEdit | MCommitEdit
| MUploadBundle | MUploadApk | MUploadProguardMapping | MCreateDraft.

Definition method_of (c : call) : method :=
  match c with
  | CreateEdit _ _ => MCreateEdit
  | ValidateEdit _ _ _ => MValidateEdit
  | DeleteEdit _ _ _ => MDeleteEdit
  | CommitEdit _ _ _ => MCommitEdit
  | UploadBundle _ _ _ _ => MUploadBundle
  | UploadApk _ _ _ _ => MUploadApk
  | UploadProguardMapping _ _ _ _ _ => MUploadProguardMapping
  | CreateDraft _ _ _ _ _ => MCreateDraft
  end.

Definition method_eqb (a b : method) : bool :=
  match a, b with
  | MCreateEdit, MCreateEdit | MValidateEdit, MValidateEdit
  | MDeleteEdit, MDeleteEdit | MCommitEdit, MCommitEdit
  | MUploadBundle, MUploadBundle | MUploadApk, MUploadApk
  | MUploadProguardMapping, MUploadProguardMapping
  | MCreateDraft, MCreateDraft => true
  | _, _ => false
  end.

(** How many times method [m] was called in a log. *)
Definition calls (m : method) (log : list call) : nat :=
  List.length (filter (fun c => method_eqb (method_of c) m) log).

Section Traced.

Context {St : Type}.

(** Run [op] on the service state and append the call, built from its
    result, to the log. *)
Definition record {A : Type} (op : St -> A * St) (mk : A -> call)
    (st : St * list call) : A * (St * list call) :=
  let (a, s') := op (fst st) in
  (a, (s', snd st ++ [mk a])).

(** The service [gs], recording every call in order. *)
Definition traced (gs : IGService St) : IGService (St * list call) :=
  mkGService
    (mkEdits
       (fun pkg => record (createEdit gs pkg) (CreateEdit pkg))
       (fun pkg e => record (validateEdit gs pkg e) (ValidateEdit pkg e))
       (fun pkg e => record (deleteEdit gs pkg e) (DeleteEdit pkg e))
       (fun pkg e => record (commitEdit gs pkg e) (CommitEdit pkg e)))
    (mkUploads
       (fun r pkg e => record (uploadBundle gs r pkg e) (UploadBundle r pkg e))
       (fun r pkg e => record (uploadApk gs r pkg e) (UploadApk r pkg e))
       (fun r pkg e v =>
          record (uploadProguardMapping gs r pkg e v)
                 (UploadProguardMapping r pkg e v)))
    (mkDrafts
       (fun pkg e t vs =>
          record (createDraft gs pkg e t vs) (CreateDraft pkg e t vs))).

End Traced.

(* ================================================================= *)
(** ** publish_test.go: the mock service *)

Module Mock.

Record mockGService : Type := mkMock
  { AppVersionCode : Z;
    Sha256 : string;
    Error_ : option error;
    packageName_ : string;
    editId_ : string;
    bytes : list byte;
    uploadBundleCallCount : Z;
    uploadApkCallCount : Z;
    createEditCount : Z;
    commitEditCount : Z;
    validateEditCount : Z;
    deleteEditCount : Z }.

(** [&mockGService{}] *)
Definition zero : mockGService :=
  mkMock 0 "" None "" "" [] 0 0 0 0 0 0.

(** The test process: [Some] of the mock while it runs, [None] once it
    has panicked. *)
Definition state : Type := option mockGService.

(** [r.(io.ReadSeeker)]: a file is one; the [ioprogress.Reader] has no
    [Seek], and the assertion panics ([None]). *)
Definition asReadSeeker (r : Reader) : option ReadSeeker :=
  match r with
  | FileReader f => Some f
  | ProgressReader _ _ => None
  end.

(** [io.ReadAll], then, when no hash was set, the type assertion, [Seek]
    to the start and [fileSha256] (its error dropped). *)
Definition setFuncInputs (r : Reader) (packageName editId : string)
    (gs : mockGService) : option mockGService :=
  let b := readAll r in
  let gs :=
    mkMock (AppVersionCode gs) (Sha256 gs) (Error_ gs) packageName editId b
      (uploadBundleCallCount gs) (uploadApkCallCount gs) (createEditCount gs)
      (commitEditCount gs) (validateEditCount gs) (deleteEditCount gs) in
  if String.eqb (Sha256 gs) "" then
    match asReadSeeker r with
    | None => None
    | Some rdr =>
        let sha :=
          match fileSha256 (mkReadSeeker (file rdr) 0) with
          | (Ok s, _) => s
          | (Err _, _) => ""%string
          end in
        Some (mkMock (AppVersionCode gs) sha (Error_ gs) (packageName_ gs)
                (editId_ gs) (bytes gs) (uploadBundleCallCount gs)
                (uploadApkCallCount gs) (createEditCount gs)
                (commitEditCount gs) (validateEditCount gs)
                (deleteEditCount gs))
    end
  else Some gs.

Definition uploadResult (gs : mockGService) : result (Z * string) :=
  match Error_ gs with
  | Some e => Err e
  | None => Ok (AppVersionCode gs, Sha256 gs)
  end.

Definition panic : error :=
  errorString "panic: interface conversion: *ioprogress.Reader is not io.ReadSeeker: missing method Seek".

(** A method of the mock: [body] while the process runs.  A panic leaves
    [None], and nothing that is called after it runs. *)
Definition method_ {A : Type} (panicked : A)
    (body : mockGService -> A * option mockGService) (st : state)
  : A * state :=
  match st with
  | Some gs => body gs
  | None => (panicked, None)
  end.

Definition service : IGService state :=
  mkGService
    (mkEdits
       (fun _ =>
          method_ (Err panic)
            (fun gs =>
               (Ok "1"%string,
                Some (mkMock (AppVersionCode gs) (Sha256 gs) (Error_ gs)
                        (packageName_ gs) (editId_ gs) (bytes gs)
                        (uploadBundleCallCount gs) (uploadApkCallCount gs)
                        (createEditCount gs + 1) (commitEditCount gs)
                        (validateEditCount gs) (deleteEditCount gs)))))
       (fun _ _ =>
          method_ (Some panic)
            (fun gs =>
               (None,
                Some (mkMock (AppVersionCode gs) (Sha256 gs) (Error_ gs)
                        (packageName_ gs) (editId_ gs) (bytes gs)
                        (uploadBundleCallCount gs) (uploadApkCallCount gs)
                        (createEditCount gs) (commitEditCount gs)
                        (validateEditCount gs + 1) (deleteEditCount gs)))))
       (fun _ _ =>
          method_ (Some panic)
            (fun gs =>
               (None,
                Some (mkMock (AppVersionCode gs) (Sha256 gs) (Error_ gs)
                        (packageName_ gs) (editId_ gs) (bytes gs)
                        (uploadBundleCallCount gs) (uploadApkCallCount gs)
                        (createEditCount gs) (commitEditCount gs)
                        (validateEditCount gs) (deleteEditCount gs + 1)))))
       (fun _ _ =>
          method_ (Some panic)
            (fun gs =>
               (None,
                Some (mkMock (AppVersionCode gs) (Sha256 gs) (Error_ gs)
                        (packageName_ gs) (editId_ gs) (bytes gs)
                        (uploadBundleCallCount gs) (uploadApkCallCount gs)
                        (createEditCount gs) (commitEditCount gs + 1)
                        (validateEditCount gs) (deleteEditCount gs))))))
    (mkUploads
       (fun r pkg e =>
          method_ (Err panic)
            (fun gs =>
               match setFuncInputs r pkg e gs with
               | None => (Err panic, None)
               | Some gs =>
                   let gs :=
                     mkMock (AppVersionCode gs) (Sha256 gs) (Error_ gs)
                       (packageName_ gs) (editId_ gs) (bytes gs)
                       (uploadBundleCallCount gs + 1) (uploadApkCallCount gs)
                       (createEditCount gs) (commitEditCount gs)
                       (validateEditCount gs) (deleteEditCount gs) in
                   (uploadResult gs, Some gs)
               end))
       (fun r pkg e =>
          method_ (Err panic)
            (fun gs =>
               match setFuncInputs r pkg e gs with
               | None => (Err panic, None)
               | Some gs =>
                   let gs :=
                     mkMock (AppVersionCode gs) (Sha256 gs) (Error_ gs)
                       (packageName_ gs) (editId_ gs) (bytes gs)
                       (uploadBundleCallCount gs) (uploadApkCallCount gs + 1)
                       (createEditCount gs) (commitEditCount gs)
                       (validateEditCount gs) (deleteEditCount gs) in
                   (uploadResult gs, Some gs)
               end))
       (fun r pkg e v =>
          method_ (Some panic)
            (fun gs =>
               match setFuncInputs r pkg e gs with
               | None => (Some panic, None)
               | Some gs =>
                   let gs :=
                     mkMock v (Sha256 gs) (Error_ gs)
                       (packageName_ gs) (editId_ gs) (bytes gs)
                       (uploadBundleCallCount gs) (uploadApkCallCount gs)
                       (createEditCount gs) (commitEditCount gs)
                       (validateEditCount gs) (deleteEditCount gs) in
                   (Error_ gs, Some gs)
               end)))
    (mkDrafts (fun _ _ _ _ => method_ (Some panic) (fun gs => (None, Some gs)))).

(** An in-memory file system ([afero.NewMemMapFs]) holding the listed
    files. *)
Fixpoint lookup (name : string) (l : list (string * list byte))
  : option (list byte) :=
  match l with
  | [] => None
  | (n, b) :: rest => if String.eqb n name then Some b else lookup name rest
  end.

Definition notExist : error := errorString "file does not exist".

Definition memFs (l : list (string * list byte)) : Fs :=
  mkFs
    (fun name =>
       match lookup name l with
       | Some b => Ok (mkFileInfo (Z.of_nat (List.length b)))
       | None => Err notExist
       end)
    (fun name =>
       match lookup name l with
       | Some b => Ok (mkFile b None None)
       | None => Err notExist
       end).

End Mock.

(* ================================================================= *)
(** ** A scripted service, for running the code on concrete inputs *)

Module Fake.

(** Which methods fail, and the hash the uploads report ([None]: the
    hash of the bytes received). *)
Record script : Type := mkScript
  { failing : method -> bool;
    reported : option string }.

Definition failure (m : string) : error := errorString (m ++ " failed").

Definition status (sc : script) (m : method) (name : string)
  : option error :=
  if failing sc m then Some (failure name) else None.

Definition uploaded (sc : script) (m : method) (name : string) (r : Reader)
  : result (Z * string) :=
  if failing sc m then Err (failure name)
  else Ok (7,
           match reported sc with
           | Some h => h
           | None => Hex.EncodeToString (Sha256.Sum (readAll r))
           end).

Definition service (sc : script) : IGService unit :=
  mkGService
    (mkEdits
       (fun _ st =>
          (if failing sc MCreateEdit then Err (failure "createEdit")
           else Ok "edit-1"%string, st))
       (fun _ _ st => (status sc MValidateEdit "validateEdit", st))
       (fun _ _ st => (status sc MDeleteEdit "deleteEdit", st))
       (fun _ _ st => (status sc MCommitEdit "commitEdit", st)))
    (mkUploads
       (fun r _ _ st => (uploaded sc MUploadBundle "uploadBundle" r, st))
       (fun r _ _ st => (uploaded sc MUploadApk "uploadApk" r, st))
       (fun _ _ _ _ st =>
          (status sc MUploadProguardMapping "uploadProguardMapping", st)))
    (mkDrafts (fun _ _ _ _ st => (None, st))).

Definition only (m : method) : script :=
  mkScript (method_eqb m) None.

Definition none : script := mkScript (fun _ => false) None.

End Fake.

(* ================================================================= *)
(** ** Predicates used in the statements *)

(** A lowercase hexadecimal digit: 0-9 or a-f. *)
Definition isLowerHex (c : ascii) : bool :=
  let n := nat_of_ascii c in
  (Nat.leb 48 n && Nat.leb n 57) || (Nat.leb 97 n && Nat.leb n 102).

Fixpoint allChars (P : ascii -> bool) (s : string) : bool :=
  match s with
  | EmptyString => true
  | String c s' => P c && allChars P s'
  end.

(** [s] is [canon] up to the case of its ASCII letters: each character is
    the one of [canon], or its capital where that one is a small letter. *)
Fixpoint caseVariant (s canon : string) : bool :=
  match s, canon with
  | EmptyString, EmptyString => true
  | String c s', String d canon' =>
      (Ascii.eqb c d
       || (Nat.leb 97 (nat_of_ascii d) && Nat.leb (nat_of_ascii d) 122
           && Nat.eqb (nat_of_ascii c + 32) (nat_of_ascii d)))
      && caseVariant s' canon'
  | _, _ => false
  end.

Definition isUpper (c : ascii) : bool :=
  Nat.leb 65 (nat_of_ascii c) && Nat.leb (nat_of_ascii c) 90.

(** The tracks that [Publish] lets through. *)
Definition supportedTracks : list string :=
  [TrackInternal; TrackAlpha; TrackBeta].

(* ================================================================= *)
(** ** The calls of a run, as a relation *)

(** The call of the binary upload chosen by the flag. *)
Definition binCall (isApk : bool) (r : Reader) (packageName editId : string)
    (res : result (Z * string)) : call :=
  if isApk then UploadApk r packageName editId res
  else UploadBundle r packageName editId res.

Definition hashError (path : string) (err : error) : error :=
  wrapError ("failed calculating '" ++ path ++ "' sha256 hash: " ++ Error err)
    err.

Definition mismatchError (local remote : string) : error :=
  errorString ("failed integrity verification with local file hash '"
               ++ local ++ "' and remote '" ++ remote ++ "'").

(** How a step of the run ends. *)
Inductive ending : Type :=
| Done (v : Z)
| Failed (err : error)
| Exited (e : error).

Section Runs.

Variable p : publish.
Variable edit : string.

(** [upload] of the binary at [path]: the calls it makes to the service
    and how it ends. *)
Inductive binary_run (path : string) : list call -> ending -> Prop :=
| BR_open err :
    Open (fs p) path = Err err ->
    binary_run path [] (Failed err)
| BR_hash fl e r :
    Open (fs p) path = Ok fl ->
    fileSha256 (openAt0 fl) = (Err e, r) ->
    binary_run path [] (Failed (hashError path e))
| BR_exit fl local r e :
    Open (fs p) path = Ok fl ->
    fileSha256 (openAt0 fl) = (Ok local, r) ->
    Stat (fs p) path = Err e ->
    binary_run path [] (Exited e)
| BR_remote fl local r info err :
    Open (fs p) path = Ok fl ->
    fileSha256 (openAt0 fl) = (Ok local, r) ->
    Stat (fs p) path = Ok info ->
    binary_run path
      [binCall (apk p) (ProgressReader r (Size info)) (packageName p) edit
         (Err err)]
      (Failed err)
| BR_mismatch fl local r info v remote :
    Open (fs p) path = Ok fl ->
    fileSha256 (openAt0 fl) = (Ok local, r) ->
    Stat (fs p) path = Ok info ->
    remote <> local ->
    binary_run path
      [binCall (apk p) (ProgressReader r (Size info)) (packageName p) edit
         (Ok (v, remote))]
      (Failed (mismatchError local remote))
| BR_ok fl local r info v :
    Open (fs p) path = Ok fl ->
    fileSha256 (openAt0 fl) = (Ok local, r) ->
    Stat (fs p) path = Ok info ->
    binary_run path
      [binCall (apk p) (ProgressReader r (Size info)) (packageName p) edit
         (Ok (v, local))]
      (Done v).

(** [uploadMapping] of the file at [path] for version [v]. *)
Inductive mapping_run (path : string) (v : Z)
  : list call -> option error -> Prop :=
| MR_open err :
    Open (fs p) path = Err err ->
    mapping_run path v [] (Some err)
| MR_upload fl res :
    Open (fs p) path = Ok fl ->
    mapping_run path v
      [UploadProguardMapping (FileReader (openAt0 fl)) (packageName p) edit
         v res]
      res.

(** How the loop over the files ends. *)
Inductive loop_end : Type :=
| Completed
| Aborted (err : error)
| Killed (e : error).

(** The loop of [UploadFiles] over a list of files: the calls it makes
    and how it ends.  A failure is followed by one [deleteEdit], whose
    result [res] is not looked at. *)
Inductive loop_run : list binary -> list call -> loop_end -> Prop :=
| LR_nil : loop_run [] [] Completed
| LR_binary_failed f rest cs err res :
    binary_run (filePath f) cs (Failed err) ->
    loop_run (f :: rest)
      (cs ++ [DeleteEdit (packageName p) edit res]) (Aborted err)
| LR_binary_exit f rest cs e :
    binary_run (filePath f) cs (Exited e) ->
    loop_run (f :: rest) cs (Killed e)
| LR_no_mapping f rest cs v cs' fin :
    binary_run (filePath f) cs (Done v) ->
    mappingPath f = ""%string ->
    loop_run rest cs' fin ->
    loop_run (f :: rest) (cs ++ cs') fin
| LR_mapping_failed f rest cs v ms err res :
    binary_run (filePath f) cs (Done v) ->
    mappingPath f <> ""%string ->
    mapping_run (mappingPath f) v ms (Some err) ->
    loop_run (f :: rest)
      (cs ++ ms ++ [DeleteEdit (packageName p) edit res]) (Aborted err)
| LR_mapping f rest cs v ms cs' fin :
    binary_run (filePath f) cs (Done v) ->
    mappingPath f <> ""%string ->
    mapping_run (mappingPath f) v ms None ->
    loop_run rest cs' fin ->
    loop_run (f :: rest) (cs ++ ms ++ cs') fin.

End Runs.

Definition ending_of (out : outcome (result Z)) : ending :=
  match out with
  | Return (Ok v) => Done v
  | Return (Err err) => Failed err
  | Exit e => Exited e
  end.

Definition loop_end_of (out : outcome (result (list Z))) : loop_end :=
  match out with
  | Return (Ok _) => Completed
  | Return (Err err) => Aborted err
  | Exit e => Killed e
  end.

Section FilesRun.

Variable p : publish.

(** A run of [UploadFiles] on a service, by what [createEdit] returned:
    the calls it makes and what it leaves behind. *)
Inductive files_run
  : result string -> list call -> outcome (option error) -> Prop :=
| FR_create_failed err :
    files_run (Err err) [CreateEdit (packageName p) (Err err)]
      (Return (Some err))
| FR_aborted edit cs err :
    loop_run p edit (files p) cs (Aborted err) ->
    files_run (Ok edit) (CreateEdit (packageName p) (Ok edit) :: cs)
      (Return (Some err))
| FR_killed edit cs e :
    loop_run p edit (files p) cs (Killed e) ->
    files_run (Ok edit) (CreateEdit (packageName p) (Ok edit) :: cs) (Exit e)
| FR_validate_failed edit cs err res :
    loop_run p edit (files p) cs Completed ->
    files_run (Ok edit)
      (CreateEdit (packageName p) (Ok edit)
         :: cs ++ [ValidateEdit (packageName p) edit (Some err);
                   DeleteEdit (packageName p) edit res])
      (Return (Some err))
| FR_commit_failed edit cs err res :
    loop_run p edit (files p) cs Completed ->
    files_run (Ok edit)
      (CreateEdit (packageName p) (Ok edit)
         :: cs ++ [ValidateEdit (packageName p) edit None;
                   CommitEdit (packageName p) edit (Some err);
                   DeleteEdit (packageName p) edit res])
      (Return (Some err))
| FR_committed edit cs :
    loop_run p edit (files p) cs Completed ->
    files_run (Ok edit)
      (CreateEdit (packageName p) (Ok edit)
         :: cs ++ [ValidateEdit (packageName p) edit None;
                   CommitEdit (packageName p) edit None])
      (Return None).

End FilesRun.

(* ================================================================= *)
(** ** The steps of a run, on the operations of the service *)

Section Steps.

Context {St : Type}.
Variable gs : IGService St.
Variable p : publish.
Variable edit : string.

(** The binary at [path] can be sent: it opens, hashing it gives [local]
    and leaves its reader at the start, and its size is known; [rd] is
    the reader that the service is given. *)
Definition binary_ready (path local : string) (rd : Reader) : Prop :=
  exists fl r info,
    Open (fs p) path = Ok fl
    /\ fileSha256 (openAt0 fl) = (Ok local, r)
    /\ Stat (fs p) path = Ok info
    /\ rd = ProgressReader r (Size info).

(** The operation of the service that takes a binary, by the flag of the
    request. *)
Definition binUpload
  : Reader -> string -> string -> St -> result (Z * string) * St :=
  if apk p then uploadApk gs else uploadBundle gs.

(** Every step for the binary at [path] succeeds from the state [s]: the
    file can be sent, and the service takes it, returns the version code
    [v] and reports the hash of the file, leaving the state [s']. *)
Definition binary_succeeds (path : string) (s : St) (v : Z) (s' : St)
  : Prop :=
  exists local rd,
    binary_ready path local rd
    /\ binUpload rd (packageName p) edit s = (Ok (v, local), s').

(** Every step for the mapping of [f] succeeds: there is none, or it opens
    and the service takes it for the version code [v]. *)
Definition mapping_succeeds (f : binary) (v : Z) (s s' : St) : Prop :=
  (mappingPath f = ""%string /\ s' = s)
  \/ (mappingPath f <> ""%string
      /\ exists fl,
           Open (fs p) (mappingPath f) = Ok fl
           /\ uploadProguardMapping gs (FileReader (openAt0 fl))
                (packageName p) edit v s = (None, s')).

(** Every step for the entries of a list succeeds, one entry after the
    other, from the state [s] to the state [s']; [vs] are the version
    codes the service returned for the binaries. *)
Inductive entries_succeed : list binary -> St -> list Z -> St -> Prop :=
| ES_nil s : entries_succeed [] s [] s
| ES_cons f rest s v s1 s2 vs s' :
    binary_succeeds (filePath f) s v s1 ->
    mapping_succeeds f v s1 s2 ->
    entries_succeed rest s2 vs s' ->
    entries_succeed (f :: rest) s (v :: vs) s'.

(** A step for the entry [f] fails with [err] from the state [s]: opening
    the binary, hashing it, its upload, the comparison of the hashes,
    opening the mapping, or the upload of the mapping. *)
Inductive entry_fails (f : binary) (s : St) : error -> Prop :=
| EF_open err :
    Open (fs p) (filePath f) = Err err ->
    entry_fails f s err
| EF_hash fl e r :
    Open (fs p) (filePath f) = Ok fl ->
    fileSha256 (openAt0 fl) = (Err e, r) ->
    entry_fails f s (hashError (filePath f) e)
| EF_upload local rd err s' :
    binary_ready (filePath f) local rd ->
    binUpload rd (packageName p) edit s = (Err err, s') ->
    entry_fails f s err
| EF_mismatch local rd v remote s' :
    binary_ready (filePath f) local rd ->
    binUpload rd (packageName p) edit s = (Ok (v, remote), s') ->
    remote <> local ->
    entry_fails f s (mismatchError local remote)
| EF_mapping_open v s1 err :
    binary_succeeds (filePath f) s v s1 ->
    mappingPath f <> ""%string ->
    Open (fs p) (mappingPath f) = Err err ->
    entry_fails f s err
| EF_mapping_upload v s1 fl err s' :
    binary_succeeds (filePath f) s v s1 ->
    mappingPath f <> ""%string ->
    Open (fs p) (mappingPath f) = Ok fl ->
    uploadProguardMapping gs (FileReader (openAt0 fl)) (packageName p) edit
      v s1 = (Some err, s') ->
    entry_fails f s err.

(** A step after [createEdit], which left the state [s1], fails with
    [err]: a step for an entry, after the entries before it went through;
    [validateEdit], after all entries went through; or [commitEdit],
    after [validateEdit] succeeded. *)
Inductive later_step_fails (s1 : St) : error -> Prop :=
| LF_entry done f rest vs s2 err :
    files p = done ++ f :: rest ->
    entries_succeed done s1 vs s2 ->
    entry_fails f s2 err ->
    later_step_fails s1 err
| LF_validate vs s2 err s3 :
    entries_succeed (files p) s1 vs s2 ->
    validateEdit gs (packageName p) edit s2 = (Some err, s3) ->
    later_step_fails s1 err
| LF_commit vs s2 s3 err s4 :
    entries_succeed (files p) s1 vs s2 ->
    validateEdit gs (packageName p) edit s2 = (None, s3) ->
    commitEdit gs (packageName p) edit s3 = (Some err, s4) ->
    later_step_fails s1 err.

End Steps.

(** Every step of a run on [gs] from the state [s] succeeds:
    [createEdit], every step for every entry, [validateEdit] and
    [commitEdit]. *)
Definition every_step_succeeds {St : Type} (gs : IGService St) (p : publish)
    (s : St) : Prop :=
  exists edit s1 vs s2 s3 s4,
    createEdit gs (packageName p) s = (Ok edit, s1)
    /\ entries_succeed gs p edit (files p) s1 vs s2
    /\ validateEdit gs (packageName p) edit s2 = (None, s3)
    /\ commitEdit gs (packageName p) edit s3 = (None, s4).

(** The service [gs] with another [deleteEdit]. *)
Definition withDeleteEdit {St : Type} (gs : IGService St)
    (del : string -> string -> St -> option error * St) : IGService St :=
  mkGService
    (mkEdits (createEdit gs) (validateEdit gs) del (commitEdit gs))
    (uploads gs) (drafts gs).

(** The error a call returned, if it failed. *)
Definition failed_call (c : call) : option error :=
  match c with
  | CreateEdit _ (Err e) => Some e
  | CreateEdit _ (Ok _) => None
  | ValidateEdit _ _ res => res
  | DeleteEdit _ _ res => res
  | CommitEdit _ _ res => res
  | UploadBundle _ _ _ (Err e) => Some e
  | UploadBundle _ _ _ (Ok _) => None
  | UploadApk _ _ _ (Err e) => Some e
  | UploadApk _ _ _ (Ok _) => None
  | UploadProguardMapping _ _ _ _ res => res
  | CreateDraft _ _ _ _ res => res
  end.

(** [err] is the failure of the step that stopped the run, where [pre] are
    the calls made after [createEdit] and before the clean-up: the error
    of the last call (binary upload, mapping upload, [validateEdit] or
    [commitEdit]), the error of opening a listed file, the error of
    hashing a listed binary, or the mismatch of the hash of a listed
    binary with the hash that the last call, its upload, reported. *)
Inductive original_failure (p : publish) (pre : list call) (err : error)
  : Prop :=
| OF_call before c :
    pre = before ++ [c] ->
    method_of c <> MDeleteEdit ->
    method_of c <> MCreateEdit ->
    failed_call c = Some err ->
    original_failure p pre err
| OF_open f path :
    In f (files p) ->
    path = filePath f \/ (path = mappingPath f /\ path <> ""%string) ->
    Open (fs p) path = Err err ->
    original_failure p pre err
| OF_hash f fl e r :
    In f (files p) ->
    Open (fs p) (filePath f) = Ok fl ->
    fileSha256 (openAt0 fl) = (Err e, r) ->
    err = hashError (filePath f) e ->
    original_failure p pre err
| OF_mismatch before f fl local r rd edit v remote :
    In f (files p) ->
    Open (fs p) (filePath f) = Ok fl ->
    fileSha256 (openAt0 fl) = (Ok local, r) ->
    pre = before ++ [binCall (apk p) rd (packageName p) edit (Ok (v, remote))] ->
    remote <> local ->
    err = mismatchError local remote ->
    original_failure p pre err.

Definition editMethod (m : method) : bool :=
  match m with
  | MCreateEdit | MValidateEdit | MDeleteEdit | MCommitEdit => true
  | _ => false
  end.

(** The upload calls of a log: a binary upload ([uploadApk] or
    [uploadBundle]) with the version code it returned, if it returned one,
    or a mapping upload with the version code it was given. *)
Inductive upcall : Type :=
| BinaryUpload (isApk : bool) (returned : option Z)
| MappingUpload (appVersionCode : Z).

Definition upcall_of (c : call) : list upcall :=
  match c with
  | UploadBundle _ _ _ (Ok (v, _)) => [BinaryUpload false (Some v)]
  | UploadBundle _ _ _ (Err _) => [BinaryUpload false None]
  | UploadApk _ _ _ (Ok (v, _)) => [BinaryUpload true (Some v)]
  | UploadApk _ _ _ (Err _) => [BinaryUpload true None]
  | UploadProguardMapping _ _ _ v _ => [MappingUpload v]
  | _ => []
  end.

Definition uploadCalls (log : list call) : list upcall :=
  flat_map upcall_of log.

(** The upload calls for an entry whose binary upload returned [v]: that
    one binary upload, followed by one mapping upload with [v] when the
    entry has a mapping path. *)
Definition entryCalls (isApk : bool) (f : binary) (v : Z) : list upcall :=
  BinaryUpload isApk (Some v)
    :: (if String.eqb (mappingPath f) "" then [] else [MappingUpload v]).

Fixpoint processedCalls (isApk : bool) (fl : list binary) (vs : list Z)
  : list upcall :=
  match fl, vs with
  | f :: fl', v :: vs' => entryCalls isApk f v ++ processedCalls isApk fl' vs'
  | _, _ => []
  end.

(** The upload calls made for the entry at which a run stopped: none, the
    binary upload alone, or the binary upload and the mapping upload with
    its version code. *)
Definition stoppedCalls (isApk : bool) (rest : list binary)
    (tail : list upcall) : Prop :=
  tail = []
  \/ exists f rest',
       rest = f :: rest'
       /\ ((exists r, tail = [BinaryUpload isApk r])
           \/ (exists v, mappingPath f <> ""%string
                         /\ tail = [BinaryUpload isApk (Some v);
                                    MappingUpload v])).

(** The message of [e] contains [s]. *)
Definition names (e : error) (s : string) : bool :=
  strings.Contains (Error e) s.

(** The binary of [f], and its mapping when it has one, are on the file
    system. *)
Definition present (fsys : Fs) (f : binary) : Prop :=
  (exists info, Stat fsys (filePath f) = Ok info)
  /\ (mappingPath f = ""%string
      \/ exists info, Stat fsys (mappingPath f) = Ok info).

(** The statement of the spec on unsupported tracks, at one request: a
    track other than the three supported ones makes [Publish] fail with an
    error that names the track and the three supported tracks. *)
Definition unsupported_track_named (fsys : Fs)
    (packageName track authFile : string) (files : list binary)
    (apk verbose : bool) : Prop :=
  ~ In track supportedTracks ->
  exists e,
    Publish fsys packageName track authFile files apk verbose = Err e
    /\ names e track = true
    /\ names e TrackInternal = true
    /\ names e TrackAlpha = true
    /\ names e TrackBeta = true.

(** The statement of the spec on missing files, at one request: each path
    of the list that is not on the file system makes [Publish] fail with
    an error that names it. *)
Definition missing_path_named (fsys : Fs)
    (packageName track authFile : string) (files : list binary)
    (apk verbose : bool) : Prop :=
  forall f path,
    In f files ->
    path = filePath f \/ (path = mappingPath f /\ path <> ""%string) ->
    (forall info, Stat fsys path <> Ok info) ->
    exists e,
      Publish fsys packageName track authFile files apk verbose = Err e
      /\ names e path = true.

(** The list starts with a space rune, by the tests [p1], [p2], [p3] on
    its first one, two or three bytes. *)
Definition startsWithSpace (p1 : ascii -> bool) (p2 : ascii -> ascii -> bool)
    (p3 : ascii -> ascii -> ascii -> bool) (s : list ascii) : bool :=
  match s with
  | [] => false
  | c1 :: s1 =>
      p1 c1
      || match s1 with
         | [] => false
         | c2 :: s2 =>
             p2 c1 c2
             || match s2 with
                | [] => false
                | c3 :: _ => p3 c1 c2 c3
                end
         end
  end.

(** The white space of Go, each rune as its bytes: tab, line feed,
    vertical tab, form feed, carriage return, space, and the runes of
    [strings.unicodeSpaces]. *)
Definition spaceRunes : list string :=
  map (fun n => String (ascii_of_N n) EmptyString) [9; 10; 11; 12; 13; 32]%N
  ++ strings.unicodeSpaces.

(** The strings of [l] one after the other. *)
Definition joined (l : list string) : string :=
  fold_right append EmptyString l.

(** Every byte is below 128. *)
Definition isAscii (s : string) : bool :=
  allChars (fun c => Nat.ltb (nat_of_ascii c) 128) s.

(** The package name and the edit id a call was made with. *)
Definition call_package (c : call) : string :=
  match c with
  | CreateEdit pkg _ => pkg
  | ValidateEdit pkg _ _ => pkg
  | DeleteEdit pkg _ _ => pkg
  | CommitEdit pkg _ _ => pkg
  | UploadBundle _ pkg _ _ => pkg
  | UploadApk _ pkg _ _ => pkg
  | UploadProguardMapping _ pkg _ _ _ => pkg
  | CreateDraft pkg _ _ _ _ => pkg
  end.

Definition call_edit (c : call) : option string :=
  match c with
  | CreateEdit _ _ => None
  | ValidateEdit _ e _ => Some e
  | DeleteEdit _ e _ => Some e
  | CommitEdit _ e _ => Some e
  | UploadBundle _ _ e _ => Some e
  | UploadApk _ _ e _ => Some e
  | UploadProguardMapping _ _ e _ _ => Some e
  | CreateDraft _ e _ _ _ => Some e
  end.

Definition isUploadCall (c : call) : bool :=
  match method_of c with
  | MUploadBundle | MUploadApk | MUploadProguardMapping => true
  | _ => false
  end.

(** An upload call hands over a listed file from its first byte: a binary
    upload the binary of an entry, under the progress reader sized by
    [Stat]; a mapping upload the mapping of an entry that has one. *)
Definition delivers (p : publish) (c : call) : Prop :=
  match c with
  | UploadBundle r _ _ _ | UploadApk r _ _ _ =>
      exists f fl info,
        In f (files p)
        /\ Open (fs p) (filePath f) = Ok fl
        /\ Stat (fs p) (filePath f) = Ok info
        /\ r = ProgressReader (openAt0 fl) (Size info)
  | UploadProguardMapping r _ _ _ _ =>
      exists f fl,
        In f (files p)
        /\ mappingPath f <> ""%string
        /\ Open (fs p) (mappingPath f) = Ok fl
        /\ r = FileReader (openAt0 fl)
  | _ => True
  end.



Definition hasMapping (f : binary) : bool :=
  negb (String.eqb (mappingPath f) "").

(** The method of the binary upload chosen by the flag. *)
Definition binMethod (isApk : bool) : method :=
  if isApk then MUploadApk else MUploadBundle.

(* ================================================================= *)
(** ** publish.go: [Binaries]; cmd/pstore.go: [upload] and [RunE] *)

(** A Go [map[string]string]: its entries, with distinct keys.  The order
    of the list has no meaning; the order in which [range] visits the
    entries is the parameter [rangeOrder] below. *)
Definition gomap : Type := list (string * string).

Definition keys (m : gomap) : list string := map fst m.

(** [v, ok := m[k]] *)
Fixpoint mapGet (m : gomap) (k : string) : option string :=
  match m with
  | [] => None
  | (k', v') :: m' => if String.eqb k' k then Some v' else mapGet m' k
  end.

(** [m[k] = v] *)
Fixpoint mapSet (m : gomap) (k v : string) : gomap :=
  match m with
  | [] => [(k, v)]
  | (k', v') :: m' =>
      if String.eqb k' k then (k, v) :: m' else (k', v') :: mapSet m' k v
  end.

Section Range.

(** The order in which [for k, v := range m] visits the entries of [m];
    Go leaves it unspecified. *)
Variable rangeOrder : gomap -> gomap.

Definition Binaries (bins : gomap) : list binary :=
  fold_left (fun b kv => b ++ [BinaryWithMapping (fst kv) (snd kv)])
    (rangeOrder bins) [].

End Range.

Module Cmd.

(** The variables that the flags are bound to. *)
Record flags : Type := mkFlags
  { SecretFile : string;
    AppID : string;
    AppBinOnly : list string;
    AppBin : gomap;
    Track : string;
    IsApk : bool;
    Verbose : bool }.

(** The first lines of [upload]: each path of [--appBinOnly] that is not
    a key of [AppBin] is entered with the empty mapping. *)
Definition withBinOnly (only : list string) (bins : gomap) : gomap :=
  match only with
  | [] => bins
  | _ =>
      fold_left
        (fun m v =>
           match mapGet m v with
           | Some _ => m
           | None => mapSet m v ""
           end)
        only bins
  end.

Section Upload.

Context {St : Type}.
Variable rangeOrder : gomap -> gomap.
(** [afero.NewOsFs()] *)
Variable osFs : Fs.
(** [playstore.NewGEditsService], which builds the client of the remote
    service from the credentials file. *)
Variable NewGEditsService : string -> St -> result (IGService St) * St.

(** [upload]: the source updates the variable [AppBin] in place; here
    the updated map is [appBin].  The track passed on is always
    [TrackInternal]. *)
Definition upload (fl : flags) (st : St) : outcome (option error) * St :=
  let appBin := withBinOnly (AppBinOnly fl) (AppBin fl) in
  let files := Binaries rangeOrder appBin in
  match Publish osFs (AppID fl) TrackInternal (SecretFile fl) files
          (IsApk fl) (Verbose fl) with
  | Err err =>
      (Return (Some (wrapError ("failed validating inputs: " ++ Error err)
                       err)), st)
  | Ok p =>
      match NewGEditsService (SecretFile fl) st with
      | (Err err, st) =>
          (Return (Some (errorString
                           ("failed creating new playstore service instance: "
                            ++ Error err))), st)
      | (Ok gs, st) =>
          match UploadFiles p (Some gs) st with
          | (Exit e, st) => (Exit e, st)
          | (Return (Some err), st) =>
              (Return (Some (errorString
                               ("failed uploading files: " ++ Error err))), st)
          | (Return None, st) => (Return None, st)
          end
      end
  end.

(** The [RunE] of the command. *)
Definition RunE (fl : flags) (st : St) : outcome (option error) * St :=
  match AppBinOnly fl, AppBin fl with
  | [], [] =>
      (Return (Some (errorString
                       "at leat one binary file to upload is required")), st)
  | _, _ => upload fl st
  end.

End Upload.

End Cmd.

(* ================================================================= *)
(** * Properties *)

(** ** The models of the library functions on known values *)

(** The first and the last round constant and the initial hash value, as
    the standard prints them. *)
Example sha256_constants :
  hd 0 Sha256.K = 0x428a2f98 /\ last Sha256.K 0 = 0xc67178f2
  /\ List.length Sha256.K = 64%nat
  /\ Sha256.init = [ 0x6a09e667; 0xbb67ae85; 0x3c6ef372; 0xa54ff53a;
                     0x510e527f; 0x9b05688c; 0x1f83d9ab; 0x5be0cd19 ].
Proof. vm_compute. repeat split. Qed.

Example sha256_abc :
  Hex.EncodeToString (Sha256.Sum (list_byte_of_string "abc"))
  = "ba7816bf8f01cfea414140de5dae2223b00361a396177a9cb410ff61f20015ad"%string.
Proof. vm_compute. reflexivity. Qed.

Example sha256_empty :
  Hex.EncodeToString (Sha256.Sum [])
  = "e3b0c44298fc1c149afbf4c8996fb92427ae41e4649b934ca495991b7852b855"%string.
Proof. vm_compute. reflexivity. Qed.

(** A message of 56 bytes: the padding spills into a second block. *)
Example sha256_two_blocks :
  Hex.EncodeToString (Sha256.Sum (list_byte_of_string
    "abcdbcdecdefdefgefghfghighijhijkijkljklmklmnlmnomnopnopq"))
  = "248d6a61d20638b8e5c026930c3e6039a33ce45964ff2167f6ecedd419db06c1"%string.
Proof. vm_compute. reflexivity. Qed.

(** The run of the test "Should call create and commit Edit" on a file of
    three bytes, with a mock that is set to report the hash of the file. *)
Example mock_run_counts :
  let fs := Mock.memFs [("auth.json", []); ("test.apk", [x01; x02; x03])]%string in
  let mock :=
    Mock.mkMock 0 (Hex.EncodeToString (Sha256.Sum [x01; x02; x03])) None ""
      "" [] 0 0 0 0 0 0 in
  match Publish fs "com.test.app" TrackInternal "auth.json"
          [Binary "test.apk"] true false with
  | Err _ => False
  | Ok p =>
      match UploadFiles p (Some Mock.service) (Some mock) with
      | (Return None, Some gs) =>
          Mock.createEditCount gs = 1 /\ Mock.commitEditCount gs = 1 /\
          Mock.validateEditCount gs = 1 /\ Mock.deleteEditCount gs = 0 /\
          Mock.uploadApkCallCount gs = 1 /\ Mock.bytes gs = [x01; x02; x03]
      | _ => False
      end
  end.
Proof. vm_compute. repeat split. Qed.

(** With no hash set, the mock asserts that the reader it is given can
    seek; the reader of a binary, which reports progress, cannot, and the
    process panics inside the upload. *)
Example mock_panics_without_hash :
  let p := mkPublish "com.test.app" "internal" "auth.json"
             [Binary "test.apk"] true false
             (Mock.memFs [("auth.json", []); ("test.apk", [x01; x02; x03])]%string) in
  snd (upload p Mock.service "test.apk" "1" true (Some Mock.zero)) = None.
Proof. vm_compute. reflexivity. Qed.

(* ================================================================= *)
(** ** The content hash *)

Lemma blocks_length (n : nat) (h bs : list Z) :
  List.length h = 8%nat -> List.length (Sha256.blocks n h bs) = 8%nat.
Proof.
  revert h bs. induction n as [|n IH]; intros h bs Hh; simpl.
  - exact Hh.
  - apply IH. reflexivity.
Qed.

Lemma be_bytes_length (n : nat) (x : Z) :
  List.length (Sha256.be_bytes n x) = n.
Proof.
  unfold Sha256.be_bytes.
  now rewrite length_map, length_rev, length_seq.
Qed.

Lemma flat_map_be_bytes_length (ws : list Z) :
  List.length (flat_map (Sha256.be_bytes 4) ws) = (4 * List.length ws)%nat.
Proof.
  induction ws as [|w ws IH]; [reflexivity|].
  cbn [flat_map List.length]. rewrite length_app, be_bytes_length, IH. lia.
Qed.

(** A SHA-256 digest has 32 bytes. *)
Lemma Sum_length (msg : list byte) : List.length (Sha256.Sum msg) = 32%nat.
Proof.
  unfold Sha256.Sum, Sha256.digest_words.
  rewrite length_map, flat_map_be_bytes_length, blocks_length; reflexivity.
Qed.

Lemma EncodeToString_length (src : list byte) :
  String.length (Hex.EncodeToString src) = (2 * List.length src)%nat.
Proof.
  induction src as [|b src IH]; simpl; [reflexivity|]. rewrite IH. lia.
Qed.

Lemma digit_byte_hex (b : byte) :
  isLowerHex (Hex.digit (N.shiftr (Byte.to_N b) 4)) = true
  /\ isLowerHex (Hex.digit (N.land (Byte.to_N b) 15)) = true.
Proof. destruct b; split; vm_compute; reflexivity. Qed.

Lemma EncodeToString_lower_hex (src : list byte) :
  allChars isLowerHex (Hex.EncodeToString src) = true.
Proof.
  induction src as [|b src IH]; [reflexivity|].
  destruct (digit_byte_hex b) as [Hhi Hlo].
  cbn [Hex.EncodeToString allChars]. now rewrite Hhi, Hlo, IH.
Qed.

(** C8: [fileSha256] of a reader at the start of [data] that does not
    fail returns the hexadecimal encoding of the SHA-256 digest of all of
    [data], which is 64 characters, each 0-9 or a-f, and leaves the reader
    at the start; on the bytes of "testinputdata" the result is
    b5a7e3884f760b197b8e9df98bab2d35333943bc7439e0bba00ed87213a44f43. *)
Theorem fileSha256_lowercase_hex_sha256 :
  (forall data : list byte,
      let r := openAt0 (mkFile data None None) in
      let h := Hex.EncodeToString (Sha256.Sum data) in
      fileSha256 r = (Ok h, r)
      /\ String.length h = 64%nat
      /\ allChars isLowerHex h = true)
  /\ fst (fileSha256 (NewReader "testinputdata"))
     = Ok "b5a7e3884f760b197b8e9df98bab2d35333943bc7439e0bba00ed87213a44f43"%string.
Proof.
  split.
  - intros data r h. split; [|split].
    + unfold fileSha256, r, h, openAt0, remaining. simpl. reflexivity.
    + unfold h. now rewrite EncodeToString_length, Sum_length.
    + apply EncodeToString_lower_hex.
  - vm_compute. reflexivity.
Qed.

(* ================================================================= *)
(** ** Validation: the authentication file *)

(** C9: when the authentication file does not exist on the file system
    ([Stat] fails), [Publish] fails with the error that names the path of
    the authentication file, whatever the package name, the track and the
    files are; so a request that [Publish] accepts has its authentication
    file on the file system. *)
Theorem Publish_auth_file_checked_first
    (fsys : Fs) (packageName track authFile : string) (files : list binary)
    (apk verbose : bool) :
  (forall e, Stat fsys authFile = Err e ->
     Publish fsys packageName track authFile files apk verbose
     = Err (errorString
              ("authentication file '" ++ authFile ++ "' does not exist")))
  /\ (forall p,
        Publish fsys packageName track authFile files apk verbose = Ok p ->
        exists info, Stat fsys authFile = Ok info).
Proof.
  split.
  - intros e He. unfold Publish, fileExits. cbn [fs].
    rewrite He. reflexivity.
  - intros p Hp. unfold Publish, fileExits in Hp. cbn [fs] in Hp.
    destruct (Stat fsys authFile) as [info|e]; [now exists info|discriminate].
Qed.

(** The authentication file is missing, and so are a sound package name, a
    supported track and the binary. *)
Lemma Publish_auth_file_checked_first_witness :
  Publish (Mock.memFs []) " " "production" "auth.json" [Binary "bin.aab"]
    false false
  = Err (errorString "authentication file 'auth.json' does not exist").
Proof.
  apply (proj1 (Publish_auth_file_checked_first (Mock.memFs []) " "
                  "production" "auth.json" [Binary "bin.aab"] false false)
           Mock.notExist).
  reflexivity.
Defined.

(* ================================================================= *)
(** ** The calls of a recorded run *)

Section TracedRuns.

Context {St : Type}.
Variable gs : IGService St.

Lemma record_eq {A : Type} (op : St -> A * St) (mk : A -> call)
    (s : St) (log : list call) :
  record op mk (s, log) = (fst (op s), (snd (op s), log ++ [mk (fst (op s))])).
Proof. unfold record. cbn [fst snd]. now destruct (op s). Qed.

End TracedRuns.

(** C6: when [createEdit] fails, [UploadFiles] returns that error and the
    only call made to the service is that [createEdit]: no [deleteEdit],
    no upload, no [validateEdit], no [commitEdit]. *)
Theorem UploadFiles_createEdit_fails_no_cleanup
    {St : Type} (gs : IGService St) (p : publish) (s s1 : St) (err : error) :
  createEdit gs (packageName p) s = (Err err, s1) ->
  exists log,
    UploadFiles p (Some (traced gs)) (s, []) = (Return (Some err), (s1, log))
    /\ log = [CreateEdit (packageName p) (Err err)]
    /\ calls MDeleteEdit log = 0%nat
    /\ calls MUploadBundle log = 0%nat
    /\ calls MUploadApk log = 0%nat
    /\ calls MUploadProguardMapping log = 0%nat
    /\ calls MValidateEdit log = 0%nat
    /\ calls MCommitEdit log = 0%nat.
Proof.
  intros Hc. eexists. split.
  - unfold UploadFiles. cbn [traced createEdit edits].
    rewrite record_eq, Hc. cbn [fst snd app]. reflexivity.
  - repeat split; reflexivity.
Qed.

Lemma UploadFiles_createEdit_fails_no_cleanup_witness :
  exists log,
    UploadFiles (mkPublish "com.test.app" "internal" "auth.json"
                   [Binary "test.aab"] false false (Mock.memFs []))
      (Some (traced (Fake.service (Fake.only MCreateEdit)))) (tt, [])
    = (Return (Some (Fake.failure "createEdit")), (tt, log))
    /\ log = [CreateEdit "com.test.app" (Err (Fake.failure "createEdit"))]
    /\ calls MDeleteEdit log = 0%nat
    /\ calls MUploadBundle log = 0%nat
    /\ calls MUploadApk log = 0%nat
    /\ calls MUploadProguardMapping log = 0%nat
    /\ calls MValidateEdit log = 0%nat
    /\ calls MCommitEdit log = 0%nat.
Proof.
  apply (UploadFiles_createEdit_fails_no_cleanup
           (Fake.service (Fake.only MCreateEdit))
           (mkPublish "com.test.app" "internal" "auth.json"
              [Binary "test.aab"] false false (Mock.memFs []))
           tt tt (Fake.failure "createEdit")).
  reflexivity.
Defined.

(* ================================================================= *)
(** ** Upload of one binary *)

(** C3: for a binary that opens and can be read and rewound, the reader
    handed to the upload delivers all the bytes of the file (it stands at
    the start again after hashing), the upload is [uploadApk] or
    [uploadBundle] by the flag, and with [local] the hexadecimal SHA-256 of
    the content: a remote hash equal to [local] as a string gives the
    version code of the upload; any other remote hash gives the error
    that carries [local] and the remote hash. *)
Theorem upload_hash_compared_with_remote
    {St : Type} (p : publish) (us : IUploadService St)
    (path editId : string) (isApk : bool) (st : St)
    (fl : File) (info : FileInfo) :
  Open (fs p) path = Ok fl ->
  readErr fl = None ->
  seekErr fl = None ->
  Stat (fs p) path = Ok info ->
  let local := Hex.EncodeToString (Sha256.Sum (content fl)) in
  let r := ProgressReader (openAt0 fl) (Size info) in
  let uplF := if isApk then uploadApk us else uploadBundle us in
  readAll r = content fl
  /\ (forall v remote st1,
        uplF r (packageName p) editId st = (Ok (v, remote), st1) ->
        (remote = local ->
         upload p us path editId isApk st = (Return (Ok v), st1))
        /\ (remote <> local ->
            upload p us path editId isApk st
            = (Return (Err (errorString
                 ("failed integrity verification with local file hash '"
                  ++ local ++ "' and remote '" ++ remote ++ "'"))), st1)))
  /\ (forall e st1,
        uplF r (packageName p) editId st = (Err e, st1) ->
        upload p us path editId isApk st = (Return (Err e), st1)).
Proof.
  intros Ho Hr Hs Hst local r uplF.
  assert (Hsha : fileSha256 (openAt0 fl) = (Ok local, openAt0 fl)).
  { unfold fileSha256, openAt0, remaining. cbn [file offset skipn].
    now rewrite Hr, Hs. }
  split; [reflexivity|]. split.
  - intros v remote st1 Hu.
    assert (Hup : upload p us path editId isApk st
                  = if negb (String.eqb remote local)
                    then (Return (Err (errorString
                           ("failed integrity verification with local file hash '"
                            ++ local ++ "' and remote '" ++ remote ++ "'"))), st1)
                    else (Return (Ok v), st1)).
    { unfold upload, fileSize. rewrite Ho, Hsha, Hst.
      fold r. fold uplF. rewrite Hu. reflexivity. }
    split; intros Hcmp; rewrite Hup.
    + apply String.eqb_eq in Hcmp. now rewrite Hcmp.
    + apply String.eqb_neq in Hcmp. now rewrite Hcmp.
  - intros e st1 Hu. unfold upload, fileSize. rewrite Ho, Hsha, Hst.
    fold r. fold uplF. rewrite Hu. reflexivity.
Qed.

Lemma upload_hash_compared_with_remote_witness :
  let p := mkPublish "com.test.app" "internal" "auth.json"
             [Binary "test.apk"] true false
             (Mock.memFs [("test.apk", [x01; x02; x03])]%string) in
  upload p (Fake.service Fake.none) "test.apk" "edit-1" true tt
  = (Return (Ok 7), tt).
Proof.
  intros p.
  refine (proj1 (proj1 (proj2
    (upload_hash_compared_with_remote p (Fake.service Fake.none)
       "test.apk" "edit-1" true tt (mkFile [x01; x02; x03] None None)
       (mkFileInfo 3) _ _ _ _)) 7 _ tt _) _); reflexivity.
Defined.

(* ================================================================= *)
(** ** Validation: normalisation of the track and the package name *)

Lemma ToLower_app (a b : string) :
  strings.ToLower (a ++ b) = (strings.ToLower a ++ strings.ToLower b)%string.
Proof. induction a as [|c a IH]; simpl; [reflexivity|now rewrite IH]. Qed.

Lemma lowerByte_space (c : ascii) :
  strings.isSpace c = true -> strings.lowerByte c = c.
Proof.
  unfold strings.isSpace, strings.lowerByte. intros H.
  destruct (Nat.leb_spec 65 (nat_of_ascii c)); [|reflexivity].
  destruct (Nat.leb_spec (nat_of_ascii c) 90); [|reflexivity].
  apply orb_true_iff in H. destruct H as [H|H].
  - apply andb_true_iff in H. destruct H as [_ H].
    apply Nat.leb_le in H. lia.
  - apply Nat.eqb_eq in H. lia.
Qed.

Lemma ToLower_spaces (ws : string) :
  allChars strings.isSpace ws = true -> strings.ToLower ws = ws.
Proof.
  induction ws as [|c ws IH]; simpl; [reflexivity|].
  intros H. apply andb_true_iff in H. destruct H as [Hc Hws].
  now rewrite lowerByte_space, IH.
Qed.

Lemma lowerByte_variant (c d : ascii) :
  isUpper d = false ->
  (Ascii.eqb c d
   || (Nat.leb 97 (nat_of_ascii d) && Nat.leb (nat_of_ascii d) 122
       && Nat.eqb (nat_of_ascii c + 32) (nat_of_ascii d))) = true ->
  strings.lowerByte c = d.
Proof.
  intros Hd H. apply orb_true_iff in H. destruct H as [H|H].
  - apply Ascii.eqb_eq in H. subst c. unfold strings.lowerByte.
    unfold isUpper in Hd. now rewrite Hd.
  - apply andb_true_iff in H. destruct H as [H He].
    apply andb_true_iff in H. destruct H as [Hlo Hhi].
    apply Nat.leb_le in Hlo, Hhi. apply Nat.eqb_eq in He.
    unfold strings.lowerByte.
    destruct (Nat.leb_spec 65 (nat_of_ascii c)); [|lia].
    destruct (Nat.leb_spec (nat_of_ascii c) 90); [|lia].
    cbn [andb]. rewrite He. apply ascii_nat_embedding.
Qed.

Lemma ToLower_variant (s canon : string) :
  allChars (fun c => negb (isUpper c)) canon = true ->
  caseVariant s canon = true ->
  strings.ToLower s = canon.
Proof.
  revert canon. induction s as [|c s IH]; intros [|d canon] Hc H;
    try discriminate; [reflexivity|].
  cbn [allChars] in Hc. apply andb_true_iff in Hc. destruct Hc as [Hd Hc].
  cbn [caseVariant] in H. apply andb_true_iff in H. destruct H as [Hcd H].
  cbn [strings.ToLower]. f_equal.
  - apply lowerByte_variant; [|exact Hcd]. now apply negb_true_iff.
  - now apply IH.
Qed.

(* ----------------------------------------------------------------- *)
(** *** Stripping space runes *)

Section Strip.

Variable p1 : ascii -> bool.
Variable p2 : ascii -> ascii -> bool.
Variable p3 : ascii -> ascii -> ascii -> bool.

Lemma strip_fixed (s : list ascii) :
  startsWithSpace p1 p2 p3 s = false -> strings.strip p1 p2 p3 s = s.
Proof.
  destruct s as [|c1 [|c2 [|c3 s3]]]; cbn; try reflexivity.
  - now destruct (p1 c1).
  - destruct (p1 c1); [discriminate|]. now destruct (p2 c1 c2).
  - destruct (p1 c1); [discriminate|]. destruct (p2 c1 c2); [discriminate|].
    now destruct (p3 c1 c2 c3).
Qed.

Lemma strip_bounded (n : nat) :
  forall s, (List.length s <= n)%nat ->
    startsWithSpace p1 p2 p3 (strings.strip p1 p2 p3 s) = false
    /\ exists pre, s = pre ++ strings.strip p1 p2 p3 s.
Proof.
  induction n as [|n IH]; intros s Hlen.
  - destruct s; [|cbn in Hlen; lia]. split; [reflexivity|now exists []].
  - destruct s as [|c1 s1]; [split; [reflexivity|now exists []]|].
    cbn in Hlen. cbn [strings.strip].
    destruct (p1 c1) eqn:H1.
    { destruct (IH s1 ltac:(lia)) as [Hs [pre Hp]]. split; [exact Hs|].
      exists (c1 :: pre). cbn. now rewrite <- Hp. }
    destruct s1 as [|c2 s2].
    { split; [cbn; now rewrite H1|now exists []]. }
    cbn in Hlen. destruct (p2 c1 c2) eqn:H2.
    { destruct (IH s2 ltac:(lia)) as [Hs [pre Hp]]. split; [exact Hs|].
      exists (c1 :: c2 :: pre). cbn. now rewrite <- Hp. }
    destruct s2 as [|c3 s3].
    { split; [cbn; now rewrite H1, H2|now exists []]. }
    cbn in Hlen. destruct (p3 c1 c2 c3) eqn:H3.
    { destruct (IH s3 ltac:(lia)) as [Hs [pre Hp]]. split; [exact Hs|].
      exists (c1 :: c2 :: c3 :: pre). cbn. now rewrite <- Hp. }
    split; [cbn; now rewrite H1, H2, H3|now exists []].
Qed.

Lemma strip_no_space (s : list ascii) :
  startsWithSpace p1 p2 p3 (strings.strip p1 p2 p3 s) = false.
Proof. apply (strip_bounded (List.length s) s (le_n _)). Qed.

Lemma strip_suffix (s : list ascii) :
  exists pre, s = pre ++ strings.strip p1 p2 p3 s.
Proof. apply (strip_bounded (List.length s) s (le_n _)). Qed.

Lemma strip_idempotent (s : list ascii) :
  strings.strip p1 p2 p3 (strings.strip p1 p2 p3 s)
  = strings.strip p1 p2 p3 s.
Proof. apply strip_fixed, strip_no_space. Qed.


End Strip.

(** A space rune at the start of a list is at the start of every list
    that extends it. *)
Lemma startsWithSpace_app (p1 : ascii -> bool) (p2 : ascii -> ascii -> bool)
    (p3 : ascii -> ascii -> ascii -> bool) (s u : list ascii) :
  startsWithSpace p1 p2 p3 s = true ->
  startsWithSpace p1 p2 p3 (s ++ u) = true.
Proof.
  destruct s as [|c1 [|c2 [|c3 s3]]]; cbn; try discriminate.
  - rewrite orb_false_r. intros ->. reflexivity.
  - rewrite orb_false_r. intros H. apply orb_true_iff in H as [-> | ->];
      [reflexivity|]. destruct u; now rewrite ?orb_true_r.
  - tauto.
Qed.

Lemma list_ascii_of_string_app (a b : string) :
  list_ascii_of_string (a ++ b)
  = list_ascii_of_string a ++ list_ascii_of_string b.
Proof. induction a as [|c a IH]; cbn; [reflexivity|now rewrite IH]. Qed.

Lemma string_of_list_ascii_app (a b : list ascii) :
  string_of_list_ascii (a ++ b)
  = (string_of_list_ascii a ++ string_of_list_ascii b)%string.
Proof. induction a as [|c a IH]; cbn; [reflexivity|now rewrite IH]. Qed.


(** Trimming a trimmed string changes nothing. *)
Lemma TrimSpace_idempotent (s : string) :
  strings.TrimSpace (strings.TrimSpace s) = strings.TrimSpace s.
Proof.
  unfold strings.TrimSpace, strings.TrimRight, strings.TrimLeft.
  rewrite !list_ascii_of_string_of_list_ascii.
  set (t := strings.strip strings.isSpace strings.isSpace2 strings.isSpace3
              (list_ascii_of_string s)).
  set (q2 := fun c2 c1 => strings.isSpace2 c1 c2).
  set (q3 := fun c3 c2 c1 => strings.isSpace3 c1 c2 c3).
  set (r := rev (strings.strip strings.isSpace q2 q3 (rev t))).
  assert (Hr : strings.strip strings.isSpace strings.isSpace2 strings.isSpace3 r
               = r).
  { apply strip_fixed.
    destruct (startsWithSpace strings.isSpace strings.isSpace2
                strings.isSpace3 r) eqn:E; [|reflexivity].
    destruct (strip_suffix strings.isSpace q2 q3 (rev t)) as [pre Hpre].
    assert (Ht : t = r ++ rev pre).
    { unfold r. rewrite <- rev_app_distr, <- Hpre. now rewrite rev_involutive. }
    apply (startsWithSpace_app _ _ _ r (rev pre)) in E.
    rewrite <- Ht in E. unfold t in E. now rewrite strip_no_space in E. }
  rewrite Hr. unfold r. rewrite rev_involutive, strip_idempotent.
  reflexivity.
Qed.


(* ----------------------------------------------------------------- *)
(** *** White space around a track *)

Ltac each_space_rune H :=
  vm_compute in H;
  repeat (destruct H as [H|H]; [subst|]); [..|contradiction].

Lemma ToLower_space_rune (tok : string) :
  In tok spaceRunes -> strings.ToLower tok = tok.
Proof. intros H. each_space_rune H; reflexivity. Qed.

Lemma strip_space_rune (tok : string) (t : list ascii) :
  In tok spaceRunes ->
  strings.strip strings.isSpace strings.isSpace2 strings.isSpace3
    (list_ascii_of_string tok ++ t)
  = strings.strip strings.isSpace strings.isSpace2 strings.isSpace3 t.
Proof. intros H. each_space_rune H; reflexivity. Qed.

Lemma strip_space_rune_rev (tok : string) (t : list ascii) :
  In tok spaceRunes ->
  strings.strip strings.isSpace (fun c2 c1 => strings.isSpace2 c1 c2)
    (fun c3 c2 c1 => strings.isSpace3 c1 c2 c3)
    (rev (list_ascii_of_string tok) ++ t)
  = strings.strip strings.isSpace (fun c2 c1 => strings.isSpace2 c1 c2)
      (fun c3 c2 c1 => strings.isSpace3 c1 c2 c3) t.
Proof. intros H. each_space_rune H; reflexivity. Qed.

Lemma ToLower_joined (l : list string) :
  Forall (fun tok => In tok spaceRunes) l ->
  strings.ToLower (joined l) = joined l.
Proof.
  induction 1 as [|tok l Htok Hl IH]; [reflexivity|].
  cbn [joined fold_right]. fold (joined l).
  now rewrite ToLower_app, ToLower_space_rune, IH.
Qed.

Lemma strip_joined (l : list string) (t : list ascii) :
  Forall (fun tok => In tok spaceRunes) l ->
  strings.strip strings.isSpace strings.isSpace2 strings.isSpace3
    (list_ascii_of_string (joined l) ++ t)
  = strings.strip strings.isSpace strings.isSpace2 strings.isSpace3 t.
Proof.
  induction 1 as [|tok l Htok Hl IH]; [reflexivity|].
  cbn [joined fold_right]. fold (joined l).
  rewrite list_ascii_of_string_app, <- app_assoc.
  now rewrite strip_space_rune, IH.
Qed.

Lemma strip_joined_rev (l : list string) (t : list ascii) :
  Forall (fun tok => In tok spaceRunes) l ->
  strings.strip strings.isSpace (fun c2 c1 => strings.isSpace2 c1 c2)
    (fun c3 c2 c1 => strings.isSpace3 c1 c2 c3)
    (rev (list_ascii_of_string (joined l)) ++ t)
  = strings.strip strings.isSpace (fun c2 c1 => strings.isSpace2 c1 c2)
      (fun c3 c2 c1 => strings.isSpace3 c1 c2 c3) t.
Proof.
  intros H. revert t. induction H as [|tok l Htok Hl IH]; intros t;
    [reflexivity|].
  cbn [joined fold_right]. fold (joined l).
  rewrite list_ascii_of_string_app, rev_app_distr, <- app_assoc.
  now rewrite IH, strip_space_rune_rev.
Qed.

(** A supported track between white space, in any case, is normalised to
    the track itself. *)
Lemma normalise_variant (sp1 sp2 : list string) (s canon : string) :
  In canon supportedTracks ->
  Forall (fun tok => In tok spaceRunes) sp1 ->
  Forall (fun tok => In tok spaceRunes) sp2 ->
  caseVariant s canon = true ->
  strings.TrimSpace (strings.ToLower (joined sp1 ++ s ++ joined sp2)) = canon.
Proof.
  intros Hin H1 H2 Hs.
  rewrite !ToLower_app, (ToLower_joined sp1 H1), (ToLower_joined sp2 H2).
  rewrite (ToLower_variant s canon);
    [|destruct Hin as [<-|[<-|[<-|[]]]]; reflexivity|exact Hs].
  unfold strings.TrimSpace, strings.TrimLeft.
  rewrite list_ascii_of_string_app, strip_joined by exact H1.
  rewrite list_ascii_of_string_app, strip_fixed
    by (destruct Hin as [<-|[<-|[<-|[]]]]; reflexivity).
  unfold strings.TrimRight.
  rewrite list_ascii_of_string_of_list_ascii, rev_app_distr.
  rewrite strip_joined_rev by exact H2.
  rewrite strip_fixed by (destruct Hin as [<-|[<-|[<-|[]]]]; reflexivity).
  rewrite rev_involutive. apply string_of_list_ascii_of_string.
Qed.

(** [Publish] uses the track only through its normal form. *)
Lemma Publish_track_normal_form (fsys : Fs) (packageName t1 t2 authFile : string)
    (files : list binary) (apk verbose : bool) :
  strings.TrimSpace (strings.ToLower t1) = strings.TrimSpace (strings.ToLower t2) ->
  Publish fsys packageName t1 authFile files apk verbose
  = Publish fsys packageName t2 authFile files apk verbose.
Proof. intros H. unfold Publish. rewrite H. reflexivity. Qed.

(** What an accepted request stores. *)
Lemma Publish_stores (fsys : Fs) (packageName track authFile : string)
    (files : list binary) (apk verbose : bool) (p : publish) :
  Publish fsys packageName track authFile files apk verbose = Ok p ->
  p = mkPublish (strings.TrimSpace packageName)
        (strings.TrimSpace (strings.ToLower track)) authFile files apk
        verbose fsys.
Proof.
  unfold Publish. intros H.
  repeat match type of H with
         | (if ?c then _ else _) = _ => destruct c; try discriminate
         | match ?c with _ => _ end = _ => destruct c; try discriminate
         end.
  all: now inversion H.
Qed.

(* ================================================================= *)
(** ** A recorded run makes the calls of the relation *)

Section RunLemmas.

Context {St : Type}.
Variable gs : IGService St.
Variable p : publish.
Variable edit : string.

Lemma upload_traced (path : string) (s : St) (log : list call) :
  let run := upload p (traced gs) path edit (apk p) (s, log) in
  exists cs,
    snd (snd run) = log ++ cs
    /\ binary_run p edit path cs (ending_of (fst run)).
Proof.
  unfold upload, fileSize.
  destruct (Open (fs p) path) as [fl|err] eqn:Ho.
  2:{ exists []. rewrite app_nil_r. split; [reflexivity|].
      now apply BR_open. }
  destruct (fileSha256 (openAt0 fl)) as [[local|e] r] eqn:Hh.
  2:{ exists []. rewrite app_nil_r. split; [reflexivity|].
      eapply BR_hash; eassumption. }
  destruct (Stat (fs p) path) as [info|e] eqn:Hs.
  2:{ exists []. rewrite app_nil_r. split; [reflexivity|].
      eapply BR_exit; eassumption. }
  assert (Hcall :
            (if apk p
             then fun r pkg e => record (uploadApk gs r pkg e)
                                   (UploadApk r pkg e)
             else fun r pkg e => record (uploadBundle gs r pkg e)
                                   (UploadBundle r pkg e))
              (ProgressReader r (Size info)) (packageName p) edit (s, log)
            = let op := if apk p then uploadApk gs else uploadBundle gs in
              let res := op (ProgressReader r (Size info)) (packageName p)
                           edit s in
              (fst res,
               (snd res,
                log ++ [binCall (apk p) (ProgressReader r (Size info))
                          (packageName p) edit (fst res)]))).
  { unfold binCall. destruct (apk p); apply record_eq. }
  cbn [traced uploadApk uploadBundle uploads].
  rewrite Hcall. cbn zeta.
  destruct ((if apk p then uploadApk gs else uploadBundle gs)
              (ProgressReader r (Size info)) (packageName p) edit s)
    as [[[v remote]|err] s1].
  - cbn [fst snd]. destruct (String.eqb remote local) eqn:Hcmp; cbn [negb].
    + apply String.eqb_eq in Hcmp. subst remote.
      eexists. split; [reflexivity|]. eapply BR_ok; eassumption.
    + apply String.eqb_neq in Hcmp.
      eexists. split; [reflexivity|]. eapply BR_mismatch; eassumption.
  - cbn [fst snd]. eexists. split; [reflexivity|].
    eapply BR_remote; eassumption.
Qed.

Lemma uploadMapping_traced (path : string) (v : Z) (s : St)
    (log : list call) :
  let run := uploadMapping p (traced gs) path edit v (s, log) in
  exists ms,
    snd (snd run) = log ++ ms
    /\ mapping_run p edit path v ms (fst run).
Proof.
  unfold uploadMapping.
  destruct (Open (fs p) path) as [fl|err] eqn:Ho.
  - cbn [traced uploadProguardMapping uploads]. rewrite record_eq.
    cbn [fst snd]. eexists. split; [reflexivity|]. now apply MR_upload.
  - exists []. rewrite app_nil_r. split; [reflexivity|]. now apply MR_open.
Qed.

Lemma deleteAndReturn_traced {A : Type} (err : A) (s : St)
    (log : list call) :
  let res := deleteEdit gs (packageName p) edit s in
  deleteAndReturn p (traced gs) edit err (s, log)
  = (Return err,
     (snd res, log ++ [DeleteEdit (packageName p) edit (fst res)])).
Proof.
  unfold deleteAndReturn. cbn [traced deleteEdit edits].
  rewrite record_eq. reflexivity.
Qed.

Lemma uploadEach_traced (fl : list binary) :
  forall (versions : list Z) (s : St) (log : list call),
    let run := uploadEach p (traced gs) edit fl versions (s, log) in
    exists cs,
      snd (snd run) = log ++ cs
      /\ loop_run p edit fl cs (loop_end_of (fst run)).
Proof.
  induction fl as [|f rest IH]; intros versions s log.
  - exists []. rewrite app_nil_r. split; [reflexivity|apply LR_nil].
  - cbn [uploadEach].
    destruct (upload_traced (filePath f) s log) as [cs [Hlog Hrun]].
    destruct (upload p (traced gs) (filePath f) edit (apk p) (s, log))
      as [[[v|err]|e] [s1 log1]]; cbn [fst snd ending_of] in Hlog, Hrun;
      subst log1.
    + destruct (String.eqb (mappingPath f) "") eqn:Hm.
      * apply String.eqb_eq in Hm.
        destruct (IH (versions ++ [v]) s1 (log ++ cs)) as [cs' [Hlog' Hrun']].
        exists (cs ++ cs'). rewrite app_assoc. split; [exact Hlog'|].
        eapply LR_no_mapping; eassumption.
      * apply String.eqb_neq in Hm.
        destruct (uploadMapping_traced (mappingPath f) v s1 (log ++ cs))
          as [ms [Hlogm Hrunm]].
        destruct (uploadMapping p (traced gs) (mappingPath f) edit v
                    (s1, log ++ cs)) as [[err|] [s2 log2]];
          cbn [fst snd] in Hlogm, Hrunm; subst log2.
        -- rewrite deleteAndReturn_traced. cbn [fst snd loop_end_of].
           eexists. rewrite <- !app_assoc. split; [reflexivity|].
           eapply LR_mapping_failed; eassumption.
        -- destruct (IH (versions ++ [v]) s2 ((log ++ cs) ++ ms))
             as [cs' [Hlog' Hrun']].
           exists (cs ++ ms ++ cs'). split.
           ++ rewrite Hlog'. now rewrite <- !app_assoc.
           ++ eapply LR_mapping; eassumption.
    + rewrite deleteAndReturn_traced. cbn [fst snd loop_end_of].
      eexists. rewrite <- app_assoc. split; [reflexivity|].
      now apply LR_binary_failed.
    + cbn [fst snd loop_end_of]. exists cs. split; [reflexivity|].
      now apply LR_binary_exit.
Qed.

End RunLemmas.

Lemma UploadFiles_traced {St : Type} (gs : IGService St) (p : publish)
    (s : St) :
  let run := UploadFiles p (Some (traced gs)) (s, []) in
  files_run p (fst (createEdit gs (packageName p) s)) (snd (snd run))
    (fst run).
Proof.
  unfold UploadFiles. cbn [traced createEdit validateEdit commitEdit edits].
  rewrite record_eq. cbn [app].
  destruct (createEdit gs (packageName p) s) as [[edit|err] s1]; cbn [fst snd].
  2:{ apply FR_create_failed. }
  fold (traced gs).
  destruct (uploadEach_traced gs p edit (files p) [] s1
              [CreateEdit (packageName p) (Ok edit)]) as [cs [Hlog Hrun]].
  destruct (uploadEach p (traced gs) edit (files p) [] _)
    as [[[vs|err]|e] [s2 log2]]; cbn [fst snd loop_end_of] in Hlog, Hrun;
    subst log2; cbn [app].
  - rewrite record_eq.
    destruct (validateEdit gs (packageName p) edit s2) as [[err|] s3];
      cbn [fst snd].
    + rewrite deleteAndReturn_traced. cbn [fst snd].
      rewrite <- app_assoc. cbn [app]. now apply FR_validate_failed.
    + rewrite record_eq.
      destruct (commitEdit gs (packageName p) edit s3) as [[err|] s4];
        cbn [fst snd].
      * rewrite deleteAndReturn_traced. cbn [fst snd].
        rewrite <- !app_assoc. cbn [app]. now apply FR_commit_failed.
      * rewrite <- !app_assoc. cbn [app]. now apply FR_committed.
  - now apply FR_aborted.
  - now apply FR_killed.
Qed.

(* ================================================================= *)
(** ** Counting calls *)

Lemma calls_app (m : method) (a b : list call) :
  calls m (a ++ b) = (calls m a + calls m b)%nat.
Proof. unfold calls. now rewrite filter_app, length_app. Qed.

Lemma binary_run_no_edit_call (p : publish) (edit path : string)
    (cs : list call) (e : ending) (m : method) :
  binary_run p edit path cs e -> editMethod m = true -> calls m cs = 0%nat.
Proof.
  intros H Hm. destruct H; try reflexivity;
    unfold binCall; destruct (apk p); destruct m; try discriminate;
      reflexivity.
Qed.

Lemma mapping_run_no_edit_call (p : publish) (edit path : string) (v : Z)
    (ms : list call) (res : option error) (m : method) :
  mapping_run p edit path v ms res -> editMethod m = true ->
  calls m ms = 0%nat.
Proof.
  intros H Hm. destruct H; try reflexivity.
  destruct m; try discriminate; reflexivity.
Qed.

(** The loop calls [deleteEdit] once when it gives up and never
    otherwise, and no other method of the edit. *)
Lemma loop_run_edit_calls (p : publish) (edit : string) (fl : list binary)
    (cs : list call) (fin : loop_end) :
  loop_run p edit fl cs fin ->
  calls MCreateEdit cs = 0%nat
  /\ calls MValidateEdit cs = 0%nat
  /\ calls MCommitEdit cs = 0%nat
  /\ calls MDeleteEdit cs
     = match fin with Aborted _ => 1%nat | _ => 0%nat end.
Proof.
  induction 1 as [ | f rest cs err res Hb | f rest cs e Hb
                   | f rest cs v cs' fin Hb Hm Hl IH
                   | f rest cs v ms err res Hb Hm Hmr
                   | f rest cs v ms cs' fin Hb Hm Hmr Hl IH ];
    rewrite ?calls_app;
    repeat match goal with
           | Hb : binary_run _ _ _ ?cs _ |- context [calls ?m ?cs] =>
               rewrite (binary_run_no_edit_call _ _ _ _ _ m Hb eq_refl)
           | Hr : mapping_run _ _ _ _ ?ms _ |- context [calls ?m ?ms] =>
               rewrite (mapping_run_no_edit_call _ _ _ _ _ _ m Hr eq_refl)
           end;
    try (destruct IH as (-> & -> & -> & ->));
    repeat split; reflexivity.
Qed.

Lemma original_failure_app (p : publish) (front pre : list call)
    (err : error) :
  original_failure p pre err -> original_failure p (front ++ pre) err.
Proof.
  intros [before c -> Hd Hc Hf | f path Hin Hp Ho | f fl e r Hin Ho Hh He
         | before f fl local r rd edit v remote Hin Ho Hh -> Hne He].
  - eapply OF_call with (before := front ++ before) (c := c);
      [now rewrite app_assoc|assumption..].
  - eapply OF_open; eassumption.
  - eapply OF_hash; eassumption.
  - eapply OF_mismatch with (before := front ++ before);
      [eassumption..|now rewrite app_assoc|assumption|assumption].
Qed.

Lemma binary_run_failure (p : publish) (edit : string) (f : binary)
    (cs : list call) (err : error) :
  In f (files p) ->
  binary_run p edit (filePath f) cs (Failed err) ->
  original_failure p cs err.
Proof.
  intros Hin H. inversion H; subst.
  - eapply OF_open; [exact Hin|now left|assumption].
  - eapply OF_hash; [exact Hin|eassumption..|reflexivity].
  - eapply OF_call with (before := []); [reflexivity|..];
      unfold binCall; destruct (apk p); cbn; congruence.
  - eapply OF_mismatch with (before := []);
      [exact Hin|eassumption|eassumption|reflexivity|assumption|reflexivity].
Qed.

Lemma mapping_run_failure (p : publish) (edit : string) (f : binary) (v : Z)
    (front ms : list call) (err : error) :
  In f (files p) ->
  mappingPath f <> ""%string ->
  mapping_run p edit (mappingPath f) v ms (Some err) ->
  original_failure p (front ++ ms) err.
Proof.
  intros Hin Hm H. inversion H; subst.
  - eapply OF_open; [exact Hin|right; split; [reflexivity|exact Hm]|assumption].
  - eapply OF_call with (before := front); [reflexivity|..]; cbn; congruence.
Qed.

(** A loop that gives up ends with its one [deleteEdit], and the error is
    that of the step before it. *)
Lemma loop_run_aborted (p : publish) (edit : string) (fl : list binary)
    (cs : list call) (fin : loop_end) :
  loop_run p edit fl cs fin ->
  forall err, fin = Aborted err ->
  incl fl (files p) ->
  exists pre res,
    cs = pre ++ [DeleteEdit (packageName p) edit res]
    /\ original_failure p pre err.
Proof.
  induction 1 as [ | f rest cs err0 res Hb | f rest cs e Hb
                   | f rest cs v cs' fin Hb Hm Hl IH
                   | f rest cs v ms err0 res Hb Hm Hmr
                   | f rest cs v ms cs' fin Hb Hm Hmr Hl IH ];
    intros err Hfin Hincl; try discriminate.
  - injection Hfin as ->. exists cs, res. split; [reflexivity|].
    eapply binary_run_failure; [|exact Hb]. apply Hincl. now left.
  - destruct (IH err Hfin) as (pre & res & -> & Hof).
    { intros x Hx. apply Hincl. now right. }
    exists (cs ++ pre), res. split; [now rewrite app_assoc|].
    now apply original_failure_app.
  - injection Hfin as ->. exists (cs ++ ms), res.
    split; [now rewrite app_assoc|].
    eapply mapping_run_failure; [|exact Hm|exact Hmr]. apply Hincl. now left.
  - destruct (IH err Hfin) as (pre & res & -> & Hof).
    { intros x Hx. apply Hincl. now right. }
    exists (cs ++ ms ++ pre), res. split; [now rewrite <- !app_assoc|].
    rewrite app_assoc. now apply original_failure_app.
Qed.

(* ================================================================= *)
(** ** Recording does not change the run; [deleteEdit] does not change
       the error *)

Section Erasure.

Context {St : Type}.
Variable gs : IGService St.
Variable p : publish.

Lemma upload_erase (edit path : string) (isApk : bool) (s : St)
    (log : list call) :
  let rt := upload p (traced gs) path edit isApk (s, log) in
  let r := upload p gs path edit isApk s in
  fst rt = fst r /\ fst (snd rt) = snd r.
Proof.
  unfold upload.
  destruct (Open (fs p) path) as [fl|err]; [|now split].
  destruct (fileSha256 (openAt0 fl)) as [[local|e] r]; [|now split].
  destruct (fileSize p path) as [size|e]; [|now split].
  destruct isApk; cbn [traced uploadApk uploadBundle uploads];
    rewrite record_eq;
    match goal with
    | |- context [?op (ProgressReader r size) (packageName p) edit s] =>
        destruct (op (ProgressReader r size) (packageName p) edit s)
          as [[[v remote]|err] s1]
    end; cbn [fst snd];
    try destruct (negb (String.eqb remote local)); now split.
Qed.

Lemma uploadMapping_erase (edit path : string) (v : Z) (s : St)
    (log : list call) :
  let rt := uploadMapping p (traced gs) path edit v (s, log) in
  let r := uploadMapping p gs path edit v s in
  fst rt = fst r /\ fst (snd rt) = snd r.
Proof.
  unfold uploadMapping.
  destruct (Open (fs p) path) as [fl|err]; [|now split].
  cbn [traced uploadProguardMapping uploads]. rewrite record_eq.
  now split.
Qed.

Lemma uploadEach_erase (edit : string) (fl : list binary) :
  forall (versions : list Z) (s : St) (log : list call),
    let rt := uploadEach p (traced gs) edit fl versions (s, log) in
    let r := uploadEach p gs edit fl versions s in
    fst rt = fst r /\ fst (snd rt) = snd r.
Proof.
  induction fl as [|f rest IH]; intros versions s log; [now split|].
  cbn [uploadEach].
  destruct (upload_erase edit (filePath f) (apk p) s log) as [Ho Hs].
  destruct (upload p (traced gs) (filePath f) edit (apk p) (s, log))
    as [out [s1 log1]].
  destruct (upload p gs (filePath f) edit (apk p) s) as [out' s1'].
  cbn [fst snd] in Ho, Hs. subst out' s1'.
  destruct out as [[v|err]|e].
  - destruct (String.eqb (mappingPath f) ""); [apply IH|].
    destruct (uploadMapping_erase edit (mappingPath f) v s1 log1) as [Ho Hs].
    destruct (uploadMapping p (traced gs) (mappingPath f) edit v (s1, log1))
      as [res [s2 log2]].
    destruct (uploadMapping p gs (mappingPath f) edit v s1) as [res' s2'].
    cbn [fst snd] in Ho, Hs. subst res' s2'.
    destruct res as [err|]; [|apply IH].
    rewrite deleteAndReturn_traced. unfold deleteAndReturn.
    destruct (deleteEdit gs (packageName p) edit s2). now split.
  - rewrite deleteAndReturn_traced. unfold deleteAndReturn.
    destruct (deleteEdit gs (packageName p) edit s1). now split.
  - now split.
Qed.

(** The recorded run returns what the plain run returns and leaves the
    service in the same state. *)
Lemma UploadFiles_erase (s : St) (log : list call) :
  let rt := UploadFiles p (Some (traced gs)) (s, log) in
  let r := UploadFiles p (Some gs) s in
  fst rt = fst r /\ fst (snd rt) = snd r.
Proof.
  unfold UploadFiles.
  cbn [traced createEdit validateEdit commitEdit edits].
  rewrite record_eq.
  destruct (createEdit gs (packageName p) s) as [[edit|err] s1];
    cbn [fst snd]; [|now split].
  fold (traced gs).
  destruct (uploadEach_erase edit (files p) [] s1
              (log ++ [CreateEdit (packageName p) (Ok edit)])) as [Ho Hs].
  destruct (uploadEach p (traced gs) edit (files p) [] _)
    as [out [s2 log2]].
  destruct (uploadEach p gs edit (files p) [] s1) as [out' s2'].
  cbn [fst snd] in Ho, Hs. subst out' s2'.
  destruct out as [[vs|err]|e]; [|now split..].
  rewrite record_eq.
  destruct (validateEdit gs (packageName p) edit s2) as [[err|] s3];
    cbn [fst snd].
  - rewrite deleteAndReturn_traced. unfold deleteAndReturn.
    destruct (deleteEdit gs (packageName p) edit s3). now split.
  - rewrite record_eq.
    destruct (commitEdit gs (packageName p) edit s3) as [[err|] s4];
      cbn [fst snd]; [|now split].
    rewrite deleteAndReturn_traced. unfold deleteAndReturn.
    destruct (deleteEdit gs (packageName p) edit s4). now split.
Qed.

Variable del : string -> string -> St -> option error * St.

(** With another [deleteEdit] the loop ends the same way; where it does
    not give up, it also leaves the same state. *)
Lemma uploadEach_withDeleteEdit (edit : string) (fl : list binary) :
  forall (versions : list Z) (s : St),
    let r' := uploadEach p (withDeleteEdit gs del) edit fl versions s in
    let r := uploadEach p gs edit fl versions s in
    fst r' = fst r
    /\ (forall vs, fst r = Return (Ok vs) -> snd r' = snd r).
Proof.
  induction fl as [|f rest IH]; intros versions s; [now split|].
  cbn [uploadEach]. cbn [withDeleteEdit uploads].
  destruct (upload p gs (filePath f) edit (apk p) s) as [[[v|err]|e] s1].
  - destruct (String.eqb (mappingPath f) ""); [apply IH|].
    destruct (uploadMapping p gs (mappingPath f) edit v s1)
      as [[err|] s2]; [|apply IH].
    unfold deleteAndReturn. cbn [withDeleteEdit deleteEdit edits].
    destruct (del (packageName p) edit s2).
    destruct (deleteEdit gs (packageName p) edit s2).
    split; [reflexivity|discriminate].
  - unfold deleteAndReturn. cbn [withDeleteEdit deleteEdit edits].
    destruct (del (packageName p) edit s1).
    destruct (deleteEdit gs (packageName p) edit s1).
    split; [reflexivity|discriminate].
  - split; [reflexivity|discriminate].
Qed.

(** What [UploadFiles] returns does not depend on [deleteEdit]. *)
Lemma UploadFiles_withDeleteEdit (s : St) :
  fst (UploadFiles p (Some (withDeleteEdit gs del)) s)
  = fst (UploadFiles p (Some gs) s).
Proof.
  unfold UploadFiles.
  cbn [withDeleteEdit createEdit validateEdit commitEdit edits].
  destruct (createEdit gs (packageName p) s) as [[edit|err] s1];
    [|reflexivity].
  fold (withDeleteEdit gs del).
  destruct (uploadEach_withDeleteEdit edit (files p) [] s1) as [Ho Hs].
  destruct (uploadEach p (withDeleteEdit gs del) edit (files p) [] s1)
    as [out' s2'].
  destruct (uploadEach p gs edit (files p) [] s1) as [out s2].
  cbn [fst snd] in Ho, Hs. subst out'.
  destruct out as [[vs|err]|e]; [|reflexivity..].
  rewrite (Hs vs eq_refl).
  destruct (validateEdit gs (packageName p) edit s2) as [[err|] s3].
  - unfold deleteAndReturn. cbn [withDeleteEdit deleteEdit edits].
    destruct (del (packageName p) edit s3).
    now destruct (deleteEdit gs (packageName p) edit s3).
  - destruct (commitEdit gs (packageName p) edit s3) as [[err|] s4];
      [|reflexivity].
    unfold deleteAndReturn. cbn [withDeleteEdit deleteEdit edits].
    destruct (del (packageName p) edit s4).
    now destruct (deleteEdit gs (packageName p) edit s4).
Qed.

End Erasure.

(* ================================================================= *)
(** ** The edit life cycle of a run *)

Lemma loop_run_completed_calls_ok (p : publish) (edit : string)
    (fl : list binary) (cs : list call) (fin : loop_end) :
  loop_run p edit fl cs fin -> fin = Completed ->
  Forall (fun c => failed_call c = None) cs.
Proof.
  induction 1 as [ | f rest cs err res Hb | f rest cs e Hb
                   | f rest cs v cs' fin Hb Hm Hl IH
                   | f rest cs v ms err res Hb Hm Hmr
                   | f rest cs v ms cs' fin Hb Hm Hmr Hl IH ];
    intros Hfin; try discriminate.
  - constructor.
  - apply Forall_app. split; [|now apply IH].
    inversion Hb; subst. repeat constructor.
    unfold binCall. now destruct (apk p).
  - apply Forall_app. split; [|apply Forall_app; split; [|now apply IH]].
    + inversion Hb; subst. repeat constructor.
      unfold binCall. now destruct (apk p).
    + inversion Hmr; subst. now repeat constructor.
Qed.

(** A run of [UploadFiles] that returns no error has called [createEdit]
    once, [validateEdit] once, [commitEdit] once and [deleteEdit] not at
    all, and every call it made succeeded. *)
Lemma UploadFiles_nil_calls
    {St : Type} (gs : IGService St) (p : publish) (s : St) :
  let run := UploadFiles p (Some (traced gs)) (s, []) in
  fst run = Return None ->
  let log := snd (snd run) in
  calls MCreateEdit log = 1%nat
  /\ calls MValidateEdit log = 1%nat
  /\ calls MCommitEdit log = 1%nat
  /\ calls MDeleteEdit log = 0%nat
  /\ Forall (fun c => failed_call c = None) log.
Proof.
  intros run Hret log. subst log.
  pose proof (UploadFiles_traced gs p s) as Hrun. cbn zeta in Hrun.
  fold run in Hrun. rewrite Hret in Hrun.
  inversion Hrun as [ | | | | | edit cs Hloop Hc Hlog Hout ].
  destruct (loop_run_edit_calls _ _ _ _ _ Hloop) as (Hcr & Hv & Hco & Hd).
  change (CreateEdit (packageName p) (Ok edit) :: cs ++ ?l)
    with ([CreateEdit (packageName p) (Ok edit)] ++ cs ++ l).
  rewrite !calls_app, Hcr, Hv, Hco, Hd.
  repeat split; try reflexivity.
  apply Forall_app. split; [now repeat constructor|].
  apply Forall_app. split; [|now repeat constructor].
  now apply (loop_run_completed_calls_ok _ _ _ _ _ Hloop).
Qed.

(** A run of [UploadFiles] where [createEdit] gave an edit and which
    returns an error has called [deleteEdit] exactly once, for that edit
    and as the last call, and the error is the failure of the step before
    it. *)
Lemma UploadFiles_error_calls
    {St : Type} (gs : IGService St) (p : publish) (s s1 : St)
    (edit : string) (err : error) :
  createEdit gs (packageName p) s = (Ok edit, s1) ->
  let run := UploadFiles p (Some (traced gs)) (s, []) in
  fst run = Return (Some err) ->
  let log := snd (snd run) in
  calls MDeleteEdit log = 1%nat
  /\ (exists pre res,
        log = CreateEdit (packageName p) (Ok edit)
                :: pre ++ [DeleteEdit (packageName p) edit res]
        /\ original_failure p pre err).
Proof.
  intros Hc run Hret log. subst log.
  pose proof (UploadFiles_traced gs p s) as Hrun. cbn zeta in Hrun.
  fold run in Hrun. rewrite Hret, Hc in Hrun. cbn [fst] in Hrun.
  split.
  - inversion Hrun as [ | ed cs e Hloop | | ed cs e res Hloop
                      | ed cs e res Hloop | ]; subst.
    + destruct (loop_run_edit_calls _ _ _ _ _ Hloop) as (_ & _ & _ & Hd).
      change (CreateEdit (packageName p) (Ok edit) :: cs)
        with ([CreateEdit (packageName p) (Ok edit)] ++ cs).
      now rewrite calls_app, Hd.
    + destruct (loop_run_edit_calls _ _ _ _ _ Hloop) as (_ & _ & _ & Hd).
      change (CreateEdit (packageName p) (Ok edit) :: cs ++ ?l)
        with ([CreateEdit (packageName p) (Ok edit)] ++ cs ++ l).
      now rewrite !calls_app, Hd.
    + destruct (loop_run_edit_calls _ _ _ _ _ Hloop) as (_ & _ & _ & Hd).
      change (CreateEdit (packageName p) (Ok edit) :: cs ++ ?l)
        with ([CreateEdit (packageName p) (Ok edit)] ++ cs ++ l).
      now rewrite !calls_app, Hd.
  - inversion Hrun as [ | ed cs e Hloop | | ed cs e res Hloop
                      | ed cs e res Hloop | ]; subst.
    + destruct (loop_run_aborted _ _ _ _ _ Hloop err eq_refl (incl_refl _))
        as (pre & res & -> & Hof).
      now exists pre, res.
    + exists (cs ++ [ValidateEdit (packageName p) edit (Some err)]), res.
      split; [now rewrite <- app_assoc|].
      eapply OF_call with (before := cs); [reflexivity|..]; cbn; congruence.
    + exists (cs ++ [ValidateEdit (packageName p) edit None;
                     CommitEdit (packageName p) edit (Some err)]), res.
      split; [now rewrite <- app_assoc|].
      eapply OF_call
        with (before := cs ++ [ValidateEdit (packageName p) edit None]);
        [now rewrite <- app_assoc|..]; cbn; congruence.
Qed.

(* ----------------------------------------------------------------- *)
(** *** From the steps to the run *)

Section StepLemmas.

Context {St : Type}.
Variable gs : IGService St.
Variable p : publish.
Variable edit : string.

Lemma upload_binary_ready (path local : string) (rd : Reader) (s : St) :
  binary_ready p path local rd ->
  upload p gs path edit (apk p) s
  = match binUpload gs p rd (packageName p) edit s with
    | (Err err, s') => (Return (Err err), s')
    | (Ok (v, remote), s') =>
        if negb (String.eqb remote local)
        then (Return (Err (mismatchError local remote)), s')
        else (Return (Ok v), s')
    end.
Proof.
  intros (fl & r & info & Ho & Hh & Hs & ->).
  unfold upload, fileSize, binUpload. now rewrite Ho, Hh, Hs.
Qed.

Lemma upload_succeeds (path : string) (s : St) (v : Z) (s' : St) :
  binary_succeeds gs p edit path s v s' ->
  upload p gs path edit (apk p) s = (Return (Ok v), s').
Proof.
  intros (local & rd & Hr & Hu).
  rewrite (upload_binary_ready path local rd s Hr), Hu.
  now rewrite String.eqb_refl.
Qed.

Lemma entries_succeed_length (fl : list binary) (s : St) (vs : list Z)
    (s' : St) :
  entries_succeed gs p edit fl s vs s' -> List.length vs = List.length fl.
Proof. induction 1; cbn; congruence. Qed.

(** The loop goes through entries whose steps all succeed, and goes on
    with the rest. *)
Lemma uploadEach_succeed (done : list binary) (s : St) (vs : list Z)
    (s' : St) :
  entries_succeed gs p edit done s vs s' ->
  forall rest versions,
    uploadEach p gs edit (done ++ rest) versions s
    = uploadEach p gs edit rest (versions ++ vs) s'.
Proof.
  induction 1 as [s|f done s v s1 s2 vs s' Hb Hm Hrest IH];
    intros rest versions.
  - now rewrite app_nil_r.
  - cbn [app uploadEach]. rewrite (upload_succeeds _ _ _ _ Hb).
    destruct Hm as [[Hm ->]|(Hm & fl & Ho & Hu)].
    + rewrite Hm. cbn [String.eqb]. rewrite IH. now rewrite <- app_assoc.
    + apply String.eqb_neq in Hm. rewrite Hm.
      unfold uploadMapping. rewrite Ho, Hu, IH. now rewrite <- app_assoc.
Qed.

(** The loop gives up at an entry with a failing step, with the error of
    that step. *)
Lemma uploadEach_fails (f : binary) (s : St) (err : error) :
  entry_fails gs p edit f s err ->
  forall rest versions,
    fst (uploadEach p gs edit (f :: rest) versions s) = Return (Err err).
Proof.
  intros H rest versions. cbn [uploadEach].
  assert (Hdel : forall st,
             fst (deleteAndReturn p gs edit
                    (Err err : result (list Z)) st)
             = Return (Err err)).
  { intros st. unfold deleteAndReturn.
    now destruct (deleteEdit gs (packageName p) edit st). }
  destruct H as [err Ho | fl e r Ho Hh | local rd err s' Hr Hu
                | local rd v remote s' Hr Hu Hne
                | v s1 err Hb Hm Ho | v s1 fl err s' Hb Hm Ho Hu].
  - unfold upload. rewrite Ho. apply Hdel.
  - unfold upload. rewrite Ho, Hh. apply Hdel.
  - rewrite (upload_binary_ready _ _ _ s Hr), Hu. apply Hdel.
  - rewrite (upload_binary_ready _ _ _ s Hr), Hu.
    apply String.eqb_neq in Hne. rewrite Hne. cbn [negb]. apply Hdel.
  - rewrite (upload_succeeds _ _ _ _ Hb).
    apply String.eqb_neq in Hm. rewrite Hm.
    unfold uploadMapping. rewrite Ho. apply Hdel.
  - rewrite (upload_succeeds _ _ _ _ Hb).
    apply String.eqb_neq in Hm. rewrite Hm.
    unfold uploadMapping. rewrite Ho, Hu. apply Hdel.
Qed.

End StepLemmas.

(** When every step succeeds, the run returns no error. *)
Lemma UploadFiles_succeeds {St : Type} (gs : IGService St) (p : publish)
    (s : St) :
  every_step_succeeds gs p s -> fst (UploadFiles p (Some gs) s) = Return None.
Proof.
  intros (edit & s1 & vs & s2 & s3 & s4 & Hc & He & Hv & Hco).
  unfold UploadFiles. rewrite Hc.
  pose proof (uploadEach_succeed gs p edit _ _ _ _ He [] []) as Hl.
  rewrite app_nil_r in Hl. rewrite Hl. cbn [uploadEach].
  now rewrite Hv, Hco.
Qed.

(** When a step after [createEdit] fails, the run returns the error of
    that step. *)
Lemma UploadFiles_fails {St : Type} (gs : IGService St) (p : publish)
    (s s1 : St) (edit : string) (err : error) :
  createEdit gs (packageName p) s = (Ok edit, s1) ->
  later_step_fails gs p edit s1 err ->
  fst (UploadFiles p (Some gs) s) = Return (Some err).
Proof.
  intros Hc H. unfold UploadFiles. rewrite Hc.
  destruct H as [done f rest vs s2 err Hf He Hfail
                | vs s2 err s3 He Hv
                | vs s2 s3 err s4 He Hv Hco].
  - rewrite Hf, (uploadEach_succeed gs p edit _ _ _ _ He).
    pose proof (uploadEach_fails gs p edit f s2 err Hfail rest ([] ++ vs))
      as Hl.
    destruct (uploadEach p gs edit (f :: rest) ([] ++ vs) s2) as [out s3].
    cbn [fst] in Hl. now subst out.
  - pose proof (uploadEach_succeed gs p edit _ _ _ _ He [] []) as Hl.
    rewrite app_nil_r in Hl. rewrite Hl. cbn [uploadEach]. rewrite Hv.
    unfold deleteAndReturn.
    now destruct (deleteEdit gs (packageName p) edit s3).
  - pose proof (uploadEach_succeed gs p edit _ _ _ _ He [] []) as Hl.
    rewrite app_nil_r in Hl. rewrite Hl. cbn [uploadEach]. rewrite Hv, Hco.
    unfold deleteAndReturn.
    now destruct (deleteEdit gs (packageName p) edit s4).
Qed.

(** C2: a run of [UploadFiles] in which every step succeeds
    ([createEdit], for every entry the opening, hashing and upload of the
    binary with the hash confirmed and the upload of the mapping if there
    is one, [validateEdit], [commitEdit]) returns no error, and has called
    [createEdit] once, [validateEdit] once, [commitEdit] once and
    [deleteEdit] not at all; no call it made failed.  This holds for
    every request, valid or not. *)
Theorem UploadFiles_success_edit_calls
    {St : Type} (gs : IGService St) (p : publish) (s : St) :
  every_step_succeeds gs p s ->
  let run := UploadFiles p (Some (traced gs)) (s, []) in
  let log := snd (snd run) in
  fst (UploadFiles p (Some gs) s) = Return None
  /\ fst run = Return None
  /\ calls MCreateEdit log = 1%nat
  /\ calls MValidateEdit log = 1%nat
  /\ calls MCommitEdit log = 1%nat
  /\ calls MDeleteEdit log = 0%nat
  /\ Forall (fun c => failed_call c = None) log.
Proof.
  intros Hall run log. subst log.
  pose proof (UploadFiles_succeeds gs p s Hall) as Hret.
  assert (Hrun : fst run = Return None).
  { destruct (UploadFiles_erase gs p s []) as [Ho _]. fold run in Ho.
    now rewrite Ho. }
  split; [exact Hret|]. split; [exact Hrun|].
  now apply UploadFiles_nil_calls.
Qed.

(** An [apk] of three bytes, on a service that takes everything and
    reports the hash of what it received. *)
Lemma UploadFiles_success_edit_calls_witness :
  let p := mkPublish "com.test.app" "internal" "auth.json"
             [Binary "test.apk"] true false
             (Mock.memFs [("auth.json", []); ("test.apk", [x01; x02; x03])]%string) in
  let run := UploadFiles p (Some (traced (Fake.service Fake.none))) (tt, []) in
  let log := snd (snd run) in
  fst run = Return None
  /\ calls MCreateEdit log = 1%nat
  /\ calls MValidateEdit log = 1%nat
  /\ calls MCommitEdit log = 1%nat
  /\ calls MDeleteEdit log = 0%nat.
Proof.
  intros p.
  destruct (UploadFiles_success_edit_calls (Fake.service Fake.none) p tt)
    as (_ & H1 & H2 & H3 & H4 & H5 & _).
  - exists "edit-1"%string, tt, [7], tt, tt, tt.
    split; [reflexivity|]. split; [|split; reflexivity].
    eapply ES_cons; [|left; split; reflexivity|apply ES_nil].
    exists (Hex.EncodeToString (Sha256.Sum [x01; x02; x03])),
      (ProgressReader (openAt0 (mkFile [x01; x02; x03] None None)) 3).
    split.
    + exists (mkFile [x01; x02; x03] None None),
        (openAt0 (mkFile [x01; x02; x03] None None)), (mkFileInfo 3).
      repeat split; vm_compute; reflexivity.
    + vm_compute. reflexivity.
  - repeat split; assumption.
Defined.

(** C1: in a run of [UploadFiles] where [createEdit] gave an edit and a
    later step fails (opening or hashing a binary, its upload, the
    comparison of the hashes, opening or uploading a mapping,
    [validateEdit] or [commitEdit], each after the steps before it
    succeeded), the run returns the error of that step; [deleteEdit] was
    called exactly once, for that edit and as the last call, after the
    failure; and the same error is returned whatever [deleteEdit] does or
    returns. *)
Theorem UploadFiles_failure_deletes_edit_once
    {St : Type} (gs : IGService St) (p : publish) (s s1 : St)
    (edit : string) (err : error) :
  createEdit gs (packageName p) s = (Ok edit, s1) ->
  later_step_fails gs p edit s1 err ->
  let run := UploadFiles p (Some (traced gs)) (s, []) in
  let log := snd (snd run) in
  fst (UploadFiles p (Some gs) s) = Return (Some err)
  /\ fst run = Return (Some err)
  /\ calls MDeleteEdit log = 1%nat
  /\ (exists pre res,
        log = CreateEdit (packageName p) (Ok edit)
                :: pre ++ [DeleteEdit (packageName p) edit res]
        /\ original_failure p pre err)
  /\ (forall del,
        fst (UploadFiles p (Some (withDeleteEdit gs del)) s)
        = Return (Some err)).
Proof.
  intros Hc Hfail run log. subst log.
  pose proof (UploadFiles_fails gs p s s1 edit err Hc Hfail) as Hret.
  assert (Hrun : fst run = Return (Some err)).
  { destruct (UploadFiles_erase gs p s []) as [Ho _]. fold run in Ho.
    now rewrite Ho. }
  split; [exact Hret|]. split; [exact Hrun|].
  destruct (UploadFiles_error_calls gs p s s1 edit err Hc Hrun) as [Hd Hlog].
  split; [exact Hd|]. split; [exact Hlog|].
  intros del. now rewrite UploadFiles_withDeleteEdit.
Qed.

(** The test "Should fail if sha256 on remote missmatch": the mock
    reports the hash "randomValue". *)
Lemma UploadFiles_failure_deletes_edit_once_witness :
  let p := mkPublish "com.test.app" "internal" "auth.json"
             [Binary "test.apk"] true false
             (Mock.memFs [("auth.json", []); ("test.apk", [x01; x02; x03])]%string) in
  let gs := Some (Mock.mkMock 0 "randomValue" None "" "" [] 0 0 0 0 0 0) in
  let err := mismatchError (Hex.EncodeToString (Sha256.Sum [x01; x02; x03]))
               "randomValue" in
  let run := UploadFiles p (Some (traced Mock.service)) (gs, []) in
  let log := snd (snd run) in
  fst run = Return (Some err)
  /\ calls MDeleteEdit log = 1%nat
  /\ (exists pre res,
        log = CreateEdit "com.test.app" (Ok "1"%string)
                :: pre ++ [DeleteEdit "com.test.app" "1" res]
        /\ original_failure p pre err).
Proof.
  intros p gs err.
  destruct (UploadFiles_failure_deletes_edit_once Mock.service p gs
              (Some (Mock.mkMock 0 "randomValue" None "" "" [] 0 0 1 0 0 0))
              "1" err) as (_ & H1 & H2 & H3 & _).
  - reflexivity.
  - apply (LF_entry Mock.service p "1" _ [] (Binary "test.apk") [] []
             (Some (Mock.mkMock 0 "randomValue" None "" "" [] 0 0 1 0 0 0)));
      [reflexivity|apply ES_nil|].
    apply (EF_mismatch Mock.service p "1" _ _
             (Hex.EncodeToString (Sha256.Sum [x01; x02; x03]))
             (ProgressReader (openAt0 (mkFile [x01; x02; x03] None None)) 3)
             0 "randomValue"
             (Some (Mock.mkMock 0 "randomValue" None "com.test.app" "1"
                      [x01; x02; x03] 0 1 1 0 0 0))).
    + exists (mkFile [x01; x02; x03] None None),
        (openAt0 (mkFile [x01; x02; x03] None None)), (mkFileInfo 3).
      repeat split; vm_compute; reflexivity.
    + vm_compute. reflexivity.
    + vm_compute. discriminate.
  - repeat split; assumption.
Defined.

(* ================================================================= *)
(** ** The upload calls of a run *)

Lemma uploadCalls_app (a b : list call) :
  uploadCalls (a ++ b) = uploadCalls a ++ uploadCalls b.
Proof. apply flat_map_app. Qed.

Lemma binary_run_uploadCalls (p : publish) (edit path : string)
    (cs : list call) (e : ending) :
  binary_run p edit path cs e ->
  match e with
  | Done v => uploadCalls cs = [BinaryUpload (apk p) (Some v)]
  | Failed _ =>
      uploadCalls cs = [] \/ exists r, uploadCalls cs = [BinaryUpload (apk p) r]
  | Exited _ => uploadCalls cs = []
  end.
Proof.
  intros H. destruct H; try (now left); try reflexivity;
    unfold binCall; destruct (apk p); cbn; try reflexivity;
      right; eexists; reflexivity.
Qed.

Lemma mapping_run_uploadCalls (p : publish) (edit path : string) (v : Z)
    (ms : list call) (res : option error) :
  mapping_run p edit path v ms res ->
  (uploadCalls ms = [] /\ res <> None) \/ uploadCalls ms = [MappingUpload v].
Proof.
  intros H. destruct H; [left; split; [reflexivity|discriminate]|now right].
Qed.

Lemma loop_run_uploadCalls (p : publish) (edit : string) (fl : list binary)
    (cs : list call) (fin : loop_end) :
  loop_run p edit fl cs fin ->
  exists done rest vs tail,
    fl = done ++ rest
    /\ List.length vs = List.length done
    /\ uploadCalls cs = processedCalls (apk p) done vs ++ tail
    /\ (fin = Completed -> rest = [] /\ tail = [])
    /\ stoppedCalls (apk p) rest tail.
Proof.
  induction 1 as [ | f rest cs err res Hb | f rest cs e Hb
                   | f rest cs v cs' fin Hb Hm Hl IH
                   | f rest cs v ms err res Hb Hm Hmr
                   | f rest cs v ms cs' fin Hb Hm Hmr Hl IH ].
  - exists [], [], [], []. repeat split; now left.
  - exists [], (f :: rest), [], (uploadCalls cs).
    rewrite uploadCalls_app, app_nil_r.
    repeat split; try discriminate.
    destruct (binary_run_uploadCalls _ _ _ _ _ Hb) as [->|[r ->]];
      [now left|].
    right. exists f, rest. split; [reflexivity|]. left. now exists r.
  - exists [], (f :: rest), [], [].
    pose proof (binary_run_uploadCalls _ _ _ _ _ Hb) as Hc. cbn in Hc.
    repeat split; try discriminate; [exact Hc|now left].
  - destruct IH as (done & rest' & vs & tail & -> & Hlen & Hcs & Hfin & Hst).
    exists (f :: done), rest', (v :: vs), tail.
    pose proof (binary_run_uploadCalls _ _ _ _ _ Hb) as Hc. cbn in Hc.
    rewrite uploadCalls_app, Hc, Hcs. cbn [processedCalls]. unfold entryCalls.
    rewrite Hm. cbn [String.eqb].
    repeat split; try assumption; try apply Hfin; try assumption.
    cbn. now rewrite Hlen.
  - pose proof (binary_run_uploadCalls _ _ _ _ _ Hb) as Hc. cbn in Hc.
    exists [], (f :: rest), [], (uploadCalls cs ++ uploadCalls ms).
    rewrite !uploadCalls_app, app_nil_r.
    repeat split; try discriminate.
    right. exists f, rest. split; [reflexivity|]. rewrite Hc.
    destruct (mapping_run_uploadCalls _ _ _ _ _ _ Hmr) as [[-> _]| ->].
    + left. now exists (Some v).
    + right. now exists v.
  - destruct IH as (done & rest' & vs & tail & -> & Hlen & Hcs & Hfin & Hst).
    exists (f :: done), rest', (v :: vs), tail.
    pose proof (binary_run_uploadCalls _ _ _ _ _ Hb) as Hc. cbn in Hc.
    destruct (mapping_run_uploadCalls _ _ _ _ _ _ Hmr) as [[_ Hne]|Hms];
      [now elim Hne|].
    rewrite !uploadCalls_app, Hc, Hms, Hcs. cbn [processedCalls]. unfold entryCalls.
    apply String.eqb_neq in Hm. rewrite Hm.
    repeat split; try assumption; try apply Hfin; try assumption.
    cbn. now rewrite Hlen.
Qed.

Lemma processedCalls_app (isApk : bool) (done done' : list binary)
    (vs vs' : list Z) :
  List.length vs = List.length done ->
  processedCalls isApk (done ++ done') (vs ++ vs')
  = processedCalls isApk done vs ++ processedCalls isApk done' vs'.
Proof.
  revert vs. induction done as [|f done IH]; intros [|v vs] Hlen;
    try discriminate; [reflexivity|].
  cbn [app processedCalls]. rewrite IH by (cbn in Hlen; congruence).
  now rewrite app_assoc.
Qed.

Lemma stoppedCalls_nil (isApk : bool) (tail : list upcall) :
  stoppedCalls isApk [] tail -> tail = [].
Proof. intros [H|(f & rest' & H & _)]; [exact H|discriminate]. Qed.

Section TracedSteps.

Context {St : Type}.
Variable gs : IGService St.
Variable p : publish.
Variable edit : string.

(** The steps that succeed on a service succeed on the service that
    records, and add their calls to the log: the binary upload chosen by
    the flag, with the version code it returned, ... *)
Lemma binary_succeeds_traced (path : string) (s : St) (v : Z) (s' : St)
    (log : list call) :
  binary_succeeds gs p edit path s v s' ->
  exists c,
    binary_succeeds (traced gs) p edit path (s, log) v (s', log ++ [c])
    /\ uploadCalls [c] = [BinaryUpload (apk p) (Some v)].
Proof.
  intros (local & rd & Hr & Hu).
  exists (binCall (apk p) rd (packageName p) edit (Ok (v, local))). split.
  - exists local, rd. split; [exact Hr|].
    unfold binUpload, binCall in *.
    destruct (apk p); cbn [traced uploadApk uploadBundle uploads];
      now rewrite record_eq, Hu.
  - unfold binCall. now destruct (apk p).
Qed.

(** ... and the mapping upload with that version code, when the entry
    has a mapping. *)
Lemma mapping_succeeds_traced (f : binary) (v : Z) (s s' : St)
    (log : list call) :
  mapping_succeeds gs p edit f v s s' ->
  exists ms,
    mapping_succeeds (traced gs) p edit f v (s, log) (s', log ++ ms)
    /\ uploadCalls ms
       = if String.eqb (mappingPath f) "" then [] else [MappingUpload v].
Proof.
  intros [[Hm ->]|(Hm & fl & Ho & Hu)].
  - exists []. rewrite app_nil_r, Hm. split; [now left|reflexivity].
  - exists [UploadProguardMapping (FileReader (openAt0 fl)) (packageName p)
              edit v None].
    split.
    + right. split; [exact Hm|]. exists fl. split; [exact Ho|].
      cbn [traced uploadProguardMapping uploads].
      now rewrite record_eq, Hu.
    + apply String.eqb_neq in Hm. now rewrite Hm.
Qed.

Lemma entries_succeed_traced (fl : list binary) (s : St) (vs : list Z)
    (s' : St) :
  entries_succeed gs p edit fl s vs s' ->
  forall log,
  exists cs,
    entries_succeed (traced gs) p edit fl (s, log) vs (s', log ++ cs)
    /\ uploadCalls cs = processedCalls (apk p) fl vs.
Proof.
  induction 1 as [s|f rest s v s1 s2 vs s' Hb Hm Hrest IH]; intros log.
  - exists []. rewrite app_nil_r. split; [apply ES_nil|reflexivity].
  - destruct (binary_succeeds_traced _ _ _ _ log Hb) as (c & Hb' & Hc).
    destruct (mapping_succeeds_traced _ _ _ _ (log ++ [c]) Hm)
      as (ms & Hm' & Hms).
    destruct (IH ((log ++ [c]) ++ ms)) as (cs & Hrest' & Hcs).
    exists ([c] ++ ms ++ cs). split.
    + rewrite !app_assoc. eapply ES_cons; eassumption.
    + rewrite !uploadCalls_app, Hc, Hms, Hcs.
      cbn [processedCalls]. unfold entryCalls. reflexivity.
Qed.

End TracedSteps.

(** C5: in a run of [UploadFiles] where [createEdit] gave an edit, let
    [done] be entries at the front of the list whose steps all succeed.
    Then the entries the run processes are those of [done] and possibly
    more ([done']), and the upload calls of the run are, entry by entry
    and in order: one binary upload ([uploadApk] when the flag is set,
    [uploadBundle] otherwise), then one [uploadProguardMapping] with the
    version code that upload returned exactly when the entry has a
    mapping path, and no mapping upload when it has none; after them come
    only the calls for the entry at which the run stopped, and none when
    the run returns no error.  When the steps of all entries succeed,
    these are all the upload calls of the run. *)
Theorem UploadFiles_upload_calls_per_entry
    {St : Type} (gs : IGService St) (p : publish) (s s1 s2 : St)
    (edit : string) (done rest : list binary) (vs : list Z) :
  createEdit gs (packageName p) s = (Ok edit, s1) ->
  files p = done ++ rest ->
  entries_succeed gs p edit done s1 vs s2 ->
  let run := UploadFiles p (Some (traced gs)) (s, []) in
  let log := snd (snd run) in
  (exists done' rest' vs' tail,
      rest = done' ++ rest'
      /\ List.length vs' = List.length done'
      /\ uploadCalls log
         = processedCalls (apk p) (done ++ done') (vs ++ vs') ++ tail
      /\ (fst run = Return None -> rest' = [] /\ tail = [])
      /\ stoppedCalls (apk p) rest' tail)
  /\ (rest = [] -> uploadCalls log = processedCalls (apk p) (files p) vs).
Proof.
  intros Hc Hf Hdone run log.
  assert (Hmain :
            exists done' rest' vs' tail,
              rest = done' ++ rest'
              /\ List.length vs' = List.length done'
              /\ uploadCalls log
                 = processedCalls (apk p) (done ++ done') (vs ++ vs') ++ tail
              /\ (fst run = Return None -> rest' = [] /\ tail = [])
              /\ stoppedCalls (apk p) rest' tail).
  { subst log run. unfold UploadFiles.
    cbn [traced createEdit validateEdit commitEdit edits].
    rewrite record_eq, Hc. cbn [fst snd app]. fold (traced gs).
    destruct (entries_succeed_traced gs p edit _ _ _ _ Hdone
                [CreateEdit (packageName p) (Ok edit)])
      as (cs & Hdone' & Hcs).
    rewrite Hf, (uploadEach_succeed (traced gs) p edit _ _ _ _ Hdone').
    destruct (uploadEach_traced gs p edit rest ([] ++ vs) s2
                ([CreateEdit (packageName p) (Ok edit)] ++ cs))
      as (cs' & Hlog & Hrun).
    destruct (loop_run_uploadCalls _ _ _ _ _ Hrun)
      as (done' & rest' & vs' & tail & Hrest & Hlen & Hcs' & Hfin & Hst).
    exists done', rest', vs', tail.
    split; [exact Hrest|]. split; [exact Hlen|].
    rewrite (processedCalls_app _ _ _ _ _
               (entries_succeed_length gs p edit _ _ _ _ Hdone)).
    rewrite <- Hcs, <- app_assoc, <- Hcs'.
    destruct (uploadEach p (traced gs) edit rest ([] ++ vs) _)
      as [[[vs0|err]|e] [s3 log3]]; cbn [fst snd loop_end_of] in Hlog, Hfin;
      subst log3.
    - rewrite record_eq.
      destruct (validateEdit gs (packageName p) edit s3) as [[err|] s4];
        cbn [fst snd].
      + rewrite deleteAndReturn_traced. cbn [fst snd].
        rewrite !uploadCalls_app. cbn. rewrite !app_nil_r.
        split; [reflexivity|]. split; [discriminate|exact Hst].
      + rewrite record_eq.
        destruct (commitEdit gs (packageName p) edit s4) as [[err|] s5];
          cbn [fst snd].
        * rewrite deleteAndReturn_traced. cbn [fst snd].
          rewrite !uploadCalls_app. cbn. rewrite !app_nil_r.
          split; [reflexivity|]. split; [discriminate|exact Hst].
        * rewrite !uploadCalls_app. cbn. rewrite !app_nil_r.
          split; [reflexivity|]. split; [|exact Hst].
          intros _. now apply Hfin.
    - cbn [fst snd]. rewrite !uploadCalls_app. cbn.
      split; [reflexivity|]. split; [discriminate|exact Hst].
    - cbn [fst snd]. rewrite !uploadCalls_app. cbn.
      split; [reflexivity|]. split; [discriminate|exact Hst]. }
  split; [exact Hmain|].
  intros ->.
  destruct Hmain as (done' & rest' & vs' & tail & Hrest & Hlen & Hcs & _ & Hst).
  symmetry in Hrest. apply app_eq_nil in Hrest as [-> ->].
  destruct vs'; [|discriminate].
  apply stoppedCalls_nil in Hst. subst tail.
  now rewrite Hcs, Hf, !app_nil_r.
Qed.

(** A bundle with its mapping, then a bundle without: the mapping of the
    first goes up with the version code 7 that its upload returned, and
    the second has no mapping upload. *)
Lemma UploadFiles_upload_calls_per_entry_witness :
  let p := mkPublish "com.sample.app" "internal" "auth.json"
             [BinaryWithMapping "app.aab" "mapping.txt"; Binary "two.aab"]
             false false
             (Mock.memFs [("app.aab", [x0a]); ("mapping.txt", [x0b]);
                          ("two.aab", [x0c])]%string) in
  let run := UploadFiles p (Some (traced (Fake.service Fake.none))) (tt, []) in
  uploadCalls (snd (snd run))
  = [BinaryUpload false (Some 7); MappingUpload 7;
     BinaryUpload false (Some 7)].
Proof.
  intros p.
  refine (proj2 (UploadFiles_upload_calls_per_entry (Fake.service Fake.none)
                   p tt tt tt "edit-1" (files p) [] [7; 7] _ _ _) _).
  - reflexivity.
  - reflexivity.
  - eapply ES_cons; [| |eapply ES_cons; [| |apply ES_nil]].
    + exists (Hex.EncodeToString (Sha256.Sum [x0a])),
        (ProgressReader (openAt0 (mkFile [x0a] None None)) 1).
      split.
      * exists (mkFile [x0a] None None), (openAt0 (mkFile [x0a] None None)),
          (mkFileInfo 1).
        repeat split; vm_compute; reflexivity.
      * vm_compute. reflexivity.
    + right. split; [discriminate|].
      exists (mkFile [x0b] None None). split; reflexivity.
    + exists (Hex.EncodeToString (Sha256.Sum [x0c])),
        (ProgressReader (openAt0 (mkFile [x0c] None None)) 1).
      split.
      * exists (mkFile [x0c] None None), (openAt0 (mkFile [x0c] None None)),
          (mkFileInfo 1).
        repeat split; vm_compute; reflexivity.
      * vm_compute. reflexivity.
    + left. split; reflexivity.
  - reflexivity.
Defined.

(** A bundle with its mapping: one [uploadBundle], then one
    [uploadProguardMapping] with the version code 7 that it returned. *)
Example upload_calls_bundle_with_mapping :
  let p := mkPublish "com.sample.app" "internal" "auth.json"
             [BinaryWithMapping "app.aab" "mapping.txt"] false false
             (Mock.memFs [("app.aab", [x0a]); ("mapping.txt", [x0b])]%string) in
  let run := UploadFiles p (Some (traced (Fake.service Fake.none))) (tt, []) in
  fst run = Return None
  /\ uploadCalls (snd (snd run))
     = [BinaryUpload false (Some 7); MappingUpload 7].
Proof. vm_compute. split; reflexivity. Qed.

(* ================================================================= *)
(** ** Validation: the checks of [Publish] in order *)

Lemma fileExits_Stat (p : publish) (path : string) :
  fileExits p path = true <-> exists info, Stat (fs p) path = Ok info.
Proof.
  unfold fileExits. destruct (Stat (fs p) path) as [info|e]; split.
  - intros _. now exists info.
  - reflexivity.
  - discriminate.
  - intros [info H]. discriminate.
Qed.


(** The loop passes over the entries whose files exist. *)
Lemma checkFiles_present (p : publish) (done rest : list binary) :
  Forall (present (fs p)) done ->
  checkFiles p (done ++ rest) = checkFiles p rest.
Proof.
  induction 1 as [|f done [Hb Hm] Hdone IH]; [reflexivity|].
  cbn [app checkFiles].
  apply fileExits_Stat in Hb. rewrite Hb. cbn [negb].
  destruct Hm as [Hm|Hm].
  - rewrite Hm. cbn. exact IH.
  - apply fileExits_Stat in Hm. rewrite Hm. cbn [negb].
    rewrite andb_false_r. exact IH.
Qed.

Lemma checkFiles_None (p : publish) (fl : list binary) :
  checkFiles p fl = None <-> Forall (present (fs p)) fl.
Proof.
  induction fl as [|f fl IH]; [split; [constructor|reflexivity]|].
  split.
  - cbn [checkFiles].
    destruct (fileExits p (filePath f)) eqn:Hb; [|discriminate].
    cbn [negb].
    destruct (String.eqb_spec (mappingPath f) "") as [Hm|Hm]; cbn [negb andb].
    + intros H. constructor; [|now apply IH].
      split; [now apply fileExits_Stat|now left].
    + destruct (fileExits p (mappingPath f)) eqn:He; [|discriminate].
      cbn [negb]. intros H. constructor; [|now apply IH].
      split; [now apply fileExits_Stat|right; now apply fileExits_Stat].
  - intros H. inversion H as [|f' fl' Hf Hfl]; subst.
    change (f :: fl) with ([f] ++ fl).
    rewrite checkFiles_present; [now apply IH|].
    constructor; [exact Hf|constructor].
Qed.

(** After the checks of the authentication file, the package name and the
    track, [Publish] is left with the files. *)
Lemma Publish_files_checks (fsys : Fs) (pkg trk authFile : string)
    (fl : list binary) (apk verbose : bool) (info : FileInfo) :
  Stat fsys authFile = Ok info ->
  strings.TrimSpace pkg <> ""%string ->
  In (strings.TrimSpace (strings.ToLower trk)) supportedTracks ->
  Publish fsys pkg trk authFile fl apk verbose
  = match fl with
    | [] => Err (errorString "no files to upload provided")
    | _ =>
        match checkFiles (mkPublish "" "" "" [] false verbose fsys) fl with
        | Some e => Err e
        | None =>
            Ok (mkPublish (strings.TrimSpace pkg)
                  (strings.TrimSpace (strings.ToLower trk)) authFile fl apk
                  verbose fsys)
        end
    end.
Proof.
  intros Ha Hn Ht. unfold Publish, fileExits. cbn [fs]. rewrite Ha.
  cbn [negb]. apply String.eqb_neq in Hn. rewrite Hn.
  destruct Ht as [<-|[<-|[<-|[]]]]; reflexivity.
Qed.

(** An accepted request has a file list that passed the loop. *)
Lemma Publish_Ok_files (fsys : Fs) (pkg trk authFile : string)
    (fl : list binary) (apk verbose : bool) (p : publish) :
  Publish fsys pkg trk authFile fl apk verbose = Ok p ->
  Forall (present fsys) fl.
Proof.
  unfold Publish. intros H.
  destruct (negb (fileExits _ authFile)); [discriminate|].
  destruct (String.eqb (strings.TrimSpace pkg) ""); [discriminate|].
  destruct (String.eqb (strings.TrimSpace (strings.ToLower trk)) "");
    [discriminate|].
  destruct (negb _ && negb _ && negb _); [discriminate|].
  destruct fl as [|f fl]; [discriminate|].
  destruct (checkFiles _ (f :: fl)) as [e|] eqn:Hc; [discriminate|].
  now apply checkFiles_None in Hc.
Qed.

(* ----------------------------------------------------------------- *)
(** *** [strings.Contains] *)





(** C10: a supported track in any letter case, between any white space
    (runs [sp1] and [sp2] of space runes, of ASCII or beyond), is treated
    as the track itself: [Publish] gives the same result as for the track
    in its plain form; where the other checks pass (the authentication
    file exists, the package name is not blank, there are files and they
    exist) the request is accepted; and an accepted request stores the
    track trimmed and in lower case, and the package name trimmed. *)
Theorem Publish_normalises_track_and_package_name
    (fsys : Fs) (pkg authFile : string) (fl : list binary)
    (apk verbose : bool) (sp1 sp2 : list string) (s canon : string) :
  In canon supportedTracks ->
  Forall (fun tok => In tok spaceRunes) sp1 ->
  Forall (fun tok => In tok spaceRunes) sp2 ->
  caseVariant s canon = true ->
  let trk := (joined sp1 ++ s ++ joined sp2)%string in
  Publish fsys pkg trk authFile fl apk verbose
  = Publish fsys pkg canon authFile fl apk verbose
  /\ (forall info,
        Stat fsys authFile = Ok info ->
        strings.TrimSpace pkg <> ""%string ->
        fl <> [] ->
        Forall (present fsys) fl ->
        Publish fsys pkg trk authFile fl apk verbose
        = Ok (mkPublish (strings.TrimSpace pkg) canon authFile fl apk verbose
                fsys))
  /\ (forall p,
        Publish fsys pkg trk authFile fl apk verbose = Ok p ->
        track p = canon /\ packageName p = strings.TrimSpace pkg).
Proof.
  intros Hin H1 H2 Hs trk.
  assert (Hn : strings.TrimSpace (strings.ToLower trk) = canon)
    by now apply normalise_variant.
  split; [|split].
  - apply Publish_track_normal_form. rewrite Hn.
    destruct Hin as [<-|[<-|[<-|[]]]]; reflexivity.
  - intros info Ha Hp Hfl Hall.
    rewrite (Publish_files_checks fsys pkg trk authFile fl apk verbose info Ha Hp)
      by now rewrite Hn.
    destruct fl as [|f fl']; [now elim Hfl|].
    apply (checkFiles_None (mkPublish "" "" "" [] false verbose fsys)) in Hall.
    now rewrite Hall, Hn.
  - intros p Hp. apply Publish_stores in Hp. subst p. cbn.
    now split.
Qed.

(** The track "  INTERNAL " and the package name " com.sample.app ". *)
Lemma Publish_normalises_track_and_package_name_witness :
  let fsys := Mock.memFs [("auth.json", []); ("bin.aab", [x01])]%string in
  Publish fsys " com.sample.app " "  INTERNAL " "auth.json" [Binary "bin.aab"]
    false false
  = Ok (mkPublish "com.sample.app" "internal" "auth.json" [Binary "bin.aab"]
          false false fsys).
Proof.
  intros fsys.
  refine (proj1 (proj2
    (Publish_normalises_track_and_package_name fsys " com.sample.app "
       "auth.json" [Binary "bin.aab"] false false [" "; " "]%string
       [" "]%string "INTERNAL" "internal" _ _ _ _)) (mkFileInfo 0) _ _ _ _).
  - now left.
  - repeat constructor; vm_compute; tauto.
  - repeat constructor; vm_compute; tauto.
  - reflexivity.
  - reflexivity.
  - discriminate.
  - discriminate.
  - constructor; [|constructor].
    split; [now exists (mkFileInfo 1)|now left].
Defined.

(** The same track between a no-break space (U+00A0) and an ideographic
    space (U+3000). *)
Example normalise_unicode_white_space :
  strings.TrimSpace
    (strings.ToLower
       (joined [strings.utf8 0xA0] ++ "Internal"
        ++ joined [strings.utf8 0x3000; " "]%string))
  = "internal"%string.
Proof. vm_compute. reflexivity. Qed.

(* ================================================================= *)
(** ** Validation: unsupported tracks *)


(** The error names a track only when the checks before the one of the
    track pass: without the authentication file it is the error of that
    file. *)
Example unsupported_track_named_fails_on_missing_auth_file :
  ~ unsupported_track_named (Mock.memFs [("bin.aab", [x01])]%string)
      "com.sample.app" "production" "auth.json" [Binary "bin.aab"] false
      false.
Proof.
  intros H. destruct H as (e & He & Hn & _).
  - intros [H|[H|[H|[]]]]; discriminate.
  - vm_compute in He. injection He as <-. vm_compute in Hn. discriminate.
Qed.

(** With a blank package name it is the error of the package name. *)
Example unsupported_track_named_fails_on_blank_package_name :
  ~ unsupported_track_named
      (Mock.memFs [("auth.json", []); ("bin.aab", [x01])]%string)
      "  " "production" "auth.json" [Binary "bin.aab"] false false.
Proof.
  intros H. destruct H as (e & He & Hn & _).
  - intros [H|[H|[H|[]]]]; discriminate.
  - vm_compute in He. injection He as <-. vm_compute in Hn. discriminate.
Qed.

(** The value named is the track trimmed and in lower case, not the track
    as it was passed. *)
Example unsupported_track_named_fails_on_capitals :
  ~ unsupported_track_named
      (Mock.memFs [("auth.json", []); ("bin.aab", [x01])]%string)
      "com.sample.app" "Production" "auth.json" [Binary "bin.aab"] false
      false.
Proof.
  intros H. destruct H as (e & He & Hn & _).
  - intros [H|[H|[H|[]]]]; discriminate.
  - vm_compute in He. injection He as <-. vm_compute in Hn. discriminate.
Qed.



(* ================================================================= *)
(** ** Validation: missing files *)


(** With two missing binaries the error names the first and not the
    second. *)
Example missing_path_named_fails_on_second_missing_path :
  ~ missing_path_named (Mock.memFs [("auth.json", [])]%string)
      "com.sample.app" "internal" "auth.json"
      [Binary "one.aab"; Binary "two.aab"] false false.
Proof.
  intros H.
  destruct (H (Binary "two.aab") "two.aab"%string) as (e & He & Hn).
  - right. now left.
  - now left.
  - intros info. discriminate.
  - vm_compute in He. injection He as <-. vm_compute in Hn. discriminate.
Qed.

(** With an unsupported track the error is the one of the track. *)
Example missing_path_named_fails_on_unsupported_track :
  ~ missing_path_named (Mock.memFs [("auth.json", [])]%string)
      "com.sample.app" "production" "auth.json" [Binary "bin.aab"] false
      false.
Proof.
  intros H.
  destruct (H (Binary "bin.aab") "bin.aab"%string) as (e & He & Hn).
  - now left.
  - now left.
  - intros info. discriminate.
  - vm_compute in He. injection He as <-. vm_compute in Hn. discriminate.
Qed.



(* ================================================================= *)
(** * Further properties *)

(** ** Validation: the package name, the file list, and what is accepted *)



(** When [Publish] accepts, and what it then returns. *)
Lemma Publish_Ok_iff
    (fsys : Fs) (pkg trk authFile : string) (fl : list binary)
    (apk verbose : bool) (p : publish) :
  Publish fsys pkg trk authFile fl apk verbose = Ok p
  <-> ((exists info, Stat fsys authFile = Ok info)
       /\ strings.TrimSpace pkg <> ""%string
       /\ In (strings.TrimSpace (strings.ToLower trk)) supportedTracks
       /\ fl <> []
       /\ Forall (present fsys) fl
       /\ p = mkPublish (strings.TrimSpace pkg)
                (strings.TrimSpace (strings.ToLower trk)) authFile fl apk
                verbose fsys).
Proof.
  split.
  - intros H. pose proof (Publish_stores _ _ _ _ _ _ _ _ H) as Hp.
    pose proof (Publish_Ok_files _ _ _ _ _ _ _ _ H) as Hfl.
    unfold Publish, fileExits in H. cbn [fs] in H.
    destruct (Stat fsys authFile) as [info|e] eqn:Ha; [|discriminate].
    cbn [negb] in H.
    destruct (String.eqb_spec (strings.TrimSpace pkg) "") as [Hn|Hn];
      [discriminate|].
    destruct (String.eqb_spec (strings.TrimSpace (strings.ToLower trk)) "")
      as [Ht|Ht]; [discriminate|].
    destruct (String.eqb_spec (strings.TrimSpace (strings.ToLower trk))
                TrackBeta) as [Hb|Hb].
    2: destruct (String.eqb_spec (strings.TrimSpace (strings.ToLower trk))
                   TrackAlpha) as [Hal|Hal].
    3: destruct (String.eqb_spec (strings.TrimSpace (strings.ToLower trk))
                   TrackInternal) as [Hi|Hi]; [|discriminate].
    all: (split; [now exists info|]); (split; [exact Hn|]);
      (split; [first [rewrite Hb|rewrite Hal|rewrite Hi]; cbn; tauto|]);
      (split; [now destruct fl|]); now split.
  - intros ([info Ha] & Hs & Ht & Hfl & Hall & ->).
    rewrite (Publish_files_checks fsys pkg trk authFile fl apk verbose info
               Ha Hs Ht).
    destruct fl as [|f fl']; [now elim Hfl|].
    apply (checkFiles_None (mkPublish "" "" "" [] false verbose fsys)) in Hall.
    now rewrite Hall.
Qed.

(** X2: for a track of ASCII characters, [Publish] accepts a request
    exactly when the authentication file exists, the package name is not
    blank (it does not trim to nothing), the track trimmed and in lower
    case is one of internal, alpha, beta, the file list is not empty and
    every listed binary and given mapping exists; the value it returns
    holds the trimmed package name, the normalised track and the other
    arguments as they were passed; in every other case it returns an
    error. *)
Theorem Publish_accepts_exactly_valid_requests
    (fsys : Fs) (pkg trk auth : string) (fl : list binary)
    (isApk verb : bool) :
  isAscii trk = true ->
  let valid :=
    (exists info, Stat fsys auth = Ok info)
    /\ strings.TrimSpace pkg <> ""%string
    /\ In (strings.TrimSpace (strings.ToLower trk)) supportedTracks
    /\ fl <> []
    /\ Forall (present fsys) fl in
  (valid ->
   Publish fsys pkg trk auth fl isApk verb
   = Ok (mkPublish (strings.TrimSpace pkg)
           (strings.TrimSpace (strings.ToLower trk)) auth fl isApk verb fsys))
  /\ (~ valid -> exists e, Publish fsys pkg trk auth fl isApk verb = Err e)
  /\ (forall p, Publish fsys pkg trk auth fl isApk verb = Ok p -> valid).
Proof.
  intros _ valid. split; [|split].
  - intros (Ha & Hs & Ht & Hfl & Hall). apply Publish_Ok_iff.
    repeat split; assumption.
  - intros Hnot.
    destruct (Publish fsys pkg trk auth fl isApk verb) as [p|e] eqn:Hp;
      [|now exists e].
    elim Hnot. apply Publish_Ok_iff in Hp as (Ha & Hs & Ht & Hfl & Hall & _).
    repeat split; assumption.
  - intros p Hp.
    apply Publish_Ok_iff in Hp as (Ha & Hs & Ht & Hfl & Hall & _).
    repeat split; assumption.
Qed.

(** A package name that is a no-break space (U+00A0) is blank. *)
Lemma Publish_accepts_exactly_valid_requests_witness :
  exists e,
    Publish (Mock.memFs [("auth.json", []); ("bin.aab", [])]%string)
      (strings.utf8 0xA0) "internal" "auth.json" [Binary "bin.aab"] false
      false = Err e.
Proof.
  refine (proj1 (proj2
    (Publish_accepts_exactly_valid_requests
       (Mock.memFs [("auth.json", []); ("bin.aab", [])]%string)
       (strings.utf8 0xA0) "internal" "auth.json" [Binary "bin.aab"] false
       false _)) _).
  - reflexivity.
  - intros (_ & Hblank & _). now apply Hblank.
Defined.

(** X3: when the earlier checks pass (the authentication file exists, the
    package name does not trim to nothing, the track is supported), an
    empty file list is rejected with the error "no files to upload
    provided". *)
Theorem Publish_empty_file_list_rejected
    (fsys : Fs) (pkg trk authFile : string) (apk verbose : bool)
    (info : FileInfo) :
  Stat fsys authFile = Ok info ->
  strings.TrimSpace pkg <> ""%string ->
  In (strings.TrimSpace (strings.ToLower trk)) supportedTracks ->
  Publish fsys pkg trk authFile [] apk verbose
  = Err (errorString "no files to upload provided").
Proof.
  intros Ha Hs Ht.
  now rewrite (Publish_files_checks fsys pkg trk authFile [] apk verbose info
                 Ha Hs Ht).
Qed.

Lemma Publish_empty_file_list_rejected_witness :
  Publish (Mock.memFs [("auth.json", [])]%string) "com.sample.app" "Beta"
    "auth.json" [] true false
  = Err (errorString "no files to upload provided").
Proof.
  apply (Publish_empty_file_list_rejected
           (Mock.memFs [("auth.json", [])]%string) "com.sample.app" "Beta"
           "auth.json" true false (mkFileInfo 0)).
  - reflexivity.
  - discriminate.
  - right. right. now left.
Defined.

(** X4: a request that [Publish] accepted is accepted again, unchanged,
    when its stored values are validated a second time on the same file
    system: the stored package name and track are already in normal
    form. *)
Theorem Publish_accepted_values_revalidate
    (fsys : Fs) (pkg trk auth : string) (fl : list binary)
    (isApk verb : bool) (p : publish) :
  Publish fsys pkg trk auth fl isApk verb = Ok p ->
  Publish (fs p) (packageName p) (track p) (authFile p) (files p) (apk p)
    (verbose p) = Ok p.
Proof.
  intros H.
  apply Publish_Ok_iff in H as (Ha & Hs & Ht & Hfl & Hall & ->).
  cbn [fs packageName track authFile files apk verbose].
  apply Publish_Ok_iff.
  split; [exact Ha|]. rewrite TrimSpace_idempotent.
  split; [exact Hs|].
  destruct Ht as [E|[E|[E|[]]]]; rewrite <- E;
    (split; [cbn; tauto|]); (split; [exact Hfl|]); (split; [exact Hall|]);
    reflexivity.
Qed.

(** The test "given all files are present and valid, should return
    publish", with white space around the package name and capitals in the
    track. *)
Lemma Publish_accepted_values_revalidate_witness :
  let fsys := Mock.memFs [("auth.json", []); ("bin.aab", []);
                          ("mapping.txt", [])]%string in
  let p := mkPublish "com.sample.app" "internal" "auth.json"
             [BinaryWithMapping "bin.aab" "mapping.txt"] false false fsys in
  Publish fsys "com.sample.app" "internal" "auth.json"
    [BinaryWithMapping "bin.aab" "mapping.txt"] false false = Ok p.
Proof.
  intros fsys p.
  apply (Publish_accepted_values_revalidate fsys " com.sample.app " "Internal"
           "auth.json" [BinaryWithMapping "bin.aab" "mapping.txt"] false false
           p).
  reflexivity.
Defined.

(* ================================================================= *)
(** ** The calls of a run: order, arguments, content *)

Lemma fileSha256_openAt0_Ok (fl : File) (h : string) (r : ReadSeeker) :
  fileSha256 (openAt0 fl) = (Ok h, r) ->
  r = openAt0 fl /\ h = Hex.EncodeToString (Sha256.Sum (content fl)).
Proof.
  unfold fileSha256, openAt0, remaining. cbn [file offset skipn].
  destruct (readErr fl); [discriminate|].
  destruct (seekErr fl); [discriminate|].
  intros H. injection H as <- <-. now split.
Qed.

(** What holds of each call made by [upload] and [uploadMapping]. *)
Lemma binary_run_calls (p : publish) (edit : string) (f : binary)
    (cs : list call) (e : ending) :
  In f (files p) ->
  binary_run p edit (filePath f) cs e ->
  Forall (fun c => isUploadCall c = true
                   /\ call_package c = packageName p
                   /\ call_edit c = Some edit
                   /\ delivers p c) cs.
Proof.
  intros Hin H.
  destruct H as [ | | | fl local r info err Ho Hh Hs
                  | fl local r info v remote Ho Hh Hs Hne
                  | fl local r info v Ho Hh Hs ];
    try constructor; try constructor;
    apply fileSha256_openAt0_Ok in Hh as [-> _];
    unfold binCall; destruct (apk p); cbn;
    (repeat split; try reflexivity); now exists f, fl, info.
Qed.

Lemma mapping_run_calls (p : publish) (edit : string) (f : binary) (v : Z)
    (ms : list call) (res : option error) :
  In f (files p) ->
  mappingPath f <> ""%string ->
  mapping_run p edit (mappingPath f) v ms res ->
  Forall (fun c => isUploadCall c = true
                   /\ call_package c = packageName p
                   /\ call_edit c = Some edit
                   /\ delivers p c) ms.
Proof.
  intros Hin Hm H. destruct H as [|fl res Ho]; constructor; [|constructor].
  cbn. repeat split; try reflexivity. now exists f, fl.
Qed.

(** Every call of the loop is an upload of a listed file or the
    [deleteEdit], for the package and the edit of the run. *)
Lemma loop_run_calls (p : publish) (edit : string) (fl : list binary)
    (cs : list call) (fin : loop_end) :
  loop_run p edit fl cs fin ->
  incl fl (files p) ->
  Forall (fun c => (isUploadCall c = true \/ method_of c = MDeleteEdit)
                   /\ call_package c = packageName p
                   /\ call_edit c = Some edit
                   /\ delivers p c) cs.
Proof.
  assert (Hweak : forall l,
             Forall (fun c => isUploadCall c = true
                              /\ call_package c = packageName p
                              /\ call_edit c = Some edit
                              /\ delivers p c) l ->
             Forall (fun c => (isUploadCall c = true
                               \/ method_of c = MDeleteEdit)
                              /\ call_package c = packageName p
                              /\ call_edit c = Some edit
                              /\ delivers p c) l).
  { intros l. apply Forall_impl. intros c (H1 & H2 & H3 & H4).
    repeat split; try assumption. now left. }
  assert (Hdel : forall res,
             Forall (fun c => (isUploadCall c = true
                               \/ method_of c = MDeleteEdit)
                              /\ call_package c = packageName p
                              /\ call_edit c = Some edit
                              /\ delivers p c)
               [DeleteEdit (packageName p) edit res]).
  { intros res. constructor; [|constructor]. cbn. repeat split. now right. }
  induction 1 as [ | f rest cs err res Hb | f rest cs e Hb
                   | f rest cs v cs' fin Hb Hm Hl IH
                   | f rest cs v ms err res Hb Hm Hmr
                   | f rest cs v ms cs' fin Hb Hm Hmr Hl IH ];
    intros Hincl;
    try (assert (Hf : In f (files p)) by (apply Hincl; now left));
    try (assert (Hrest : incl rest (files p))
          by (intros x Hx; apply Hincl; now right)).
  - constructor.
  - apply Forall_app. split; [|apply Hdel].
    eapply Hweak, binary_run_calls; eassumption.
  - eapply Hweak, binary_run_calls; eassumption.
  - apply Forall_app. split; [|now apply IH].
    eapply Hweak, binary_run_calls; eassumption.
  - apply Forall_app. split; [|apply Forall_app; split; [|apply Hdel]].
    + eapply Hweak, binary_run_calls; eassumption.
    + eapply Hweak, mapping_run_calls; eassumption.
  - apply Forall_app. split; [|apply Forall_app; split; [|now apply IH]].
    + eapply Hweak, binary_run_calls; eassumption.
    + eapply Hweak, mapping_run_calls; eassumption.
Qed.

(** X5: every call that a run of [UploadFiles] makes carries the package
    name of the request, and every call after [createEdit] carries the
    edit id that [createEdit] returned. *)
Theorem UploadFiles_calls_use_package_and_edit
    {St : Type} (gs : IGService St) (p : publish) (s : St) :
  let run := UploadFiles p (Some (traced gs)) (s, []) in
  let log := snd (snd run) in
  Forall (fun c => call_package c = packageName p) log
  /\ (forall edit,
        fst (createEdit gs (packageName p) s) = Ok edit ->
        Forall (fun c => call_edit c = Some edit) (tl log)).
Proof.
  intros run log. subst log.
  pose proof (UploadFiles_traced gs p s) as Hrun. cbn zeta in Hrun.
  fold run in Hrun.
  assert (Hloop : forall edit cs fin,
             loop_run p edit (files p) cs fin ->
             Forall (fun c => call_package c = packageName p) cs
             /\ Forall (fun c => call_edit c = Some edit) cs).
  { intros edit cs fin H.
    pose proof (loop_run_calls _ _ _ _ _ H (incl_refl _)) as Hc.
    split; eapply Forall_impl; try exact Hc; cbn; intros c Hx; tauto. }
  inversion Hrun as [ err Hc Hlog Hout
                    | edit cs err Hl Hc Hlog Hout
                    | edit cs e Hl Hc Hlog Hout
                    | edit cs err res Hl Hc Hlog Hout
                    | edit cs err res Hl Hc Hlog Hout
                    | edit cs Hl Hc Hlog Hout ];
    try (destruct (Hloop _ _ _ Hl) as [Hp He]).
  - split; [now repeat constructor|]. intros edit Hed. constructor.
  - split; [now constructor|].
    intros ed Hed. cbn [tl]. assert (ed = edit) as -> by congruence.
    exact He.
  - split; [now constructor|].
    intros ed Hed. cbn [tl]. assert (ed = edit) as -> by congruence.
    exact He.
  - split.
    + constructor; [reflexivity|]. apply Forall_app. split; [exact Hp|].
      now repeat constructor.
    + intros ed Hed. cbn [tl]. assert (ed = edit) as -> by congruence.
      apply Forall_app. split; [exact He|]. now repeat constructor.
  - split.
    + constructor; [reflexivity|]. apply Forall_app. split; [exact Hp|].
      now repeat constructor.
    + intros ed Hed. cbn [tl]. assert (ed = edit) as -> by congruence.
      apply Forall_app. split; [exact He|]. now repeat constructor.
  - split.
    + constructor; [reflexivity|]. apply Forall_app. split; [exact Hp|].
      now repeat constructor.
    + intros ed Hed. cbn [tl]. assert (ed = edit) as -> by congruence.
      apply Forall_app. split; [exact He|]. now repeat constructor.
Qed.

(** X6: every upload call of a run hands the service a listed file from
    its first byte, so the bytes the service can read are all the bytes of
    the file: for a binary upload the binary of an entry of the request
    (the bytes that were hashed), for a mapping upload the mapping of an
    entry that has one. *)
Theorem UploadFiles_uploads_deliver_listed_files
    {St : Type} (gs : IGService St) (p : publish) (s : St) :
  let run := UploadFiles p (Some (traced gs)) (s, []) in
  let log := snd (snd run) in
  Forall (delivers p) log
  /\ (forall r pkg e res,
        In (UploadBundle r pkg e res) log \/ In (UploadApk r pkg e res) log ->
        exists f fl,
          In f (files p) /\ Open (fs p) (filePath f) = Ok fl
          /\ readAll r = content fl)
  /\ (forall r pkg e v res,
        In (UploadProguardMapping r pkg e v res) log ->
        exists f fl,
          In f (files p) /\ Open (fs p) (mappingPath f) = Ok fl
          /\ readAll r = content fl).
Proof.
  intros run log. subst log.
  pose proof (UploadFiles_traced gs p s) as Hrun. cbn zeta in Hrun.
  fold run in Hrun.
  assert (Hall : Forall (delivers p) (snd (snd run))).
  { assert (Hloop : forall edit cs fin,
               loop_run p edit (files p) cs fin -> Forall (delivers p) cs).
    { intros edit cs fin H.
      pose proof (loop_run_calls _ _ _ _ _ H (incl_refl _)) as Hc.
      eapply Forall_impl; try exact Hc; cbn; intros c Hx; tauto. }
    inversion Hrun as [ err Hc Hlog Hout
                      | edit cs err Hl Hc Hlog Hout
                      | edit cs e Hl Hc Hlog Hout
                      | edit cs err res Hl Hc Hlog Hout
                      | edit cs err res Hl Hc Hlog Hout
                      | edit cs Hl Hc Hlog Hout ];
      try (pose proof (Hloop _ _ _ Hl) as Hd);
      repeat first [ apply Forall_cons; [exact I|]
                   | apply Forall_app; split; [exact Hd|]
                   | exact Hd | apply Forall_nil ]. }
  split; [exact Hall|]. rewrite Forall_forall in Hall. split.
  - intros r pkg e res [Hin|Hin]; apply Hall in Hin;
      destruct Hin as (f & fl & info & Hf & Ho & _ & ->);
      exists f, fl; repeat split; assumption.
  - intros r pkg e v res Hin. apply Hall in Hin.
    destruct Hin as (f & fl & Hf & _ & Ho & ->).
    exists f, fl. repeat split; assumption.
Qed.

(* ================================================================= *)
(** ** The calls of a run: stopping at the first failure *)





(* ================================================================= *)
(** ** The calls of a run: the order of the edit life cycle *)

Lemma loop_run_completed (p : publish) (edit : string) (fl : list binary)
    (cs : list call) :
  loop_run p edit fl cs Completed ->
  Forall (fun c => isUploadCall c = true /\ failed_call c = None) cs
  /\ exists vs,
       List.length vs = List.length fl
       /\ uploadCalls cs = processedCalls (apk p) fl vs.
Proof.
  intros H. split.
  - pose proof (loop_run_completed_calls_ok _ _ _ _ _ H eq_refl) as Hok.
    remember Completed as fin eqn:Hfin.
    induction H as [ | f rest cs err res Hb | f rest cs e Hb
                     | f rest cs v cs' fin Hb Hm Hl IH
                     | f rest cs v ms err res Hb Hm Hmr
                     | f rest cs v ms cs' fin Hb Hm Hmr Hl IH ];
      try discriminate.
    + constructor.
    + apply Forall_app in Hok as [Hok1 Hok2].
      apply Forall_app. split; [|now apply IH].
      inversion Hb; subst. constructor; [|constructor].
      unfold binCall. destruct (apk p); now split.
    + apply Forall_app in Hok as [Hok1 Hok2].
      apply Forall_app in Hok2 as [Hok2 Hok3].
      apply Forall_app. split; [|apply Forall_app; split; [|now apply IH]].
      * inversion Hb; subst. constructor; [|constructor].
        unfold binCall. destruct (apk p); now split.
      * inversion Hmr; subst. constructor; [|constructor]. now split.
  - destruct (loop_run_uploadCalls _ _ _ _ _ H)
      as (done & rest & vs & tail & -> & Hlen & Hcs & Hfin & _).
    destruct (Hfin eq_refl) as [-> ->]. rewrite !app_nil_r in *.
    now exists vs.
Qed.

(** X8: in a run of [UploadFiles] that returns no error the calls come in
    the order of the edit life cycle: [createEdit] first, then only
    upload calls, then [validateEdit], and [commitEdit] last. *)
Theorem UploadFiles_success_call_order
    {St : Type} (gs : IGService St) (p : publish) (s : St) :
  let run := UploadFiles p (Some (traced gs)) (s, []) in
  fst run = Return None ->
  let log := snd (snd run) in
  exists edit ups,
    log = CreateEdit (packageName p) (Ok edit)
            :: ups ++ [ValidateEdit (packageName p) edit None;
                       CommitEdit (packageName p) edit None]
    /\ Forall (fun c => isUploadCall c = true) ups.
Proof.
  intros run Hret log. subst log.
  pose proof (UploadFiles_traced gs p s) as Hrun. cbn zeta in Hrun.
  fold run in Hrun. rewrite Hret in Hrun.
  inversion Hrun as [ | | | | | edit cs Hl Hc Hlog Hout ].
  exists edit, cs. split; [reflexivity|].
  destruct (loop_run_completed _ _ _ _ Hl) as [Hall _].
  eapply Forall_impl; [|exact Hall]. cbn. tauto.
Qed.

Lemma UploadFiles_success_call_order_witness :
  let p := mkPublish "com.sample.app" "internal" "auth.json"
             [BinaryWithMapping "app.aab" "mapping.txt"] false false
             (Mock.memFs [("app.aab", [x0a]); ("mapping.txt", [x0b])]%string) in
  let run := UploadFiles p (Some (traced (Fake.service Fake.none))) (tt, []) in
  exists edit ups,
    snd (snd run)
    = CreateEdit "com.sample.app" (Ok edit)
        :: ups ++ [ValidateEdit "com.sample.app" edit None;
                   CommitEdit "com.sample.app" edit None]
    /\ Forall (fun c => isUploadCall c = true) ups.
Proof.
  intros p.
  apply (UploadFiles_success_call_order (Fake.service Fake.none) p tt).
  vm_compute. reflexivity.
Defined.

Lemma loop_run_no_commit (p : publish) (edit : string) (fl : list binary)
    (cs : list call) (fin : loop_end) (pkg ed : string)
    (res : option error) :
  loop_run p edit fl cs fin ->
  incl fl (files p) ->
  ~ In (CommitEdit pkg ed res) cs.
Proof.
  intros H Hincl Hin.
  pose proof (loop_run_calls _ _ _ _ _ H Hincl) as Hall.
  rewrite Forall_forall in Hall. destruct (Hall _ Hin) as [[Hu|Hd] _];
    discriminate.
Qed.

(** X9: in every run of [UploadFiles], [commitEdit] is called at most
    once, and only directly after a [validateEdit] that returned no
    error, which itself comes after [createEdit] and the upload calls of
    all the files of the request, none of which failed. *)
Theorem UploadFiles_commit_after_uploads_and_validate
    {St : Type} (gs : IGService St) (p : publish) (s : St) :
  let run := UploadFiles p (Some (traced gs)) (s, []) in
  let log := snd (snd run) in
  (calls MCommitEdit log <= 1)%nat
  /\ (forall pkg ed res,
        In (CommitEdit pkg ed res) log ->
        exists ups vs after,
          log = CreateEdit (packageName p) (Ok ed)
                  :: ups ++ ValidateEdit (packageName p) ed None
                  :: CommitEdit (packageName p) ed res :: after
          /\ pkg = packageName p
          /\ Forall (fun c => isUploadCall c = true /\ failed_call c = None)
               ups
          /\ List.length vs = List.length (files p)
          /\ uploadCalls ups = processedCalls (apk p) (files p) vs).
Proof.
  intros run log. subst log.
  pose proof (UploadFiles_traced gs p s) as Hrun. cbn zeta in Hrun.
  fold run in Hrun.
  inversion Hrun as [ err Hc Hlog Hout
                    | edit cs err Hl Hc Hlog Hout
                    | edit cs e Hl Hc Hlog Hout
                    | edit cs err res0 Hl Hc Hlog Hout
                    | edit cs err res0 Hl Hc Hlog Hout
                    | edit cs Hl Hc Hlog Hout ];
    try (pose proof (loop_run_edit_calls _ _ _ _ _ Hl) as (_ & _ & Hco & _));
    try change (CreateEdit (packageName p) (Ok edit) :: cs ++ ?l)
          with ([CreateEdit (packageName p) (Ok edit)] ++ cs ++ l);
    try change (CreateEdit (packageName p) (Ok edit) :: cs)
          with ([CreateEdit (packageName p) (Ok edit)] ++ cs);
    rewrite ?calls_app, ?Hco; (split; [cbn; lia|]);
    intros pkg ed res Hin.
  - destruct Hin as [Hin|[]]; discriminate.
  - apply in_app_or in Hin as [[Hin|[]]|Hin]; [discriminate|].
    now elim (loop_run_no_commit _ _ _ _ _ pkg ed res Hl (incl_refl _)).
  - apply in_app_or in Hin as [[Hin|[]]|Hin]; [discriminate|].
    now elim (loop_run_no_commit _ _ _ _ _ pkg ed res Hl (incl_refl _)).
  - apply in_app_or in Hin as [[Hin|[]]|Hin]; [discriminate|].
    apply in_app_or in Hin as [Hin|Hin];
      [now elim (loop_run_no_commit _ _ _ _ _ pkg ed res Hl (incl_refl _))|].
    destruct Hin as [Hin|[Hin|[]]]; discriminate.
  - apply in_app_or in Hin as [[Hin|[]]|Hin]; [discriminate|].
    apply in_app_or in Hin as [Hin|Hin];
      [now elim (loop_run_no_commit _ _ _ _ _ pkg ed res Hl (incl_refl _))|].
    destruct Hin as [Hin|[Hin|[Hin|[]]]]; try discriminate.
    injection Hin as <- <- <-.
    destruct (loop_run_completed _ _ _ _ Hl) as [Hall (vs & Hlen & Hup)].
    exists cs, vs, [DeleteEdit (packageName p) edit res0].
    repeat split; assumption.
  - apply in_app_or in Hin as [[Hin|[]]|Hin]; [discriminate|].
    apply in_app_or in Hin as [Hin|Hin];
      [now elim (loop_run_no_commit _ _ _ _ _ pkg ed res Hl (incl_refl _))|].
    destruct Hin as [Hin|[Hin|[]]]; try discriminate.
    injection Hin as <- <- <-.
    destruct (loop_run_completed _ _ _ _ Hl) as [Hall (vs & Hlen & Hup)].
    exists cs, vs, []. repeat split; assumption.
Qed.

(* ================================================================= *)
(** ** The calls of a run: how many uploads *)

Lemma binary_run_counts (p : publish) (edit path : string) (cs : list call)
    (e : ending) :
  binary_run p edit path cs e ->
  calls MCreateDraft cs = 0%nat
  /\ calls (binMethod (negb (apk p))) cs = 0%nat
  /\ calls MUploadProguardMapping cs = 0%nat
  /\ (calls (binMethod (apk p)) cs <= 1)%nat
  /\ (forall v, e = Done v -> calls (binMethod (apk p)) cs = 1%nat).
Proof.
  intros H. destruct H; unfold binCall, binMethod; destruct (apk p); cbn;
    repeat split; try lia; try discriminate; reflexivity.
Qed.

Lemma mapping_run_counts (p : publish) (edit path : string) (v : Z)
    (ms : list call) (res : option error) :
  mapping_run p edit path v ms res ->
  calls MCreateDraft ms = 0%nat
  /\ (forall b, calls (binMethod b) ms = 0%nat)
  /\ (calls MUploadProguardMapping ms <= 1)%nat
  /\ (res = None -> calls MUploadProguardMapping ms = 1%nat).
Proof.
  intros H. destruct H; cbn; repeat split; try lia; try discriminate;
    try (intros b; now destruct b).
Qed.

Lemma loop_run_counts (p : publish) (edit : string) (fl : list binary)
    (cs : list call) (fin : loop_end) :
  loop_run p edit fl cs fin ->
  calls MCreateDraft cs = 0%nat
  /\ calls (binMethod (negb (apk p))) cs = 0%nat
  /\ (calls (binMethod (apk p)) cs <= List.length fl)%nat
  /\ (calls MUploadProguardMapping cs
      <= List.length (filter hasMapping fl))%nat
  /\ (fin = Completed ->
      calls (binMethod (apk p)) cs = List.length fl
      /\ calls MUploadProguardMapping cs
         = List.length (filter hasMapping fl)).
Proof.
  assert (Hdel : forall res m,
             editMethod m = false ->
             calls m [DeleteEdit (packageName p) edit res] = 0%nat).
  { intros res m Hm. destruct m; try discriminate; reflexivity. }
  assert (Hbm : forall b, editMethod (binMethod b) = false)
    by (intros b; now destruct b).
  induction 1 as [ | f rest cs err res Hb | f rest cs e Hb
                   | f rest cs v cs' fin Hb Hm Hl IH
                   | f rest cs v ms err res Hb Hm Hmr
                   | f rest cs v ms cs' fin Hb Hm Hmr Hl IH ];
    try (destruct (binary_run_counts _ _ _ _ _ Hb)
          as (Hb1 & Hb2 & Hb3 & Hb4 & Hb5));
    try (destruct (mapping_run_counts _ _ _ _ _ _ Hmr)
          as (Hm1 & Hm2 & Hm3 & Hm4));
    try (destruct IH as (I1 & I2 & I3 & I4 & I5));
    cbn [filter];
    rewrite ?calls_app, ?Hdel, ?Hb1, ?Hb2, ?Hb3, ?Hm1, ?Hm2, ?I1, ?I2
      by (reflexivity || apply Hbm).
  - repeat split; try reflexivity; cbn; lia.
  - cbn [List.length]. repeat split; try lia; easy.
  - cbn [List.length]. repeat split; try lia; easy.
  - assert (Hh : hasMapping f = false)
      by (unfold hasMapping; now rewrite Hm).
    rewrite Hh, (Hb5 v eq_refl). cbn [List.length].
    repeat split; try lia;
      match goal with H : fin = Completed |- _ => destruct (I5 H); lia end.
  - assert (Hh : hasMapping f = true).
    { unfold hasMapping. apply String.eqb_neq in Hm. now rewrite Hm. }
    rewrite Hh. cbn [List.length]. repeat split; try lia; easy.
  - assert (Hh : hasMapping f = true).
    { unfold hasMapping. apply String.eqb_neq in Hm. now rewrite Hm. }
    rewrite Hh, (Hb5 v eq_refl), (Hm4 eq_refl). cbn [List.length].
    repeat split; try lia;
      match goal with H : fin = Completed |- _ => destruct (I5 H); lia end.
Qed.

(** X10: no run of [UploadFiles] calls [createDraft] or the binary upload
    that the flag does not select ([uploadBundle] when the flag is set,
    [uploadApk] when it is not); it makes at most one binary upload per
    file and at most one mapping upload per file that has a mapping; and
    a run that returns no error has made exactly that many. *)
Theorem UploadFiles_upload_call_counts
    {St : Type} (gs : IGService St) (p : publish) (s : St) :
  let run := UploadFiles p (Some (traced gs)) (s, []) in
  let log := snd (snd run) in
  calls MCreateDraft log = 0%nat
  /\ calls (binMethod (negb (apk p))) log = 0%nat
  /\ (calls (binMethod (apk p)) log <= List.length (files p))%nat
  /\ (calls MUploadProguardMapping log
      <= List.length (filter hasMapping (files p)))%nat
  /\ (fst run = Return None ->
      calls (binMethod (apk p)) log = List.length (files p)
      /\ calls MUploadProguardMapping log
         = List.length (filter hasMapping (files p))).
Proof.
  intros run log. subst log.
  pose proof (UploadFiles_traced gs p s) as Hrun. cbn zeta in Hrun.
  fold run in Hrun.
  assert (Hbm : forall b c, editMethod (method_of c) = true ->
                            calls (binMethod b) [c] = 0%nat).
  { intros b c Hc. unfold calls. cbn.
    destruct b, (method_of c); try discriminate; reflexivity. }
  assert (Hother : forall m c, editMethod m = false ->
                               editMethod (method_of c) = true ->
                               calls m [c] = 0%nat).
  { intros m c Hm Hc. unfold calls. cbn.
    destruct m, (method_of c); try discriminate; reflexivity. }
  inversion Hrun as [ err Hc Hlog Hout
                    | edit cs err Hl Hc Hlog Hout
                    | edit cs e Hl Hc Hlog Hout
                    | edit cs err res0 Hl Hc Hlog Hout
                    | edit cs err res0 Hl Hc Hlog Hout
                    | edit cs Hl Hc Hlog Hout ];
    try (destruct (loop_run_counts _ _ _ _ _ Hl)
          as (L1 & L2 & L3 & L4 & L5));
    repeat match goal with
           | |- context [?c :: ?l] =>
               lazymatch l with
               | [] => fail
               | _ => change (c :: l) with ([c] ++ l)
               end
           end;
    rewrite ?calls_app, ?Hbm, ?L1, ?L2 by reflexivity;
    rewrite ?(Hother MCreateDraft), ?(Hother MUploadProguardMapping)
      by reflexivity;
    try (destruct (L5 eq_refl) as [L6 L7]);
    repeat split; try lia; try discriminate.
Qed.

(* ================================================================= *)
(** ** The end of the process inside a run *)

Lemma loop_run_killed (p : publish) (edit : string) (fl : list binary)
    (cs : list call) (fin : loop_end) :
  loop_run p edit fl cs fin ->
  forall e, fin = Killed e ->
  exists f opened,
    In f fl
    /\ Open (fs p) (filePath f) = Ok opened
    /\ Stat (fs p) (filePath f) = Err e.
Proof.
  induction 1 as [ | f rest cs err res Hb | f rest cs e0 Hb
                   | f rest cs v cs' fin Hb Hm Hl IH
                   | f rest cs v ms err res Hb Hm Hmr
                   | f rest cs v ms cs' fin Hb Hm Hmr Hl IH ];
    intros e Hfin; try discriminate.
  - injection Hfin as ->. inversion Hb; subst.
    exists f. eexists. split; [now left|]. split; eassumption.
  - destruct (IH e Hfin) as (f' & opened & Hin & Ho & Hs).
    exists f', opened. split; [now right|]. now split.
  - destruct (IH e Hfin) as (f' & opened & Hin & Ho & Hs).
    exists f', opened. split; [now right|]. now split.
Qed.

(** X11: for a request that [Publish] accepted, on the file system it was
    validated on, [UploadFiles] always returns to its caller, with or
    without an error: the [log.Fatal] of [fileSize] is not reached,
    because every listed binary passed [Stat] at validation. *)
Theorem UploadFiles_after_Publish_returns
    {St : Type} (fsys : Fs) (pkg trk auth : string) (fl : list binary)
    (isApk verb : bool) (p : publish) (gs : option (IGService St)) (s : St) :
  Publish fsys pkg trk auth fl isApk verb = Ok p ->
  exists r, fst (UploadFiles p gs s) = Return r.
Proof.
  intros Hp. destruct gs as [gs|]; [|eexists; reflexivity].
  destruct (UploadFiles_erase gs p s []) as [Ho _]. rewrite <- Ho.
  pose proof (UploadFiles_traced gs p s) as Hrun. cbn zeta in Hrun.
  destruct (fst (UploadFiles p (Some (traced gs)) (s, []))) as [r|e] eqn:Hout;
    [now exists r|].
  inversion Hrun as [ | | edit cs e0 Hl Hc Hlog Hk | | | ]; subst.
  destruct (loop_run_killed _ _ _ _ _ Hl e eq_refl)
    as (f & opened & Hin & _ & Hs).
  apply Publish_Ok_iff in Hp as (_ & _ & _ & _ & Hall & ->).
  cbn [fs files] in *. rewrite Forall_forall in Hall.
  destruct (Hall f Hin) as [[info Hi] _]. congruence.
Qed.

Lemma UploadFiles_after_Publish_returns_witness :
  exists r,
    fst (UploadFiles
           (mkPublish "com.test.app" "internal" "auth.json"
              [Binary "test.apk"] true false
              (Mock.memFs [("auth.json", []); ("test.apk", [x01])]%string))
           (Some (Fake.service Fake.none)) tt)
    = Return r.
Proof.
  apply (UploadFiles_after_Publish_returns
           (Mock.memFs [("auth.json", []); ("test.apk", [x01])]%string)
           "com.test.app" "internal" "auth.json" [Binary "test.apk"] true
           false).
  reflexivity.
Defined.

(** X12: when a run of [UploadFiles] ends the process ([log.Fatal] in
    [fileSize]), [createEdit] had given an edit, a listed binary had been
    opened and [Stat] on its path failed, and the edit is left as it is:
    [deleteEdit], [validateEdit] and [commitEdit] are not called. *)
Theorem UploadFiles_exit_leaves_edit
    {St : Type} (gs : IGService St) (p : publish) (s : St) (e : error) :
  let run := UploadFiles p (Some (traced gs)) (s, []) in
  fst run = Exit e ->
  let log := snd (snd run) in
  (exists edit, fst (createEdit gs (packageName p) s) = Ok edit)
  /\ (exists f opened,
        In f (files p)
        /\ Open (fs p) (filePath f) = Ok opened
        /\ Stat (fs p) (filePath f) = Err e)
  /\ calls MDeleteEdit log = 0%nat
  /\ calls MValidateEdit log = 0%nat
  /\ calls MCommitEdit log = 0%nat.
Proof.
  intros run Hret log. subst log.
  pose proof (UploadFiles_traced gs p s) as Hrun. cbn zeta in Hrun.
  fold run in Hrun. rewrite Hret in Hrun.
  inversion Hrun as [ | | edit cs e0 Hl Hc Hlog Hk | | | ]; subst.
  split; [now exists edit|]. split.
  - apply (loop_run_killed _ _ _ _ _ Hl e eq_refl).
  - destruct (loop_run_edit_calls _ _ _ _ _ Hl) as (_ & Hv & Hco & Hd).
    change (CreateEdit (packageName p) (Ok edit) :: cs)
      with ([CreateEdit (packageName p) (Ok edit)] ++ cs).
    rewrite !calls_app, Hv, Hco, Hd. repeat split.
Qed.

(** A file system on which every file opens and every [Stat] fails. *)
Lemma UploadFiles_exit_leaves_edit_witness :
  let fsys := mkFs (fun _ => Err Mock.notExist)
                (fun _ => Ok (mkFile [x01] None None)) in
  let p := mkPublish "com.test.app" "internal" "auth.json"
             [Binary "test.apk"] true false fsys in
  let run :=
    UploadFiles p (Some (traced Mock.service)) (Some Mock.zero, []) in
  calls MDeleteEdit (snd (snd run)) = 0%nat
  /\ calls MValidateEdit (snd (snd run)) = 0%nat
  /\ calls MCommitEdit (snd (snd run)) = 0%nat.
Proof.
  intros fsys p.
  refine (proj2 (proj2
    (UploadFiles_exit_leaves_edit Mock.service p (Some Mock.zero)
       Mock.notExist _))).
  vm_compute. reflexivity.
Defined.

(* ================================================================= *)
(** ** [Binaries] and the flags of the command *)

Lemma fold_left_snoc {A B : Type} (g : A -> B) (l : list A) (acc : list B) :
  fold_left (fun b x => b ++ [g x]) l acc = acc ++ map g l.
Proof.
  revert acc. induction l as [|x l IH]; intros acc; cbn.
  - now rewrite app_nil_r.
  - rewrite IH, <- app_assoc. reflexivity.
Qed.

Lemma Binaries_map (rangeOrder : gomap -> gomap) (bins : gomap) :
  Binaries rangeOrder bins
  = map (fun kv => BinaryWithMapping (fst kv) (snd kv)) (rangeOrder bins).
Proof. unfold Binaries. now rewrite fold_left_snoc. Qed.

Lemma mapGet_None (m : gomap) (k : string) :
  mapGet m k = None <-> ~ In k (keys m).
Proof.
  induction m as [|[k' v'] m IH]; cbn; [tauto|].
  destruct (String.eqb_spec k' k) as [->|Hne].
  - split; [discriminate|]. intros H. elim H. now left.
  - rewrite IH. tauto.
Qed.

Lemma mapGet_In (m : gomap) (k v : string) :
  NoDup (keys m) -> (mapGet m k = Some v <-> In (k, v) m).
Proof.
  induction m as [|[k' v'] m IH]; cbn; intros Hnd.
  - split; [discriminate|tauto].
  - inversion Hnd as [|x l Hnotin Hnd']; subst.
    destruct (String.eqb_spec k' k) as [->|Hne].
    + split.
      * intros H. injection H as ->. now left.
      * intros [H|H]; [now injection H as ->|].
        elim Hnotin. apply (in_map fst) in H. exact H.
    + rewrite (IH Hnd'). split; [tauto|].
      intros [H|H]; [injection H as -> _; now elim Hne|exact H].
Qed.

Lemma mapGet_mapSet (m : gomap) (k v k' : string) :
  mapGet (mapSet m k v) k'
  = if String.eqb k k' then Some v else mapGet m k'.
Proof.
  induction m as [|[k0 v0] m IH]; cbn; [reflexivity|].
  destruct (String.eqb_spec k0 k) as [->|Hne]; cbn.
  - now destruct (String.eqb k k').
  - rewrite IH. destruct (String.eqb_spec k0 k') as [->|Hne'].
    + apply String.eqb_neq in Hne. rewrite String.eqb_sym in Hne.
      now rewrite Hne.
    + reflexivity.
Qed.

Lemma keys_mapSet_new (m : gomap) (k v : string) :
  mapGet m k = None -> keys (mapSet m k v) = keys m ++ [k].
Proof.
  unfold keys. induction m as [|[k0 v0] m IH]; cbn; [reflexivity|].
  destruct (String.eqb k0 k); [discriminate|].
  intros H. cbn. now rewrite (IH H).
Qed.

(** The loop over [--appBinOnly], from any map. *)
Lemma withBinOnly_fold (only : list string) :
  forall m : gomap,
    NoDup (keys m) ->
    let m' :=
      fold_left
        (fun m v =>
           match mapGet m v with
           | Some _ => m
           | None => mapSet m v ""
           end)
        only m in
    NoDup (keys m')
    /\ forall k,
         mapGet m' k
         = match mapGet m k with
           | Some v => Some v
           | None => if existsb (String.eqb k) only then Some ""%string
                     else None
           end.
Proof.
  induction only as [|v only IH]; intros m Hnd; cbn [fold_left existsb].
  - split; [exact Hnd|]. intros k. now destruct (mapGet m k).
  - destruct (mapGet m v) as [w|] eqn:Hv.
    + destruct (IH m Hnd) as [Hnd' Hget]. split; [exact Hnd'|].
      intros k. rewrite Hget. destruct (mapGet m k) as [x|] eqn:Hk;
        [reflexivity|].
      destruct (String.eqb_spec k v) as [->|_]; [congruence|reflexivity].
    + assert (Hnd1 : NoDup (keys (mapSet m v ""))).
      { rewrite keys_mapSet_new by exact Hv.
        apply NoDup_app; [exact Hnd|repeat constructor; intros []|].
        intros x Hx [<-|[]]. now apply mapGet_None in Hv. }
      destruct (IH _ Hnd1) as [Hnd' Hget]. split; [exact Hnd'|].
      intros k. rewrite Hget, mapGet_mapSet, String.eqb_sym.
      destruct (String.eqb_spec k v) as [->|_]; [now rewrite Hv|].
      reflexivity.
Qed.

(** X13: [Binaries] turns a map from binary path to mapping path into one
    entry per key, with the mapping of that key, whatever the order in
    which the map is ranged over: an entry is in the result exactly when
    the map sends its path to its mapping, there are as many entries as
    keys, and no path occurs twice. *)
Theorem Binaries_one_entry_per_key
    (rangeOrder : gomap -> gomap) (bins : gomap) :
  (forall m, Permutation (rangeOrder m) m) ->
  NoDup (keys bins) ->
  (forall b,
      In b (Binaries rangeOrder bins)
      <-> mapGet bins (filePath b) = Some (mappingPath b))
  /\ List.length (Binaries rangeOrder bins) = List.length bins
  /\ NoDup (map filePath (Binaries rangeOrder bins)).
Proof.
  intros Hperm Hnd. rewrite Binaries_map. split; [|split].
  - intros [path mapping]. cbn [filePath mappingPath].
    rewrite (mapGet_In bins path mapping Hnd), in_map_iff. split.
    + intros ([k v] & Heq & Hin). injection Heq as -> ->.
      eapply Permutation_in; [apply Hperm|exact Hin].
    + intros Hin. exists (path, mapping). split; [reflexivity|].
      eapply Permutation_in; [apply Permutation_sym, Hperm|exact Hin].
  - rewrite length_map. apply Permutation_length, Hperm.
  - rewrite map_map. cbn [filePath BinaryWithMapping].
    eapply Permutation_NoDup;
      [apply Permutation_sym, Permutation_map, Hperm|exact Hnd].
Qed.

Lemma Binaries_one_entry_per_key_witness :
  let bins := [("a.aab", "a.txt"); ("b.aab", "")]%string in
  (forall b,
      In b (Binaries (@rev _) bins)
      <-> mapGet bins (filePath b) = Some (mappingPath b))
  /\ List.length (Binaries (@rev _) bins) = 2%nat
  /\ NoDup (map filePath (Binaries (@rev _) bins)).
Proof.
  intros bins.
  apply (Binaries_one_entry_per_key (@rev _) bins).
  - intros m. apply Permutation_sym, Permutation_rev.
  - repeat constructor; cbn; intuition discriminate.
Defined.

Lemma withBinOnly_is_fold (only : list string) (bins : gomap) :
  Cmd.withBinOnly only bins
  = fold_left
      (fun m v =>
         match mapGet m v with
         | Some _ => m
         | None => mapSet m v ""
         end)
      only bins.
Proof. now destruct only. Qed.

(** X14: the paths of [--appBinOnly] are merged into the map of
    [--appBin] without losing a mapping: a path that is a key of the map
    keeps its mapping, also when [--appBinOnly] names it too; a path
    named only by [--appBinOnly] gets the empty mapping; no other key
    appears, and the keys stay distinct. *)
Theorem withBinOnly_keeps_mappings (only : list string) (bins : gomap) :
  NoDup (keys bins) ->
  let m' := Cmd.withBinOnly only bins in
  NoDup (keys m')
  /\ forall k,
       mapGet m' k
       = match mapGet bins k with
         | Some v => Some v
         | None => if existsb (String.eqb k) only then Some ""%string
                   else None
         end.
Proof.
  intros Hnd m'. subst m'. unfold Cmd.withBinOnly.
  destruct only as [|v only].
  - split; [exact Hnd|]. intros k. now destruct (mapGet bins k).
  - apply (withBinOnly_fold (v :: only) bins Hnd).
Qed.

(** The path "app.aab" is given by both flags. *)
Lemma withBinOnly_keeps_mappings_witness :
  let m' := Cmd.withBinOnly ["app.aab"; "other.aab"]%string
              [("app.aab", "mapping.txt")]%string in
  mapGet m' "app.aab" = Some "mapping.txt"%string
  /\ mapGet m' "other.aab" = Some ""%string
  /\ mapGet m' "third.aab" = None.
Proof.
  intros m'.
  destruct (withBinOnly_keeps_mappings ["app.aab"; "other.aab"]%string
              [("app.aab", "mapping.txt")]%string) as [_ H].
  - repeat constructor. intros [].
  - split; [|split].
    + exact (H "app.aab"%string).
    + exact (H "other.aab"%string).
    + exact (H "third.aab"%string).
Defined.

(* ================================================================= *)
(** ** The command, end to end *)

Lemma files_run_success (p : publish) (cres : result string)
    (log : list call) :
  files_run p cres log (Return None) ->
  calls MCreateEdit log = 1%nat
  /\ calls MValidateEdit log = 1%nat
  /\ calls MCommitEdit log = 1%nat
  /\ calls MDeleteEdit log = 0%nat
  /\ calls (binMethod (apk p)) log = List.length (files p)
  /\ Forall (fun c => call_package c = packageName p) log.
Proof.
  intros H. inversion H as [ | | | | | edit cs Hl Hc Hlog Hout ]; subst.
  destruct (loop_run_edit_calls _ _ _ _ _ Hl) as (E1 & E2 & E3 & E4).
  destruct (loop_run_counts _ _ _ _ _ Hl) as (_ & _ & _ & _ & L5).
  destruct (L5 eq_refl) as [L6 _].
  pose proof (loop_run_calls _ _ _ _ _ Hl (incl_refl _)) as Hall.
  change (CreateEdit (packageName p) (Ok edit) :: cs ++ ?l)
    with ([CreateEdit (packageName p) (Ok edit)] ++ cs ++ l).
  rewrite !calls_app, E1, E2, E3, E4, L6.
  repeat split; try (destruct (apk p); cbn; lia).
  apply Forall_app. split; [now repeat constructor|].
  apply Forall_app. split; [|now repeat constructor].
  eapply Forall_impl; [|exact Hall]. cbn. tauto.
Qed.

Lemma In_keys_mapGet (m : gomap) (k : string) :
  In k (keys m) <-> exists v, mapGet m k = Some v.
Proof.
  induction m as [|[k' v'] m IH]; cbn.
  - split; [tauto|]. intros [v H]. discriminate.
  - destruct (String.eqb_spec k' k) as [->|Hne].
    + split; [intros _; now exists v'|intros _; now left].
    + rewrite <- IH. split; [intros [H|H]; [now elim Hne|exact H]|tauto].
Qed.

Lemma keys_withBinOnly (only : list string) (bins : gomap) (k : string) :
  NoDup (keys bins) ->
  In k (keys (Cmd.withBinOnly only bins)) <-> In k only \/ In k (keys bins).
Proof.
  intros Hnd.
  rewrite withBinOnly_is_fold.
  destruct (withBinOnly_fold only bins Hnd) as [_ Hget].
  rewrite !In_keys_mapGet, (Hget k).
  destruct (mapGet bins k) as [v|] eqn:Hk.
  - split; [intros _; right; now exists v|intros _; now exists v].
  - destruct (existsb (String.eqb k) only) eqn:He.
    + split; [|intros _; now eexists].
      intros _. left. apply existsb_exists in He as (x & Hx & Hkx).
      apply String.eqb_eq in Hkx. now subst x.
    + split; [intros [v H]; discriminate|].
      intros [Hi|[v H]]; [|discriminate].
      assert (existsb (String.eqb k) only = true); [|congruence].
      apply existsb_exists. exists k. split; [exact Hi|].
      apply String.eqb_refl.
Qed.

(** X15: when the command returns no error, one edit was created and
    committed and none deleted, every call was made for the trimmed
    application id, and the binaries uploaded (by the method that the
    [--apk] flag selects) are as many as the distinct paths given through
    [--appBinOnly] and [--appBin] together, of which there is at least
    one. *)
Theorem Cmd_RunE_success_uploads_every_path
    {St : Type} (gs : IGService St) (rangeOrder : gomap -> gomap)
    (osFs : Fs) (fl : Cmd.flags) (s : St) :
  (forall m, Permutation (rangeOrder m) m) ->
  NoDup (keys (Cmd.AppBin fl)) ->
  let run := Cmd.RunE rangeOrder osFs (fun _ st => (Ok (traced gs), st)) fl
               (s, []) in
  fst run = Return None ->
  let log := snd (snd run) in
  let paths := keys (Cmd.withBinOnly (Cmd.AppBinOnly fl) (Cmd.AppBin fl)) in
  calls MCreateEdit log = 1%nat
  /\ calls MCommitEdit log = 1%nat
  /\ calls MDeleteEdit log = 0%nat
  /\ Forall (fun c => call_package c = strings.TrimSpace (Cmd.AppID fl)) log
  /\ calls (binMethod (Cmd.IsApk fl)) log = List.length paths
  /\ (1 <= List.length paths)%nat
  /\ NoDup paths
  /\ (forall k,
         In k paths
         <-> In k (Cmd.AppBinOnly fl) \/ In k (keys (Cmd.AppBin fl))).
Proof.
  intros Hperm Hnd run Hret log paths. subst log paths.
  assert (Hup : run = Cmd.upload rangeOrder osFs
                        (fun _ st => (Ok (traced gs), st)) fl (s, [])).
  { unfold run, Cmd.RunE.
    destruct (Cmd.AppBinOnly fl) as [|o only] eqn:Ho;
      destruct (Cmd.AppBin fl) as [|kv bins] eqn:Hb; try reflexivity.
    exfalso. unfold run, Cmd.RunE in Hret. rewrite Ho, Hb in Hret.
    discriminate. }
  rewrite Hup in *. clear Hup run. unfold Cmd.upload in *.
  set (bins := Cmd.withBinOnly (Cmd.AppBinOnly fl) (Cmd.AppBin fl)) in *.
  destruct (Publish osFs (Cmd.AppID fl) TrackInternal (Cmd.SecretFile fl)
              (Binaries rangeOrder bins) (Cmd.IsApk fl) (Cmd.Verbose fl))
    as [p|err] eqn:Hp; [|discriminate].
  pose proof (UploadFiles_traced gs p s) as Hrun. cbn zeta in Hrun.
  destruct (UploadFiles p (Some (traced gs)) (s, []))
    as [[[err|]|e] [s' log]]; try discriminate.
  cbn [fst snd] in *.
  apply Publish_Ok_iff in Hp as (_ & _ & _ & Hne & _ & ->).
  destruct (files_run_success _ _ _ Hrun) as (C1 & _ & C3 & C4 & C5 & C6).
  cbn [apk files packageName] in *.
  assert (Hlen : List.length (Binaries rangeOrder bins)
                 = List.length (keys bins)).
  { rewrite Binaries_map. unfold keys. rewrite !length_map.
    apply Permutation_length, Hperm. }
  repeat split; try assumption.
  - now rewrite C5.
  - rewrite <- Hlen. destruct (Binaries rangeOrder bins); [now elim Hne|].
    cbn. lia.
  - subst bins. rewrite withBinOnly_is_fold.
    apply (withBinOnly_fold _ _ Hnd).
  - now apply keys_withBinOnly.
  - now apply keys_withBinOnly.
Qed.

(** The path "app.aab" is given by both flags, with its mapping in
    [--appBin]; the application id has a space before it and a no-break
    space (U+00A0) after it. *)
Lemma Cmd_RunE_success_uploads_every_path_witness :
  let fl := Cmd.mkFlags "auth.json" (" com.sample.app" ++ strings.utf8 0xA0)
              ["app.aab"]%string [("app.aab", "mapping.txt")]%string "" false
              false in
  let osFs := Mock.memFs [("auth.json", []); ("app.aab", [x0a]);
                          ("mapping.txt", [x0b])]%string in
  let run := Cmd.RunE (fun m => m) osFs
               (fun _ st => (Ok (traced (Fake.service Fake.none)), st)) fl
               (tt, []) in
  calls MCommitEdit (snd (snd run)) = 1%nat
  /\ calls MUploadBundle (snd (snd run)) = 1%nat
  /\ Forall (fun c => call_package c = "com.sample.app"%string)
       (snd (snd run)).
Proof.
  intros fl osFs run.
  destruct (Cmd_RunE_success_uploads_every_path (Fake.service Fake.none)
              (fun m => m) osFs fl tt) as (_ & H2 & _ & H4 & H5 & _).
  - intros m. apply Permutation_refl.
  - repeat constructor. intros [].
  - vm_compute. reflexivity.
  - split; [exact H2|]. split; [exact H5|exact H4].
Defined.



(* ================================================================= *)
(** ** Failures before the service is reached; fields that play no part *)

(** X17: a file that cannot be opened, read or rewound fails [upload]
    before the service is reached: no call is made and the state of the
    service is as before.  The error of [Open] is returned as it is (also
    by [uploadMapping]); the error of reading or rewinding is wrapped in
    a message that names the path. *)
Theorem upload_local_failure_makes_no_call
    {St : Type} (gs : IGService St) (p : publish) (path edit : string)
    (isApk : bool) (v : Z) (s : St) (log : list call) :
  (forall err,
      Open (fs p) path = Err err ->
      upload p (traced gs) path edit isApk (s, log)
      = (Return (Err err), (s, log))
      /\ uploadMapping p (traced gs) path edit v (s, log)
         = (Some err, (s, log)))
  /\ (forall opened e,
        Open (fs p) path = Ok opened ->
        readErr opened = Some e
        \/ (readErr opened = None /\ seekErr opened = Some e) ->
        upload p (traced gs) path edit isApk (s, log)
        = (Return (Err (wrapError
                          ("failed calculating '" ++ path
                           ++ "' sha256 hash: " ++ Error e) e)), (s, log))).
Proof.
  split.
  - intros err Ho. unfold upload, uploadMapping. rewrite Ho. now split.
  - intros opened e Ho Hfail. unfold upload. rewrite Ho.
    assert (Hh : exists r, fileSha256 (openAt0 opened) = (Err e, r)).
    { unfold fileSha256, openAt0. cbn [file].
      destruct Hfail as [Hr|[Hr Hs]]; rewrite Hr; [eexists; reflexivity|].
      rewrite Hs. eexists; reflexivity. }
    destruct Hh as [r Hh]. now rewrite Hh.
Qed.

(** A binary that opens and fails on reading. *)
Lemma upload_local_failure_makes_no_call_witness :
  let broken := errorString "read failed" in
  let fsys := mkFs (fun _ => Ok (mkFileInfo 1))
                (fun _ => Ok (mkFile [x01] (Some broken) None)) in
  let p := mkPublish "com.test.app" "internal" "auth.json"
             [Binary "test.apk"] true false fsys in
  upload p (traced Mock.service) "test.apk" "1" true (Some Mock.zero, [])
  = (Return (Err (wrapError
                    "failed calculating 'test.apk' sha256 hash: read failed"
                    broken)), (Some Mock.zero, [])).
Proof.
  intros broken fsys p.
  refine (proj2 (upload_local_failure_makes_no_call Mock.service p
                   "test.apk" "1" true 0 (Some Mock.zero) [])
            (mkFile [x01] (Some broken) None) broken _ _).
  - reflexivity.
  - now left.
Defined.

Lemma uploadEach_ignores_track (St : Type) (gs : IGService St)
    (pkg t1 t2 a1 a2 : string) (all : list binary) (isApk verb : bool)
    (fsys : Fs) (edit : string) (fl : list binary) :
  forall (versions : list Z) (s : St),
    uploadEach (mkPublish pkg t1 a1 all isApk verb fsys) gs edit fl versions s
    = uploadEach (mkPublish pkg t2 a2 all isApk verb fsys) gs edit fl versions
        s.
Proof.
  induction fl as [|f rest IH]; intros versions s; [reflexivity|].
  cbn [uploadEach].
  change (upload (mkPublish pkg t1 a1 all isApk verb fsys))
    with (upload (St := St) (mkPublish pkg t2 a2 all isApk verb fsys)).
  destruct (upload _ gs (filePath f) edit _ s) as [[[v|err]|e] s1];
    try reflexivity.
  destruct (String.eqb (mappingPath f) ""); [apply IH|].
  change (uploadMapping (mkPublish pkg t1 a1 all isApk verb fsys))
    with (uploadMapping (St := St) (mkPublish pkg t2 a2 all isApk verb fsys)).
  destruct (uploadMapping _ gs (mappingPath f) edit v s1) as [[err|] s2];
    [reflexivity|apply IH].
Qed.

(** X18: the track and the path of the credentials file that a request
    holds play no part in [UploadFiles]: two requests that differ only in
    them make the same calls, leave the service in the same state and
    return the same result. *)
Theorem UploadFiles_ignores_track_and_authFile
    {St : Type} (gs : option (IGService St)) (pkg t1 t2 a1 a2 : string)
    (fl : list binary) (isApk verb : bool) (fsys : Fs) (s : St) :
  UploadFiles (mkPublish pkg t1 a1 fl isApk verb fsys) gs s
  = UploadFiles (mkPublish pkg t2 a2 fl isApk verb fsys) gs s.
Proof.
  destruct gs as [gs|]; [|reflexivity].
  unfold UploadFiles. cbn [packageName files].
  destruct (createEdit gs pkg s) as [[edit|err] s1]; [|reflexivity].
  now rewrite (uploadEach_ignores_track St gs pkg t1 t2 a1 a2).
Qed.
